(** * Tiled multi-scale inference and accuracy reporting (mseg_semantic/tool)

    A shallow embedding of [inference_task.py] and [accuracy_calculator.py].

    Conventions.
    - Python integers (image sizes, indices, strides) are [Z].
    - Floating-point quantities.  The stride and the grid of
      [scale_process_cuda] are computed in binary64, as the source does
      ([Float64], [Binary64]); the fusion of the scales is given for the
      arithmetic of its tensors ([Numeric]), binary32 being an instance.
      Elsewhere they are idealised: [stride_rate] and the scale factors are
      exact rationals [Q], class scores are real numbers [R] (so [softmax]
      is the mathematical one).  Integer-valued float buffers (the coverage
      buffer [count_crop]) hold [Z].
    - numpy arrays and torch tensors are rectangular nested lists; the shape
      is read off the first elements, as [length] and [hd].
    - Exceptions and console output are explicit: a computation threads a
      trace of events and ends in a value or in an exception. *)

From Stdlib Require Import String Ascii.
From Stdlib Require Import ZArith QArith Qround List Bool Lia Reals Lra.
From Stdlib Require Floats.
Import ListNotations.
Local Open Scope Z_scope.

(* ------------------------------------------------------------------ *)
(** ** Python sequences *)

Module Py.

(** Normalisation of a slice bound against a sequence of length [len]
    (step 1): negative bounds count from the end, everything is clamped. *)
Definition norm_index (len i : Z) : Z :=
  if i <? 0 then Z.max (i + len) 0 else Z.min i len.

(** [l[s:e]] *)
Definition slice {A : Type} (l : list A) (s e : Z) : list A :=
  let len := Z.of_nat (length l) in
  let s' := norm_index len s in
  let e' := norm_index len e in
  firstn (Z.to_nat (e' - s')) (skipn (Z.to_nat s') l).

(** [range(0, n)] *)
Definition range (n : Z) : list Z := map Z.of_nat (seq 0 (Z.to_nat n)).

(** Indexed map, the index of the head being [i]. *)
Fixpoint map_from {A : Type} (f : Z -> A -> A) (i : Z) (l : list A) : list A :=
  match l with
  | [] => []
  | x :: t => f i x :: map_from f (i + 1) t
  end.

(** [l[s:e] = [f i x for i, x in enumerate(l)][s:e]], in place. *)
Definition update_slice {A : Type} (f : Z -> A -> A) (l : list A) (s e : Z) : list A :=
  let len := Z.of_nat (length l) in
  let s' := norm_index len s in
  let e' := norm_index len e in
  map_from (fun i x => if (s' <=? i) && (i <? e') then f (i - s') x else x) 0 l.

(** [l[i]] for a non-negative index, [None] when out of range. *)
Definition get {A : Type} (l : list A) (i : Z) : option A :=
  if i <? 0 then None else nth_error l (Z.to_nat i).

(** [round(x)]: to the nearest integer, a tie going to the even one. *)
Definition round (x : Q) : Z :=
  let f := Qfloor x in
  let d := (x - inject_Z f)%Q in
  match (d ?= 1 # 2)%Q with
  | Lt => f
  | Gt => f + 1
  | Eq => if Z.even f then f else f + 1
  end.

(** [int(x)]: truncation towards zero. *)
Definition int (x : Q) : Z := if Qle_bool 0 x then Qfloor x else Qceiling x.

End Py.

(* ------------------------------------------------------------------ *)
(** ** Arrays *)

(** Two-dimensional shape of an array whose outer two axes are rows and
    columns: [h, w = a.shape[:2]]. *)
Definition height {A : Type} (a : list (list A)) : Z := Z.of_nat (length a).
Definition width {A : Type} (a : list (list A)) : Z := Z.of_nat (length (hd [] a)).

(** [a[s_h:e_h, s_w:e_w]] *)
Definition slice2 {A : Type} (a : list (list A)) (s_h e_h s_w e_w : Z) : list (list A) :=
  map (fun row => Py.slice row s_w e_w) (Py.slice a s_h e_h).

(** [a[i][j]] *)
Definition get2 {A : Type} (a : list (list A)) (i j : Z) : option A :=
  match Py.get a i with
  | Some row => Py.get row j
  | None => None
  end.

(** [numpy.zeros((h, w))] and the like. *)
Definition full2 {A : Type} (h w : Z) (v : A) : list (list A) :=
  repeat (repeat v (Z.to_nat w)) (Z.to_nat h).

(** [cv2.copyMakeBorder(src, top, bottom, left, right, BORDER_CONSTANT, value)] *)
Definition copyMakeBorder {A : Type} (src : list (list A))
    (top bottom left right : Z) (value : A) : list (list A) :=
  let blank := repeat value (Z.to_nat (left + width src + right)) in
  repeat blank (Z.to_nat top)
  ++ map (fun row => repeat value (Z.to_nat left) ++ row ++ repeat value (Z.to_nat right)) src
  ++ repeat blank (Z.to_nat bottom).

(* ------------------------------------------------------------------ *)
(** ** Padding and the tile grid *)

(** [pad_to_crop_sz(image, crop_h, crop_w, mean)] *)
Definition pad_to_crop_sz {A : Type} (image : list (list A)) (crop_h crop_w : Z) (mean : A)
  : list (list A) * Z * Z :=
  let ori_h := height image in
  let ori_w := width image in
  let pad_h := Z.max (crop_h - ori_h) 0 in
  let pad_w := Z.max (crop_w - ori_w) 0 in
  let pad_h_half := Py.int (inject_Z pad_h / 2) in
  let pad_w_half := Py.int (inject_Z pad_w / 2) in
  let image :=
    if (0 <? pad_h) || (0 <? pad_w)
    then copyMakeBorder image pad_h_half (pad_h - pad_h_half)
                        pad_w_half (pad_w - pad_w_half) mean
    else image in
  (image, pad_h_half, pad_w_half).

(** The default of the parameter [stride_rate] of [scale_process_cuda]. *)
Definition default_stride_rate : Q := 2 # 3.

(** [int(np.ceil(crop * stride_rate))] *)
Definition stride_of (crop : Z) (stride_rate : Q) : Z :=
  Qceiling (inject_Z crop * stride_rate).

(** [int(np.ceil(float(new - crop) / stride) + 1)];
    [None] is Python's ZeroDivisionError. *)
Definition grid_of (new crop stride : Z) : option Z :=
  if stride =? 0 then None
  else Some (Qceiling (inject_Z (new - crop) / inject_Z stride) + 1).

(** The rectangle of one tile. *)
Record tile : Type := Tile { s_h : Z; e_h : Z; s_w : Z; e_w : Z }.

(** Lines 379-384: the bounds for the tile of index [(index_h, index_w)]. *)
Definition tile_at (crop_h crop_w new_h new_w stride_h stride_w index_h index_w : Z) : tile :=
  let s_h := index_h * stride_h in
  let e_h := Z.min (s_h + crop_h) new_h in
  let s_h := e_h - crop_h in
  let s_w := index_w * stride_w in
  let e_w := Z.min (s_w + crop_w) new_w in
  let s_w := e_w - crop_w in
  Tile s_h e_h s_w e_w.

(** The tiles in the order of the two nested loops (row-major). *)
Definition tiles (crop_h crop_w new_h new_w stride_h stride_w grid_h grid_w : Z) : list tile :=
  flat_map (fun index_h =>
    map (fun index_w =>
           tile_at crop_h crop_w new_h new_w stride_h stride_w index_h index_w)
        (Py.range grid_w))
    (Py.range grid_h).

(** [count_crop[s_h:e_h, s_w:e_w] += 1] *)
Definition count_tile (count_crop : list (list Z)) (t : tile) : list (list Z) :=
  Py.update_slice
    (fun _ row => Py.update_slice (fun _ c => c + 1) row (s_w t) (e_w t))
    count_crop (s_h t) (e_h t).

(** The coverage buffer once the given tiles have been visited. *)
Definition count_tiles (count_crop : list (list Z)) (ts : list tile) : list (list Z) :=
  fold_left count_tile ts count_crop.

(** The ceiling of an integer quotient, in integer arithmetic. *)
Definition ceil_div (a b : Z) : Z := - ((- a) / b).

(** An array of [h] rows that all have [w] columns. *)
Definition shaped {A : Type} (h w : Z) (a : list (list A)) : Prop :=
  height a = h /\ Forall (fun row => Z.of_nat (length row) = w) a.





(* ------------------------------------------------------------------ *)
(** ** Score tensors *)

(** A pixel of an image: its channel values, or its class scores. *)
Definition pixel : Type := list R.
(** An [H x W x C] numpy array. *)
Definition image : Type := list (list pixel).
(** A [C x H x W] torch tensor. *)
Definition tensor3 : Type := list (list (list R)).
(** An [N x C x H x W] torch tensor. *)
Definition tensor4 : Type := list tensor3.

Definition shape3 (t : list (list (list R))) : nat * nat * nat :=
  (length t, length (hd [] t), length (hd [] (hd [] t))).

Definition shape3_eqb (a b : nat * nat * nat) : bool :=
  let '(a1, a2, a3) := a in
  let '(b1, b2, b3) := b in
  (a1 =? b1)%nat && (a2 =? b2)%nat && (a3 =? b3)%nat.

(** Every axis has the stated length all over the tensor. *)
Definition has_shape3 (n1 n2 n3 : nat) (t : list (list (list R))) : bool :=
  (length t =? n1)%nat
  && forallb (fun a => (length a =? n2)%nat
                       && forallb (fun b => (length b =? n3)%nat) a) t.

Definition map3 (f : R -> R) (t : list (list (list R))) : list (list (list R)) :=
  map (map (map f)) t.

Definition zip_with {A B C : Type} (f : A -> B -> C) (a : list A) (b : list B) : list C :=
  map (fun p => f (fst p) (snd p)) (combine a b).

(** The elementwise sum of two tensors of the same shape. *)
Definition zip3 (a b : list (list (list R))) : list (list (list R)) :=
  zip_with (zip_with (zip_with Rplus)) a b.

(** Elementwise combination of two sequences of the same length, failing
    on another length or when an element fails. *)
Fixpoint zipM {A : Type} (f : A -> A -> option A) (a b : list A) : option (list A) :=
  match a, b with
  | [], [] => Some []
  | x :: a', y :: b' =>
      match f x y, zipM f a' b' with
      | Some z, Some r => Some (z :: r)
      | _, _ => None
      end
  | _, _ => None
  end.

(** One axis of torch broadcasting: equal lengths are zipped, an axis of
    length 1 is repeated, anything else is an error. *)
Definition bzip {A : Type} (f : A -> A -> option A) (a b : list A) : option (list A) :=
  if (length a =? length b)%nat then zipM f a b
  else match a, b with
       | [x], _ => zipM f (repeat x (length b)) b
       | _, [y] => zipM f a (repeat y (length a))
       | _, _ => None
       end.

Definition add1 : list R -> list R -> option (list R) :=
  bzip (fun x y => Some (x + y)%R).
Definition add2 : list (list R) -> list (list R) -> option (list (list R)) := bzip add1.
(** [a + b] on three-dimensional tensors; [None] is torch's RuntimeError. *)
Definition add3 : list (list (list R)) -> list (list (list R)) -> option (list (list (list R))) :=
  bzip add2.

(** [image.transpose((2, 0, 1))]: [H x W x C] to [C x H x W]. *)
Definition transpose_2_0_1 (a : image) : tensor3 :=
  map (fun c => map (fun row => map (fun px => nth c px 0%R) row) a)
      (seq 0 (length (hd [] (hd [] a)))).

(** [t.permute(1, 2, 0)]: [C x H x W] to [H x W x C]. *)
Definition permute_1_2_0 (t : tensor3) : image :=
  map (fun i =>
         map (fun j => map (fun ch => nth j (nth i ch []) 0%R) t)
             (seq 0 (length (hd [] (hd [] t)))))
      (seq 0 (length (hd [] t))).

(** [t.flip(2)] on [C x H x W]: mirror along the width axis. *)
Definition flip_w3 (t : tensor3) : tensor3 := map (map (@rev R)) t.
(** [t.flip(3)] on [N x C x H x W]. *)
Definition flip_w4 (t : tensor4) : tensor4 := map flip_w3 t.
(** The horizontal mirror of an [H x W x C] image. *)
Definition mirror (a : image) : image := map (@rev pixel) a.

(** [_, _, h, w = t.shape] *)
Definition shape_hw (t : tensor4) : Z * Z :=
  (Z.of_nat (length (hd [] (hd [] t))),
   Z.of_nat (length (hd [] (hd [] (hd [] t))))).

(** [nn.Softmax(dim=1)] on one sample: over the class axis, per pixel. *)
Definition softmax3 (t : tensor3) : tensor3 :=
  let e := map3 exp t in
  let total :=
    match e with
    | [] => []
    | c0 :: cs => fold_left (zip_with (zip_with Rplus)) cs c0
    end in
  map (fun ch => zip_with (zip_with Rdiv) ch total) e.

Definition softmax (t : tensor4) : tensor4 := map softmax3 t.

(** [torch.argmax]: the index of the first maximal value. *)
Fixpoint argmax_from (l : list R) (i best : Z) (best_val : R) : Z :=
  match l with
  | [] => best
  | x :: t =>
      if Rlt_dec best_val x then argmax_from t (i + 1) i x
      else argmax_from t (i + 1) best best_val
  end.

Definition argmax (l : list R) : Z :=
  match l with
  | [] => 0
  | x :: t => argmax_from t 1 0 x
  end.

(** [np.uint8(x)] on an integer array element: the low 8 bits. *)
Definition uint8 (x : Z) : Z := x mod 256.


(** A matrix of [h] rows of [w] columns. *)
Definition matrix_shape (h w : nat) (m : list (list R)) : Prop :=
  length m = h /\ forall row, In row m -> length row = w.




(* ------------------------------------------------------------------ *)
(** ** Effects: exceptions and a trace of observable events *)

Inductive exn : Type :=
| SystemExit
| NameError (name : string)
| ZeroDivisionError
| RuntimeError
| IndexError
| ValueError
| OverflowError.

Inductive event : Type :=
| EvForward (input : tensor4)   (* a forward pass of the network *)
| EvPrint (msg : string).       (* a line on standard output *)

Definition trace : Type := list event.

Definition M (A : Type) : Type := trace -> (A + exn) * trace.

Definition ret {A : Type} (a : A) : M A := fun tr => (inl a, tr).
Definition raise {A : Type} (e : exn) : M A := fun tr => (inr e, tr).
Definition bind {A B : Type} (m : M A) (k : A -> M B) : M B :=
  fun tr =>
    match m tr with
    | (inl a, tr') => k a tr'
    | (inr e, tr') => (inr e, tr')
    end.
Definition emit (e : event) : M unit := fun tr => (inl tt, tr ++ [e]).
Definition lift_opt {A : Type} (e : exn) (o : option A) : M A :=
  match o with
  | Some a => ret a
  | None => raise e
  end.
Definition lift_sum {A : Type} (r : A + exn) : M A := fun tr => (r, tr).

Notation "x <- m ;; k" := (bind m (fun x => k))
  (at level 61, m at next level, right associativity).

(** The results of a computation on every element of a list, in order. *)
Fixpoint mapM {A B : Type} (f : A -> M B) (l : list A) : M (list B) :=
  match l with
  | [] => ret []
  | x :: t => y <- f x ;; r <- mapM f t ;; ret (y :: r)
  end.

(** A [for] loop threading an accumulator. *)
Fixpoint foldM {A B : Type} (f : A -> B -> M A) (l : list B) (a : A) : M A :=
  match l with
  | [] => ret a
  | x :: t => a' <- f a x ;; foldM f t a'
  end.

(* ------------------------------------------------------------------ *)
(** ** The stride and the grid in binary64 *)

(** The source computes the stride and the grid in floating point.  The
    definitions below follow it in binary64, on Rocq's primitive floats
    and their specification [SpecFloat]. *)

(** The integer [m] or [-m] of a sign and a mantissa. *)
Definition signed (s : bool) (m : positive) : Z := if s then Z.neg m else Z.pos m.

(** The number a float [(s, m, e)] stands for, [(-1)^s * m * 2^e];
    [None] for an infinity or a NaN. *)
Definition SFvalue (x : SpecFloat.spec_float) : option Q :=
  match x with
  | SpecFloat.S754_zero _ => Some 0%Q
  | SpecFloat.S754_finite s m e =>
      Some match e with
           | Z.neg p => signed s m # 2 ^ p
           | _ => inject_Z (signed s m * 2 ^ e)
           end
  | _ => None
  end.

(** [int(x)] on a float: the integer part; Python raises OverflowError on
    an infinity and ValueError on a NaN. *)
Definition SFto_int (x : SpecFloat.spec_float) : Z + exn :=
  match x with
  | SpecFloat.S754_zero _ => inl 0
  | SpecFloat.S754_finite s m e =>
      inl match e with
          | Z.neg p => Z.quot (signed s m) (2 ^ Z.pos p)
          | _ => signed s m * 2 ^ e
          end
  | SpecFloat.S754_infinity _ => inr OverflowError
  | SpecFloat.S754_nan => inr ValueError
  end.

Module Float64.

Import PrimFloat.

Abbreviation prec := FloatOps.prec.
Abbreviation emax := FloatOps.emax.

(** The number a binary64 stands for. *)
Definition value (x : float) : option Q := SFvalue (FloatOps.Prim2SF x).

(** [int(x)] *)
Definition to_int (x : float) : Z + exn := SFto_int (FloatOps.Prim2SF x).

(** [float(z)] for a Python integer: the nearest binary64, a tie going to
    the even one; [None] is Python's OverflowError. *)
Definition of_int (z : Z) : option float :=
  match SpecFloat.binary_normalize prec emax z 0 false with
  | SpecFloat.S754_infinity _ => None
  | x => Some (FloatOps.SF2Prim x)
  end.

(** [np.ceil(x)]: the least integer not below [x], as a binary64; an
    infinity, a NaN and a zero are returned as they are. *)
Definition np_ceil (x : float) : float :=
  match FloatOps.Prim2SF x with
  | SpecFloat.S754_finite s m (Z.neg p) =>
      FloatOps.SF2Prim
        (SpecFloat.binary_normalize prec emax (- ((- signed s m) / 2 ^ Z.pos p)) 0 s)
  | _ => x
  end.

(** The binary64 of a non-zero integer below [2^53] in magnitude: its sign,
    its 53-bit mantissa and its exponent. *)
Definition canon (n : Z) : SpecFloat.spec_float :=
  SpecFloat.S754_finite (n <? 0)
    (Z.to_pos (Z.abs n * 2 ^ (52 - Z.log2 (Z.abs n))))
    (Z.log2 (Z.abs n) - 52).

(** The value of Python's [2/3], the default of [stride_rate]. *)
Definition default_stride_rate : float := (2 / 3)%float.

(** The values of Python's [0.5] and [0.07], and the binary64 next above
    1/3. *)
Definition half : float := 0.5%float.
Definition seven_hundredths : float := 0x1.1eb851eb851ecp-4%float.
Definition third_above : float := 0x1.5555555555556p-2%float.

(** [int(np.ceil(crop * stride_rate))]: the crop size is converted to a
    binary64, the product is the binary64 one. *)
Definition stride_of (crop : Z) (stride_rate : float) : Z + exn :=
  match of_int crop with
  | None => inr OverflowError
  | Some c => to_int (np_ceil (c * stride_rate))
  end.

(** [int(np.ceil(float(new - crop) / stride) + 1)]: both integers are
    converted to binary64 before the divisor is tested, the quotient and
    the sum with 1 are the binary64 ones. *)
Definition grid_of (new crop stride : Z) : Z + exn :=
  match of_int (new - crop), of_int stride with
  | Some a, Some b =>
      if stride =? 0 then inr ZeroDivisionError
      else to_int (np_ceil (a / b) + one)
  | _, _ => inr OverflowError
  end.

(** Agreement of a binary64 result with an exact one. *)
Definition agree (a : Z + exn) (b : option Z) : bool :=
  match a, b with
  | inl x, Some y => x =? y
  | inr _, None => true
  | _, _ => false
  end.

End Float64.

(* ------------------------------------------------------------------ *)
(** ** [InferenceTask] *)

(** The fields of [InferenceTask] (and of its [args]) read by the methods
    below. *)
Record InferenceTask : Type := {
  pred_dim : Z;               (* args.num_model_classes *)
  base_size : Z;
  crop_h : Z;
  crop_w : Z;
  output_taxonomy : string;
  scales : list Q;
  args_universal : bool;      (* args.universal *)
  args_dataset : string       (* args.dataset *)
}.

(** [prediction_crop[:, s_h:e_h, s_w:e_w] += out]; [None] is torch's
    RuntimeError for an [out] that does not broadcast to the region. *)
Definition iadd_region (prediction_crop : tensor3) (t : tile) (out : tensor3) : option tensor3 :=
  let region :=
    map (fun ch => slice2 ch (s_h t) (e_h t) (s_w t) (e_w t)) prediction_crop in
  match add3 region out with
  | Some total =>
      if shape3_eqb (shape3 total) (shape3 region)
      then Some (Py.map_from
                   (fun c ch =>
                      Py.update_slice
                        (fun i row =>
                           Py.update_slice
                             (fun j _ =>
                                nth (Z.to_nat j)
                                    (nth (Z.to_nat i) (nth (Z.to_nat c) total []) [])
                                    0%R)
                             row (s_w t) (e_w t))
                        ch (s_h t) (e_h t))
                   0 prediction_crop)
      else None
  | None => None
  end.

(** One iteration of the body of the two tile loops (lines 379-387),
    for a crop processor [net]. *)
Definition tile_step (net : image -> M tensor3) (img : image)
    (st : tensor3 * list (list Z)) (t : tile) : M (tensor3 * list (list Z)) :=
  let '(prediction_crop, count_crop) := st in
  let image_crop := slice2 img (s_h t) (e_h t) (s_w t) (e_w t) in
  let count_crop := count_tile count_crop t in
  out <- net image_crop ;;
  prediction_crop <- lift_opt RuntimeError (iadd_region prediction_crop t out) ;;
  ret (prediction_crop, count_crop).

(** Lines 374-387: the two buffers and the tile loops. *)
Definition tile_loop (net : image -> M tensor3) (img : image)
    (pred_dim crop_h crop_w new_h new_w stride_h stride_w grid_h grid_w : Z)
  : M (tensor3 * list (list Z)) :=
  let prediction_crop := repeat (full2 new_h new_w 0%R) (Z.to_nat pred_dim) in
  let count_crop := full2 new_h new_w 0 in
  foldM (tile_step net img)
        (tiles crop_h crop_w new_h new_w stride_h stride_w grid_h grid_w)
        (prediction_crop, count_crop).

(** Lines 339-342 of [execute_on_img]: mean over the scales, arg-max over
    the class axis, cast to [uint8]. *)
Definition label_map (prediction : image) (n_scales : nat) : list (list Z) :=
  map (map (fun px => uint8 (argmax (map (fun x => (x / INR n_scales)%R) px)))) prediction.

(** Lines 332-342 for given per-scale score maps: the elementwise sum,
    starting from zeros, then [label_map]. *)
Definition fuse (h w pred_dim : Z) (score_maps : list image) : option (list (list Z)) :=
  let zeros := full2 h w (repeat 0%R (Z.to_nat pred_dim)) in
  match fold_left (fun acc m => match acc with Some p => add3 p m | None => None end)
                  score_maps (Some zeros) with
  | Some prediction => Some (label_map prediction (length score_maps))
  | None => None
  end.

(** The class scores of the pixel [(i, j)] of a score map. *)
Definition scores_at (m : image) (i j : nat) : pixel := nth j (nth i m []) [].

(** The sum over the scales of the class scores of one pixel, and their
    mean. *)
Definition summed_scores (pred_dim : Z) (score_maps : list image) (i j : nat) : pixel :=
  fold_left (zip_with Rplus) (map (fun m => scores_at m i j) score_maps)
            (repeat 0%R (Z.to_nat pred_dim)).

Definition mean_scores (pred_dim : Z) (score_maps : list image) (i j : nat) : pixel :=
  map (fun x => (x / INR (length score_maps))%R) (summed_scores pred_dim score_maps i j).

Section Inference.

(** The collaborators that are not part of this module. *)

(** [self.model]: the network in evaluation mode, on a batch. *)
Variable model : tensor4 -> tensor4.
(** [normalize_img(input, self.mean, self.std)], as a function. *)
Variable normalize_img : tensor3 -> tensor3.
(** [self.mean], the fill value of the padding. *)
Variable mean : pixel.
(** [self.tc.transform_predictions_test] and [..._universal]. *)
Variable transform_predictions_test : tensor4 -> string -> tensor4.
Variable transform_predictions_universal : tensor4 -> string -> tensor4.
(** [cv2.resize(src, (w, h), interpolation=cv2.INTER_LINEAR)] *)
Variable cv2_resize : image -> Z -> Z -> image.

(** The batch given to the network by [net_process]: the normalised crop,
    followed by its mirror when [flip] is set. *)
Definition net_input (img : image) (flip : bool) : tensor4 :=
  let input := normalize_img (transpose_2_0_1 img) in
  if flip then [input; flip_w3 input] else [input].

(** [InferenceTask.convert_pred_to_label_tax_and_softmax] *)
Definition convert_pred_to_label_tax_and_softmax (self : InferenceTask) (output : tensor4)
  : tensor4 :=
  if negb (args_universal self)
  then transform_predictions_test output (args_dataset self)
  else transform_predictions_universal output (args_dataset self).

(** The taxonomy step of [net_process] treats the samples of a batch one
    by one, as [g]: it is the softmax in the universal taxonomy, and in the
    taxonomy of the test dataset the converter is assumed to do so. *)
Definition per_sample_scores (self : InferenceTask) (g : tensor3 -> tensor3) : Prop :=
  (output_taxonomy self = "universal"%string /\ forall t, g t = softmax3 t)
  \/ (output_taxonomy self = "test_dataset"%string
      /\ forall output, convert_pred_to_label_tax_and_softmax self output = map g output).

(** [InferenceTask.net_process].  The name [F] of line 430 is bound
    nowhere in the module. *)
Definition net_process (self : InferenceTask) (img : image) (flip : bool) : M tensor3 :=
  let input := transpose_2_0_1 img in
  let input := normalize_img input in
  let input := [input] in
  let input := if flip then input ++ flip_w4 input else input in
  _ <- emit (EvForward input) ;;
  let output := model input in
  let '(h_i, w_i) := shape_hw input in
  let '(h_o, w_o) := shape_hw output in
  output <- (if negb (h_o =? h_i) || negb (w_o =? w_i)
             then raise (NameError "F")
             else ret output) ;;
  output <- (if String.eqb (output_taxonomy self) "universal"
             then ret (softmax output)
             else if String.eqb (output_taxonomy self) "test_dataset"
             then ret (convert_pred_to_label_tax_and_softmax self output)
             else _ <- emit (EvPrint "Unrecognized output taxonomy. Quitting....") ;;
                  raise SystemExit) ;;
  if flip then
    match output with
    | o0 :: o1 :: _ =>
        total <- lift_opt RuntimeError (add3 o0 (flip_w3 o1)) ;;
        ret (map3 (fun x => (x / 2)%R) total)
    | _ => raise IndexError
    end
  else
    match output with
    | o0 :: _ => ret o0
    | [] => raise IndexError
    end.

(** Lines 366-387 of [scale_process_cuda]: padding, strides, grid and the
    tile loops.  The result is the padded image's buffers
    [(prediction_crop, count_crop)]. *)
Definition scale_process_tiles (self : InferenceTask) (img : image) (stride_rate : Q)
  : M (tensor3 * list (list Z)) :=
  let '(img, pad_h_half, pad_w_half) :=
    pad_to_crop_sz img (crop_h self) (crop_w self) mean in
  let new_h := height img in
  let new_w := width img in
  let stride_h := stride_of (crop_h self) stride_rate in
  let stride_w := stride_of (crop_w self) stride_rate in
  grid_h <- lift_opt ZeroDivisionError (grid_of new_h (crop_h self) stride_h) ;;
  grid_w <- lift_opt ZeroDivisionError (grid_of new_w (crop_w self) stride_w) ;;
  tile_loop (fun image_crop => net_process self image_crop true) img
    (pred_dim self) (crop_h self) (crop_w self) new_h new_w
    stride_h stride_w grid_h grid_w.

(** [InferenceTask.scale_process_cuda] *)
Definition scale_process_cuda (self : InferenceTask) (img : image) (h w : Z)
    (stride_rate : Q) : M image :=
  let ori_h := height img in
  let ori_w := width img in
  let '(_, pad_h_half, pad_w_half) :=
    pad_to_crop_sz img (crop_h self) (crop_w self) mean in
  st <- scale_process_tiles self img stride_rate ;;
  let '(prediction_crop, count_crop) := st in
  let prediction_crop :=
    map (fun ch => zip_with (zip_with (fun x c => (x / IZR c)%R)) ch count_crop)
        prediction_crop in
  let prediction_crop :=
    map (fun ch => slice2 ch pad_h_half (pad_h_half + ori_h)
                             pad_w_half (pad_w_half + ori_w))
        prediction_crop in
  let prediction_crop := permute_1_2_0 prediction_crop in
  ret (cv2_resize prediction_crop w h).

(** [resize_by_scaled_short_side] *)
Definition resize_by_scaled_short_side (img : image) (base_size : Z) (scale : Q) : M image :=
  let h := height img in
  let w := width img in
  let short_size := Py.round (scale * inject_Z base_size) in
  if w <? h then
    if w =? 0 then raise ZeroDivisionError
    else ret (cv2_resize img short_size
                (Py.round (inject_Z short_size / inject_Z w * inject_Z h)))
  else
    if h =? 0 then raise ZeroDivisionError
    else ret (cv2_resize img
                (Py.round (inject_Z short_size / inject_Z h * inject_Z w))
                short_size).

(** [InferenceTask.execute_on_img] *)
Definition execute_on_img (self : InferenceTask) (img : image) : M (list (list Z)) :=
  let h := height img in
  let w := width img in
  let prediction := full2 h w (repeat 0%R (Z.to_nat (pred_dim self))) in
  prediction <-
    foldM (fun prediction scale =>
             image_scale <- resize_by_scaled_short_side img (base_size self) scale ;;
             score_map <- scale_process_cuda self image_scale h w default_stride_rate ;;
             lift_opt RuntimeError (add3 prediction score_map))
          (scales self) prediction ;;
  ret (label_map prediction (length (scales self))).

End Inference.

(* ------------------------------------------------------------------ *)
(** ** The tile loops for a binary64 stride rate *)

Module Binary64.

Section Tiles.

Variable model : tensor4 -> tensor4.
Variable normalize_img : tensor3 -> tensor3.
Variable mean : pixel.
Variable transform_predictions_test : tensor4 -> string -> tensor4.
Variable transform_predictions_universal : tensor4 -> string -> tensor4.

(** The parameter [stride_rate] of [scale_process_cuda]: [None] when the
    caller leaves it out, as [execute_on_img] does, and the default
    applies. *)
Definition stride_rate_of (stride_rate : option PrimFloat.float) : PrimFloat.float :=
  match stride_rate with
  | Some rate => rate
  | None => Float64.default_stride_rate
  end.

(** Lines 366-387 of [scale_process_cuda] for a [stride_rate] that is a
    binary64, the strides and the grid being computed in binary64 as the
    source does; the padding and the tile loops are those of
    [scale_process_tiles]. *)
Definition scale_process_tiles (self : InferenceTask) (img : image)
    (stride_rate : option PrimFloat.float) : M (tensor3 * list (list Z)) :=
  let stride_rate := stride_rate_of stride_rate in
  let '(img, pad_h_half, pad_w_half) :=
    pad_to_crop_sz img (crop_h self) (crop_w self) mean in
  let new_h := height img in
  let new_w := width img in
  stride_h <- lift_sum (Float64.stride_of (crop_h self) stride_rate) ;;
  stride_w <- lift_sum (Float64.stride_of (crop_w self) stride_rate) ;;
  grid_h <- lift_sum (Float64.grid_of new_h (crop_h self) stride_h) ;;
  grid_w <- lift_sum (Float64.grid_of new_w (crop_w self) stride_w) ;;
  tile_loop (fun image_crop =>
               net_process model normalize_img transform_predictions_test
                 transform_predictions_universal self image_crop true)
    img (pred_dim self) (crop_h self) (crop_w self) new_h new_w
    stride_h stride_w grid_h grid_w.

End Tiles.

End Binary64.

(* ------------------------------------------------------------------ *)
(** ** The fusion of the scales in the arithmetic of its tensors *)

(** Lines 332-342 of [execute_on_img] work on torch tensors of dtype
    float32.  The definitions below give them for any arithmetic: the
    zero, the sum, the division by the number of scales and the comparison
    of [torch.argmax] are parameters.  [reals] is the arithmetic of [fuse],
    [binary32] the one of the tensors. *)

Module Numeric.

Record arithmetic : Type := {
  num : Type;
  zero : num;                     (* an element of [torch.zeros] *)
  add : num -> num -> num;        (* [x + y] *)
  div_by : num -> nat -> num;     (* [x / n] for a Python integer [n], as
                                     the device of the tensor computes it *)
  gtb : num -> num -> bool        (* [x] is above [y] for [torch.argmax] *)
}.

(** Every axis has the stated length all over the array. *)
Definition has_shape3 {A : Type} (n1 n2 n3 : nat) (t : list (list (list A))) : bool :=
  (length t =? n1)%nat
  && forallb (fun a => (length a =? n2)%nat
                       && forallb (fun b => (length b =? n3)%nat) a) t.

Section Fusion.

Variable ar : arithmetic.

(** An [H x W x C] score map. *)
Definition score_map : Type := list (list (list (num ar))).

Definition add1 : list (num ar) -> list (num ar) -> option (list (num ar)) :=
  bzip (fun x y => Some (add ar x y)).
Definition add2 : list (list (num ar)) -> list (list (num ar))
                  -> option (list (list (num ar))) := bzip add1.
(** [a + b] on three-dimensional tensors; [None] is torch's RuntimeError. *)
Definition add3 : score_map -> score_map -> option score_map := bzip add2.

(** The elementwise sum of two tensors of the same shape. *)
Definition zip3 (a b : score_map) : score_map :=
  zip_with (zip_with (zip_with (add ar))) a b.

(** [torch.argmax]: the index of the first value that none is above. *)
Fixpoint argmax_from (l : list (num ar)) (i best : Z) (best_val : num ar) : Z :=
  match l with
  | [] => best
  | x :: t =>
      if gtb ar x best_val then argmax_from t (i + 1) i x
      else argmax_from t (i + 1) best best_val
  end.

Definition argmax (l : list (num ar)) : Z :=
  match l with
  | [] => 0
  | x :: t => argmax_from t 1 0 x
  end.

(** Lines 339-342 of [execute_on_img]: mean over the scales, arg-max over
    the class axis, cast to [uint8]. *)
Definition label_map (prediction : score_map) (n_scales : nat) : list (list Z) :=
  map (map (fun px => uint8 (argmax (map (fun x => div_by ar x n_scales) px)))) prediction.

(** Lines 332-342 for given per-scale score maps: the elementwise sum in
    the order of the scales, starting from zeros, then [label_map]. *)
Definition fuse (h w pred_dim : Z) (score_maps : list score_map) : option (list (list Z)) :=
  let zeros := full2 h w (repeat (zero ar) (Z.to_nat pred_dim)) in
  match fold_left (fun acc m => match acc with Some p => add3 p m | None => None end)
                  score_maps (Some zeros) with
  | Some prediction => Some (label_map prediction (length score_maps))
  | None => None
  end.

(** The class scores of the pixel [(i, j)] of a score map. *)
Definition scores_at (m : score_map) (i j : nat) : list (num ar) := nth j (nth i m []) [].

(** The sum over the scales of the class scores of one pixel, as the loop
    computes it, and their mean. *)
Definition summed_scores (pred_dim : Z) (score_maps : list score_map) (i j : nat)
  : list (num ar) :=
  fold_left (zip_with (add ar)) (map (fun m => scores_at m i j) score_maps)
            (repeat (zero ar) (Z.to_nat pred_dim)).

Definition mean_scores (pred_dim : Z) (score_maps : list score_map) (i j : nat)
  : list (num ar) :=
  map (fun x => div_by ar x (length score_maps)) (summed_scores pred_dim score_maps i j).

End Fusion.

(** The real numbers. *)
Definition reals : arithmetic :=
  {| num := R;
     zero := 0%R;
     add := Rplus;
     div_by := fun x n => (x / INR n)%R;
     gtb := fun x y => if Rlt_dec y x then true else false |}.

Definition is_nan (x : SpecFloat.spec_float) : bool :=
  match x with SpecFloat.S754_nan => true | _ => false end.

(** The binary32 numbers of a torch tensor of dtype float32 on the CPU:
    sums and quotients are rounded to the nearest binary32, a tie going to
    the even one; for [torch.argmax] a NaN is above every number. *)
Definition binary32 : arithmetic :=
  {| num := SpecFloat.spec_float;
     zero := SpecFloat.S754_zero false;
     add := SpecFloat.SFadd 24 128;
     div_by := fun x n =>
       SpecFloat.SFdiv 24 128 x
         (SpecFloat.binary_normalize 24 128 (Z.of_nat n) 0 false);
     gtb := fun x y =>
       SpecFloat.SFltb y x || (is_nan x && negb (is_nan y)) |}.

(** The value of a binary32 number, 0 standing in for an infinity and for
    a NaN. *)
Definition value32 (x : SpecFloat.spec_float) : Q :=
  match SFvalue x with
  | Some v => v
  | None => 0%Q
  end.

(** The value of a binary32 number in units of [2^-149], the least
    positive one. *)
Definition scaled32 (x : SpecFloat.spec_float) : Z :=
  match x with
  | SpecFloat.S754_finite s m e => signed s m * 2 ^ (e + 149)
  | _ => 0
  end.

(** A binary32 number that is neither an infinity nor a NaN. *)
Definition finite32 (x : SpecFloat.spec_float) : Prop :=
  SpecFloat.valid_binary 24 128 x = true /\ SFvalue x <> None.

End Numeric.

(* ------------------------------------------------------------------ *)
(** ** [pathlib] on POSIX paths *)

Module Pathlib.

Local Open Scope string_scope.

(** [s.split(sep)] *)
Fixpoint split (sep : ascii) (s : string) : list string :=
  match s with
  | EmptyString => [EmptyString]
  | String c s' =>
      if Ascii.eqb c sep then EmptyString :: split sep s'
      else match split sep s' with
           | [] => [String c EmptyString]
           | x :: r => String c x :: r
           end
  end.

(** The number of leading separators. *)
Fixpoint leading (sep : ascii) (s : string) : nat :=
  match s with
  | String c s' => if Ascii.eqb c sep then S (leading sep s') else O
  | EmptyString => O
  end.

(** The root of a path: ["/"], ["//"] for exactly two leading slashes, or
    the empty string for a relative path. *)
Definition root (fpath : string) : string :=
  match leading "/" fpath with
  | O => ""
  | 2%nat => "//"
  | _ => "/"
  end.

(** The components after the root: empty ones and ["."] are dropped. *)
Definition components (fpath : string) : list string :=
  filter (fun x => negb (String.eqb x "") && negb (String.eqb x "."))
         (split "/" fpath).

(** [Path(fpath).parts] *)
Definition parts (fpath : string) : list string :=
  if String.eqb (root fpath) "" then components fpath
  else root fpath :: components fpath.

(** [Path(fpath).name]: the last component, the root not counting. *)
Definition name (fpath : string) : string := last (components fpath) "".

(** [s.rfind(".")] *)
Fixpoint rfind_dot (s : string) : option nat :=
  match s with
  | EmptyString => None
  | String c s' =>
      match rfind_dot s' with
      | Some i => Some (S i)
      | None => if Ascii.eqb c "." then Some O else None
      end
  end.

(** [Path(fpath).stem]: the name without its last suffix; a leading or a
    trailing dot starts no suffix. *)
Definition stem (fpath : string) : string :=
  let n := name fpath in
  match rfind_dot n with
  | Some i =>
      if (0 <? i)%nat && (i <? String.length n - 1)%nat
      then substring 0 i n
      else n
  | None => n
  end.

End Pathlib.

(** [inference_task.get_unique_stem_from_last_k_strs]: [k] is not used. *)
Definition get_unique_stem_from_last_k_strs (fpath : string) (k : Z) : string :=
  let parts := Pathlib.parts fpath in
  let unique_stem :=
    (String.concat "_" (Py.slice parts (-4) (-1)) ++ "_" ++ Pathlib.stem fpath)%string in
  unique_stem.

(** The default of [k] in both modules. *)
Definition default_k : Z := 4.

(** The names of the last [n] parent directories of a path: the last [n]
    of its parts, the final part (the file) not counting. *)
Definition last_parent_dirs (n : nat) (fpath : string) : list string :=
  let parents := removelast (Pathlib.parts fpath) in
  skipn (length parents - n) parents.

(** The string holds a slash. *)
Fixpoint has_slash (s : string) : bool :=
  match s with
  | EmptyString => false
  | String c s' => Ascii.eqb c "/" || has_slash s'
  end.

(* ------------------------------------------------------------------ *)
(** ** [accuracy_calculator] *)

Module Accuracy.

(** [accuracy_calculator.get_unique_stem_from_last_k_strs] *)
Definition get_unique_stem_from_last_k_strs (fpath : string) (k : Z) : string :=
  let parts := Pathlib.parts fpath in
  let concat_kparent_dirs := String.concat "_" (Py.slice parts (- k) (-1)) in
  let unique_stem := (concat_kparent_dirs ++ "_" ++ Pathlib.stem fpath)%string in
  unique_stem.

(** Modelled from the spec: [SegmentationAverageMeter] of
    [mseg_semantic/utils/avg_meter.py], whose state the spec describes as a
    [C x C] matrix of counts indexed [ground truth][prediction]. *)
Definition confusion : Type := list (list Z).

Definition sumZ (l : list Z) : Z := fold_right Z.add 0 l.

Definition count_at (counts : confusion) (i j : nat) : Z := nth j (nth i counts []) 0.

(** True positives, false positives and false negatives of class [k]. *)
Definition TP (counts : confusion) (k : nat) : Z := count_at counts k k.
Definition FP (counts : confusion) (k : nat) : Z :=
  sumZ (map (fun row => nth k row 0) counts) - TP counts k.
Definition FN (counts : confusion) (k : nat) : Z :=
  sumZ (nth k counts []) - TP counts k.

Definition iou_denominator (counts : confusion) (k : nat) : Z :=
  TP counts k + FP counts k + FN counts k.
Definition acc_denominator (counts : confusion) (k : nat) : Z :=
  TP counts k + FN counts k.

Definition classes (counts : confusion) : list nat := seq 0 (length counts).

Definition iou_class (counts : confusion) : list Q :=
  map (fun k => (inject_Z (TP counts k) / inject_Z (iou_denominator counts k))%Q)
      (classes counts).
Definition accuracy_class (counts : confusion) : list Q :=
  map (fun k => (inject_Z (TP counts k) / inject_Z (acc_denominator counts k))%Q)
      (classes counts).

Definition sumQ (l : list Q) : Q := fold_right Qplus 0%Q l.

(** The classes a mean ranges over: those not in [exclude_ids] (when
    [exclude] is set) whose denominator is not zero. *)
Definition counted (denominator : confusion -> nat -> Z) (counts : confusion)
    (exclude : bool) (exclude_ids : list Z) : list nat :=
  filter (fun k =>
            negb (exclude && existsb (Z.eqb (Z.of_nat k)) exclude_ids)
            && negb (denominator counts k =? 0))
         (classes counts).

(** The arithmetic mean of the per-class ratio over the counted classes. *)
Definition mean_metric (denominator : confusion -> nat -> Z) (counts : confusion)
    (exclude : bool) (exclude_ids : list Z) : Q :=
  let ks := counted denominator counts exclude exclude_ids in
  (sumQ (map (fun k => inject_Z (TP counts k) / inject_Z (denominator counts k)) ks)
   / inject_Z (Z.of_nat (length ks)))%Q.

(** The value returned by [get_metrics]. *)
Record metrics : Type := {
  m_iou_class : list Q;
  m_accuracy_class : list Q;
  mIoU : Q;
  mAcc : Q;
  allAcc : Q
}.

(** Modelled from the spec: [SegmentationAverageMeter.get_metrics(exclude,
    exclude_ids)], with the defaults [exclude=False] and no excluded id. *)
Definition get_metrics (counts : confusion) (exclude : bool) (exclude_ids : list Z) : metrics :=
  {| m_iou_class := iou_class counts;
     m_accuracy_class := accuracy_class counts;
     mIoU := mean_metric iou_denominator counts exclude exclude_ids;
     mAcc := mean_metric acc_denominator counts exclude exclude_ids;
     allAcc := (inject_Z (sumZ (map (TP counts) (classes counts)))
                / inject_Z (sumZ (map sumZ counts)))%Q |}.

(** The fields of [AccuracyCalculator] (and of its [args]) read below. *)
Record AccuracyCalculator : Type := {
  num_eval_classes : Z;
  args_taxonomy : string;       (* args.taxonomy *)
  args_dataset : string;        (* args.dataset *)
  args_model_path : string;     (* args.model_path *)
  dataset_name : string;
  class_names : list string;
  save_folder : string;
  render_confusion_matrix : bool;
  sam : confusion;              (* the state of self.sam *)
  excluded_ids : list Z
}.

(** [AccuracyCalculator.__init__]: a fresh meter, and no excluded id. *)
Definition init (taxonomy dataset model_path : string)
    (dataset_name : string) (class_names : list string) (save_folder : string)
    (num_eval_classes : Z) (render_confusion_matrix : bool) : AccuracyCalculator :=
  {| num_eval_classes := num_eval_classes;
     args_taxonomy := taxonomy;
     args_dataset := dataset;
     args_model_path := model_path;
     dataset_name := dataset_name;
     class_names := class_names;
     save_folder := save_folder;
     render_confusion_matrix := render_confusion_matrix;
     sam := full2 num_eval_classes num_eval_classes 0;
     excluded_ids := [] |}.

(** The calculator after [evaluate_predictions] has brought the meter to
    the state [counts]; no other field is assigned after [__init__]. *)
Definition with_sam (self : AccuracyCalculator) (counts : confusion) : AccuracyCalculator :=
  {| num_eval_classes := num_eval_classes self;
     args_taxonomy := args_taxonomy self;
     args_dataset := args_dataset self;
     args_model_path := args_model_path self;
     dataset_name := dataset_name self;
     class_names := class_names self;
     save_folder := save_folder self;
     render_confusion_matrix := render_confusion_matrix self;
     sam := counts;
     excluded_ids := excluded_ids self |}.

(** What a reporting method puts out, one item per logged or written
    line; the numbers are the arguments of the format string. *)
Inductive line : Type :=
| RenderConfusion
| Info (text : string)
| EvalResult (mIoU mAcc allAcc : Q)
| ClassResult (i : Z) (iou accuracy : Q) (name : string).

(** [l[i]], [None] being IndexError. *)
Definition index {A : Type} (l : list A) (i : Z) : option A := Py.get l i.

Definition class_result (self : AccuracyCalculator) (m : metrics) (i : Z) : option line :=
  match index (m_iou_class m) i, index (m_accuracy_class m) i, index (class_names self) i with
  | Some iou, Some acc, Some name => Some (ClassResult i iou acc name)
  | _, _, _ => None
  end.

(** The lines of a loop whose body puts out at most one line and may
    raise. *)
Fixpoint collect (body : Z -> option (list line)) (l : list Z) : option (list line) :=
  match l with
  | [] => Some []
  | i :: t =>
      match body i, collect body t with
      | Some x, Some r => Some (x ++ r)
      | _, _ => None
      end
  end.

Section Calculator.

(** [self.tc.train_datasets] of the taxonomy converter. *)
Variable train_datasets : list string.

(** The call of [get_metrics] made by [print_results]. *)
Definition print_metrics (self : AccuracyCalculator) : metrics :=
  if String.eqb (args_taxonomy self) "universal"
     && existsb (String.eqb (args_dataset self)) train_datasets
  then get_metrics (sam self) true (excluded_ids self)
  else get_metrics (sam self) false [].

(** [AccuracyCalculator.print_results]: the lines logged, [None] being an
    IndexError. *)
Definition print_results (self : AccuracyCalculator) : option (list line) :=
  let m := print_metrics self in
  match
    collect (fun i =>
               if negb (String.eqb (args_taxonomy self) "universal")
               then option_map (fun x => [x]) (class_result self m i)
               else Some [])
            (Py.range (num_eval_classes self))
  with
  | Some per_class =>
      Some ((if render_confusion_matrix self then [RenderConfusion] else [])
            ++ [Info (dataset_name self ++ " " ++ args_model_path self)%string;
                EvalResult (mIoU m) (mAcc m) (allAcc m)]
            ++ per_class)
  | None => None
  end.

(** The call of [get_metrics] made by [dump_acc_results_to_file]. *)
Definition dump_metrics (self : AccuracyCalculator) : metrics :=
  if String.eqb (args_taxonomy self) "universal"
  then get_metrics (sam self) true (excluded_ids self)
  else get_metrics (sam self) false [].

(** [AccuracyCalculator.dump_acc_results_to_file]: the lines written to
    [results.txt]. *)
Definition dump_acc_results_to_file (self : AccuracyCalculator) : option (list line) :=
  let m := dump_metrics self in
  match
    collect (fun i =>
               if String.eqb (args_taxonomy self) "universal"
               then if negb (existsb (Z.eqb i) (excluded_ids self))
                    then option_map (fun x => [x]) (class_result self m i)
                    else Some []
               else option_map (fun x => [x]) (class_result self m i))
            (Py.range (num_eval_classes self))
  with
  | Some per_class => Some (EvalResult (mIoU m) (mAcc m) (allAcc m) :: per_class)
  | None => None
  end.

(** [AccuracyCalculator.convert_label_to_pred_taxonomy].  The module
    neither defines nor imports [ToFlatLabel], so the first branch stops
    with a NameError before [transform_label] is reached. *)
Definition convert_label_to_pred_taxonomy (self : AccuracyCalculator)
    (target_img : list (list Z)) : list (list Z) + exn :=
  if String.eqb (args_taxonomy self) "universal"
  then inr (NameError "ToFlatLabel")
  else inl target_img.

End Calculator.

(** [s.startswith(p)] *)
Fixpoint startswith (p s : string) : bool :=
  match p, s with
  | EmptyString, _ => true
  | String a p', String b s' => Ascii.eqb a b && startswith p' s'
  | String _ _, EmptyString => false
  end.

(** [s.endswith("/")] *)
Definition endswith_slash (s : string) : bool :=
  match rev (list_ascii_of_string s) with
  | c :: _ => Ascii.eqb c "/"
  | [] => false
  end.

(** [os.path.join(a, b)] of [posixpath]. *)
Definition path_join (a b : string) : string :=
  if startswith "/" b then b
  else if String.eqb a "" || endswith_slash a then (a ++ b)%string
  else (a ++ "/" ++ b)%string.

(** [s.replace(old, new)] for a non-empty [old]: the occurrences of [old]
    are found from the left and do not overlap; [skip] characters of an
    occurrence found remain to be dropped. *)
Fixpoint replace_from (old new : string) (skip : nat) (s : string) : string :=
  match s with
  | EmptyString => EmptyString
  | String c s' =>
      match skip with
      | S k => replace_from old new k s'
      | O =>
          if startswith old s
          then (new ++ replace_from old new (String.length old - 1) s')%string
          else String c (replace_from old new 0 s')
      end
  end.

Definition replace (old new s : string) : string := replace_from old new 0 s.

(** [self.gray_folder], set by [__init__]. *)
Definition gray_folder (self : AccuracyCalculator) : string :=
  path_join (save_folder self) "gray".

(** The fields of [AccuracyCalculator] (and of its [args]) that only
    [evaluate_predictions] reads. *)
Record EvaluationInputs : Type := {
  data_list : list (string * string);   (* (image_path, target_path) *)
  args_vis_freq : Z;                    (* args.vis_freq *)
  args_img_name_unique : bool           (* args.img_name_unique *)
}.

(** What [evaluate_predictions] puts out: a progress line of the logger,
    with the state of the meter its accuracy is read from, and a call of
    [save_pred_vs_label_7tuple]. *)
Inductive eval_event : Type :=
| LogProgress (i n : Z) (file : string) (counts : confusion)
| SaveVis (image_path : string) (pred : option (list (list Z)))
          (target_img : list (list Z)) (grid_save_fpath : string).

Definition is_progress (e : eval_event) : bool :=
  match e with LogProgress _ _ _ _ => true | SaveVis _ _ _ _ => false end.
Definition is_save_vis (e : eval_event) : bool :=
  match e with SaveVis _ _ _ _ => true | LogProgress _ _ _ _ => false end.

(** The exceptions of an evaluation: those of the module, and the one of
    [imageio.imread] on a label file that cannot be read. *)
Inductive eval_exn : Type :=
| Raised (e : exn)
| ReadError (path : string).

(** The state an evaluation works on: the meter [self.sam], and what has
    been put out so far. *)
Definition eval_state : Type := (confusion * list eval_event)%type.

Section Evaluation.

(** [cv2.imread(path, cv2.IMREAD_GRAYSCALE)], which returns [None] for a
    file that cannot be read. *)
Variable cv2_imread : string -> option (list (list Z)).
(** [imageio.imread(path).astype(np.int64)]; [None] when it raises. *)
Variable imageio_imread : string -> option (list (list Z)).
(** [self.sam.update_metrics_cpu(pred, target, num_classes)], as a function
    of the state of the meter. *)
Variable update_metrics_cpu :
  confusion -> option (list (list Z)) -> list (list Z) -> Z -> confusion.
(** [self.tc.train_datasets] of the taxonomy converter. *)
Variable train_datasets : list string.

(** The name under which the prediction of an image is looked up. *)
Definition image_name_of (inputs : EvaluationInputs) (image_path : string) : string :=
  if args_img_name_unique inputs
  then Pathlib.stem image_path
  else get_unique_stem_from_last_k_strs image_path default_k.

(** The body of the loop of [evaluate_predictions], for the entry of index
    [i]. *)
Definition evaluate_step (self : AccuracyCalculator) (inputs : EvaluationInputs)
    (save_vis : bool) (i : Z) (entry : string * string) (st : eval_state)
  : (unit + eval_exn) * eval_state :=
  let '(counts, out) := st in
  let pred_folder := gray_folder self in
  let '(image_path, target_path) := entry in
  let image_name := image_name_of inputs image_path in
  let pred := cv2_imread (path_join pred_folder (image_name ++ ".png")) in
  match imageio_imread target_path with
  | None => (inr (ReadError target_path), (counts, out))
  | Some target_img =>
      match convert_label_to_pred_taxonomy self target_img with
      | inr e => (inr (Raised e), (counts, out))
      | inl target_img =>
          let counts := update_metrics_cpu counts pred target_img (num_eval_classes self) in
          if args_vis_freq inputs =? 0
          then (inr (Raised ZeroDivisionError), (counts, out))
          else
            let due := (i + 1) mod args_vis_freq inputs =? 0 in
            let out :=
              if due
              then out ++ [LogProgress (i + 1) (Z.of_nat (length (data_list inputs)))
                             (image_name ++ ".png") counts]
              else out in
            let out :=
              if save_vis && due
              then
                let mask_save_dir := replace "gray" "rgb_mask_predictions" pred_folder in
                let grid_save_fpath := (mask_save_dir ++ "/" ++ image_name ++ ".png")%string in
                out ++ [SaveVis image_path pred target_img grid_save_fpath]
              else out in
            (inl tt, (counts, out))
      end
  end.

(** The loop over [enumerate(self.data_list)], from the index [i] on. *)
Fixpoint evaluate_loop (self : AccuracyCalculator) (inputs : EvaluationInputs)
    (save_vis : bool) (i : Z) (pairs : list (string * string)) (st : eval_state)
  : (unit + eval_exn) * eval_state :=
  match pairs with
  | [] => (inl tt, st)
  | entry :: rest =>
      match evaluate_step self inputs save_vis i entry st with
      | (inl _, st') => evaluate_loop self inputs save_vis (i + 1) rest st'
      | (inr e, st') => (inr e, st')
      end
  end.

(** [AccuracyCalculator.evaluate_predictions] *)
Definition evaluate_predictions (self : AccuracyCalculator) (inputs : EvaluationInputs)
    (save_vis : bool) (out : list eval_event) : (unit + eval_exn) * eval_state :=
  evaluate_loop self inputs save_vis 0 (data_list inputs) (sam self, out).

(** What a completed [execute] has put out: the events of the evaluation,
    the lines logged by [print_results] and the lines written to
    [results.txt]. *)
Record report : Type := {
  evaluation : list eval_event;
  logged : list line;
  written : list line
}.

(** [AccuracyCalculator.execute]: the result, and the meter at the end.
    An exception ends the run; what had been put out before it is not
    kept in the result. *)
Definition execute (self : AccuracyCalculator) (inputs : EvaluationInputs)
    (save_vis : bool) : (report + eval_exn) * confusion :=
  match evaluate_predictions self inputs save_vis [] with
  | (inr e, (counts, _)) => (inr e, counts)
  | (inl _, (counts, out)) =>
      let self := with_sam self counts in
      match print_results train_datasets self with
      | None => (inr (Raised IndexError), counts)
      | Some logged =>
          match dump_acc_results_to_file self with
          | None => (inr (Raised IndexError), counts)
          | Some written =>
              (inl {| evaluation := out; logged := logged; written := written |}, counts)
          end
      end
  end.

End Evaluation.

End Accuracy.

(* ------------------------------------------------------------------ *)
(** ** Concrete inputs *)

(** A task with 2x2 crops and two classes, in the universal taxonomy. *)
Definition stub_task : InferenceTask :=
  {| pred_dim := 2; base_size := 2; crop_h := 2; crop_w := 2;
     output_taxonomy := "universal"; scales := [1%Q];
     args_universal := true; args_dataset := "" |}.

(** A 3x2 image of two channels. *)
Definition stub_image : image :=
  [[[1%R; 2%R]; [3%R; 4%R]]; [[5%R; 6%R]; [7%R; 8%R]]; [[9%R; 10%R]; [11%R; 12%R]]].


(** An evaluation in the universal taxonomy of a dataset the taxonomy
    converter was not trained on, and a confusion matrix for it. *)
Definition stub_train_datasets : list string :=
  ["ade20k-150"%string; "coco-panoptic-133"%string].

Definition stub_calculator : Accuracy.AccuracyCalculator :=
  Accuracy.with_sam
    (Accuracy.init "universal" "camvid-11" "mseg-3m.pth" "camvid-11"
       ["sky"%string; "road"%string] "out" 2 false)
    [[3; 1]; [0; 2]].

(** The same evaluation in the taxonomy of the test dataset. *)
Definition stub_calculator_test : Accuracy.AccuracyCalculator :=
  Accuracy.with_sam
    (Accuracy.init "test_dataset" "camvid-11" "mseg-3m.pth" "camvid-11"
       ["sky"%string; "road"%string] "out" 2 false)
    [[3; 1]; [0; 2]].

(** The same task with an output taxonomy that is not a recognised one. *)
Definition bad_task : InferenceTask :=
  {| pred_dim := 2; base_size := 2; crop_h := 2; crop_w := 2;
     output_taxonomy := "dataset"; scales := [1%Q];
     args_universal := true; args_dataset := "" |}.

(** A crop of one row of two pixels, of two channels. *)
Definition two_pixel_crop : image := [[[0%R; 0%R]; [1%R; 0%R]]].

(** One score map of a single pixel and 257 classes, the last class having
    the highest score. *)
Definition wide_pixel : pixel := repeat 0%R 256 ++ [1%R].
Definition wide_score_map : image := [[wide_pixel]].

(** The score maps of two scales for an image of one row of two pixels and
    two classes. *)
Definition stub_score_maps : list image :=
  [[[[1%R; 3%R]; [2%R; 2%R]]]; [[[1%R; 1%R]; [4%R; 0%R]]]].

(** A task with 4x4 crops and one class, in the universal taxonomy. *)
Definition crop4_task : InferenceTask :=
  {| pred_dim := 1; base_size := 8; crop_h := 4; crop_w := 4;
     output_taxonomy := "universal"; scales := [1%Q];
     args_universal := true; args_dataset := "" |}.

(** An 8x8 image of one channel. *)
Definition image_8x8 : image := full2 8 8 [0%R].

(** The binary32 numbers 1 and [2^-60]. *)
Definition one32 : SpecFloat.spec_float := SpecFloat.S754_finite false 8388608 (-23).
Definition tiny32 : SpecFloat.spec_float := SpecFloat.S754_finite false 8388608 (-83).

(** The score maps of two scales for an image of one pixel and two
    classes, in binary32 and in real numbers: [1, 1] and [0, 2^-60]. *)
Definition close_score_maps32 : list (Numeric.score_map Numeric.binary32) :=
  [[[[one32; one32]]]; [[[SpecFloat.S754_zero false; tiny32]]]].
Definition close_score_maps : list image :=
  [[[[1%R; 1%R]]]; [[[0%R; (/ 2 ^ 60)%R]]]].

(** The score map [wide_score_map] in binary32. *)
Definition wide_score_map32 : Numeric.score_map Numeric.binary32 :=
  [[repeat (SpecFloat.S754_zero false) 256 ++ [one32]]].

(** Three images to evaluate, with a progress line every two images. *)
Definition stub_inputs : Accuracy.EvaluationInputs :=
  {| Accuracy.data_list :=
       [("camvid/seq01/images/0001.jpg"%string, "camvid/seq01/labels/0001.png"%string);
        ("camvid/seq01/images/0002.jpg"%string, "camvid/seq01/labels/0002.png"%string);
        ("camvid/seq02/images/0001.jpg"%string, "camvid/seq02/labels/0001.png"%string)];
     Accuracy.args_vis_freq := 2;
     Accuracy.args_img_name_unique := false |}.

(** The same images, with [args.vis_freq = 0]. *)
Definition stub_inputs_zero_freq : Accuracy.EvaluationInputs :=
  {| Accuracy.data_list := Accuracy.data_list stub_inputs;
     Accuracy.args_vis_freq := 0;
     Accuracy.args_img_name_unique := false |}.

(** A meter that counts, per ground-truth class of the first pixel of the
    label image, the images seen. *)
Definition stub_update_metrics_cpu (counts : Accuracy.confusion)
    (pred : option (list (list Z))) (target : list (list Z)) (num_classes : Z)
  : Accuracy.confusion :=
  Py.map_from
    (fun i row => if i =? nth 0 (nth 0 target []) 0 then map (Z.add 1) row else row)
    0 counts.

(* ================================================================== *)
(** * Properties *)

(* ------------------------------------------------------------------ *)
(** ** Strides and grid *)

Lemma Qceiling_div (a b : Z) :
  Qceiling (inject_Z a / inject_Z b) = ceil_div a b.
Proof.
  unfold Qceiling, ceil_div. f_equal.
  rewrite Zdiv_Qdiv. apply Qfloor_comp.
  rewrite inject_Z_opp. unfold Qdiv. ring.
Qed.

Lemma ceil_div_pos_spec (a b : Z) :
  0 < b -> (ceil_div a b - 1) * b < a <= ceil_div a b * b.
Proof.
  intros Hb. unfold ceil_div.
  pose proof (Z.div_mod (- a) b ltac:(lia)) as E.
  pose proof (Z.mod_pos_bound (- a) b Hb) as B.
  nia.
Qed.




(** The exact stride and grid against those of the binary64 computation:
    they agree at the default stride rate for every crop size below 1024,
    at the rate 0.5 for the crop size 4, and for every difference below
    256 between the padded size and the crop size with every stride up to
    32; at the rate 0.07 and the crop size 100 the binary64 stride is 8,
    the binary64 0.07 being above 7/100, and the exact one is 7. *)
Example stride_of_binary64_default :
  forallb (fun crop =>
             Float64.agree (Float64.stride_of crop Float64.default_stride_rate)
                           (Some (stride_of crop default_stride_rate)))
          (Py.range 1024) = true.
Proof. vm_compute. reflexivity. Qed.

Example stride_of_binary64_half :
  Float64.stride_of 4 Float64.half = inl (stride_of 4 (1 # 2)).
Proof. vm_compute. reflexivity. Qed.

Example grid_of_binary64 :
  forallb (fun d =>
             forallb (fun stride =>
                        Float64.agree (Float64.grid_of d 0 stride) (grid_of d 0 stride))
                     (Py.range 33))
          (Py.range 256) = true.
Proof. vm_compute. reflexivity. Qed.

Example stride_of_binary64_above_exact :
  Float64.stride_of 100 Float64.seven_hundredths = inl 8
  /\ stride_of 100 (7 # 100) = 7.
Proof. split; vm_compute; reflexivity. Qed.

(** The product of the crop size and the stride rate is rounded before its
    ceiling is taken: for the crop size 3 and the binary64 next above 1/3
    the product is 1 in binary64 and the stride is 1, the product of the
    two values being above 1. *)
Example stride_of_binary64_rounded_product :
  Float64.stride_of 3 Float64.third_above = inl 1
  /\ Float64.value Float64.third_above = Some (6004799503160662 # 18014398509481984)
  /\ Qceiling (3 * (6004799503160662 # 18014398509481984)) = 2.
Proof. repeat split; vm_compute; reflexivity. Qed.

(* ------------------------------------------------------------------ *)
(** ** The coverage buffer *)




Lemma norm_index_id (len i : Z) : 0 <= i <= len -> Py.norm_index len i = i.
Proof. intros H. unfold Py.norm_index. destruct (Z.ltb_spec i 0); lia. Qed.









(* ------------------------------------------------------------------ *)
(** ** Tiles, padding and slices *)

Lemma in_range (n x : Z) : In x (Py.range n) <-> 0 <= x < n.
Proof.
  unfold Py.range. rewrite in_map_iff. split.
  - intros (k & <- & Hk). apply in_seq in Hk. lia.
  - intros H. exists (Z.to_nat x). split; [lia | ]. apply in_seq. lia.
Qed.


Lemma grid_of_spec (new crop stride : Z) :
  grid_of new crop stride =
  if stride =? 0 then None else Some (ceil_div (new - crop) stride + 1).
Proof. unfold grid_of. rewrite Qceiling_div. reflexivity. Qed.



(** Half of a non-negative padding, as [int(pad / 2)] computes it. *)
Lemma py_int_half (pad : Z) :
  0 <= pad -> 0 <= Py.int (inject_Z pad / 2) <= pad.
Proof.
  intros H. unfold Py.int.
  assert (Hq : Qle_bool 0 (inject_Z pad / 2) = true).
  { apply Qle_bool_iff. unfold Qle, Qdiv, Qmult, Qinv, inject_Z. simpl. lia. }
  rewrite Hq. change 2%Q with (inject_Z 2). rewrite <- Zdiv_Qdiv.
  split; [apply Z.div_pos; lia | apply Z.div_le_upper_bound; lia].
Qed.

Lemma pad_to_crop_sz_height {A} (img : list (list A)) (crop_h crop_w : Z) (mean : A) :
  height (fst (fst (pad_to_crop_sz img crop_h crop_w mean))) = Z.max (height img) crop_h.
Proof.
  unfold pad_to_crop_sz. cbn [fst].
  set (pad_h := Z.max (crop_h - height img) 0).
  set (pad_w := Z.max (crop_w - width img) 0).
  assert (Hq : 0 <= Py.int (inject_Z pad_h / 2) <= pad_h)
    by (apply py_int_half; lia).
  destruct ((0 <? pad_h) || (0 <? pad_w)) eqn:E.
  - unfold copyMakeBorder, height. rewrite !length_app, !repeat_length, length_map.
    unfold height in *. lia.
  - apply orb_false_iff in E. destruct E as [E _]. apply Z.ltb_ge in E.
    unfold height in *. lia.
Qed.

Lemma pad_to_crop_sz_width {A} (img : list (list A)) (crop_h crop_w : Z) (mean : A) :
  1 <= crop_h ->
  width (fst (fst (pad_to_crop_sz img crop_h crop_w mean))) = Z.max (width img) crop_w.
Proof.
  intros Hc. unfold pad_to_crop_sz. cbn [fst].
  set (pad_h := Z.max (crop_h - height img) 0).
  set (pad_w := Z.max (crop_w - width img) 0).
  assert (Hq : 0 <= Py.int (inject_Z pad_w / 2) <= pad_w)
    by (apply py_int_half; lia).
  assert (Hqh : 0 <= Py.int (inject_Z pad_h / 2) <= pad_h)
    by (apply py_int_half; lia).
  destruct ((0 <? pad_h) || (0 <? pad_w)) eqn:E.
  - unfold copyMakeBorder, width at 1.
    destruct (Z.to_nat (Py.int (inject_Z pad_h / 2))) as [ | n] eqn:En.
    + cbn [repeat app]. destruct img as [ | row img].
      * (* an empty image: the bottom border is not empty *)
        cbn [map app]. unfold height in pad_h. cbn [length] in pad_h.
        assert (pad_h = crop_h) by lia.
        destruct (Z.to_nat (pad_h - Py.int (inject_Z pad_h / 2))) as [ | m] eqn:Em; [lia | ].
        cbn [repeat hd]. rewrite repeat_length. unfold width in *. simpl in *. lia.
      * cbn [map app hd]. rewrite !length_app, !repeat_length.
        unfold width in *. cbn [hd] in *. lia.
    + cbn [repeat app hd]. rewrite repeat_length. unfold width in *. lia.
  - apply orb_false_iff in E. destruct E as [_ E]. apply Z.ltb_ge in E. lia.
Qed.

Lemma pad_to_crop_sz_shaped {A} (img : list (list A)) (crop_h crop_w : Z) (mean : A) :
  1 <= crop_h ->
  shaped (height img) (width img) img ->
  let padded := fst (fst (pad_to_crop_sz img crop_h crop_w mean)) in
  shaped (height padded) (width padded) padded.
Proof.
  intros Hc [_ Hw] padded. split; [reflexivity | ].
  subst padded. rewrite pad_to_crop_sz_width by assumption.
  unfold pad_to_crop_sz. cbn [fst].
  set (pad_h := Z.max (crop_h - height img) 0).
  set (pad_w := Z.max (crop_w - width img) 0).
  assert (Hq : 0 <= Py.int (inject_Z pad_w / 2) <= pad_w)
    by (apply py_int_half; lia).
  destruct ((0 <? pad_h) || (0 <? pad_w)) eqn:E.
  - unfold copyMakeBorder. rewrite !Forall_app. repeat split.
    + apply Forall_forall. intros r Hr. apply repeat_spec in Hr. subst r.
      rewrite repeat_length. unfold width in *. lia.
    + apply Forall_forall. intros r Hr. apply in_map_iff in Hr.
      destruct Hr as (r0 & <- & Hr0). rewrite Forall_forall in Hw.
      specialize (Hw r0 Hr0). rewrite !length_app, !repeat_length.
      unfold width in *. lia.
    + apply Forall_forall. intros r Hr. apply repeat_spec in Hr. subst r.
      rewrite repeat_length. unfold width in *. lia.
  - apply orb_false_iff in E. destruct E as [_ E]. apply Z.ltb_ge in E.
    replace (Z.max (width img) crop_w) with (width img) by lia. assumption.
Qed.


Lemma slice_incl {A} (l : list A) (s e : Z) (x : A) : In x (Py.slice l s e) -> In x l.
Proof.
  unfold Py.slice. intros H.
  set (n := Z.to_nat (Py.norm_index (Z.of_nat (length l)) s)) in *.
  rewrite <- (firstn_skipn n l). apply in_or_app. right.
  set (m := Z.to_nat (Py.norm_index (Z.of_nat (length l)) e
                      - Py.norm_index (Z.of_nat (length l)) s)) in *.
  rewrite <- (firstn_skipn m (skipn n l)). apply in_or_app. left. assumption.
Qed.


(* ------------------------------------------------------------------ *)
(** ** Claims on the tile grid *)



(* ------------------------------------------------------------------ *)
(** ** Coverage *)

Lemma tile_loop_count (net : image -> M tensor3) (img : image) (ts : list tile)
    (pred : tensor3) (cnt : list (list Z)) (tr : trace)
    (pred' : tensor3) (cnt' : list (list Z)) (tr' : trace) :
  foldM (tile_step net img) ts (pred, cnt) tr = (inl (pred', cnt'), tr') ->
  cnt' = count_tiles cnt ts.
Proof.
  revert pred cnt tr. induction ts as [ | t ts IH]; intros pred cnt tr H.
  - cbn in H. unfold ret in H. injection H as _ <- _. reflexivity.
  - cbn [foldM] in H. unfold bind at 1 in H.
    destruct (tile_step net img (pred, cnt) t tr) as [[[p1 c1] | e] tr1] eqn:E;
      [ | discriminate].
    apply IH in H. subst cnt'. cbn [count_tiles fold_left]. f_equal.
    unfold tile_step, bind in E.
    destruct (net _ tr) as [[out | e] tr0]; [ | discriminate].
    destruct (iadd_region pred t out) as [p | ]; cbn in E; [ | discriminate].
    unfold ret in E. injection E as _ <- _. reflexivity.
Qed.

Section InferenceProperties.

Variable model : tensor4 -> tensor4.
Variable normalize_img : tensor3 -> tensor3.
Variable mean : pixel.
Variable transform_predictions_test : tensor4 -> string -> tensor4.
Variable transform_predictions_universal : tensor4 -> string -> tensor4.


End InferenceProperties.

Ltac run_scores :=
  cbv -[exp Rplus Rmult Rinv Rdiv Rminus Ropp IZR INR]; reflexivity.



Lemma stub_image_shaped : shaped 3 2 stub_image.
Proof. split; [reflexivity | repeat constructor]. Defined.



(* ------------------------------------------------------------------ *)
(** ** Unique keys, label conversion and the two reports *)

(** [l[-4:-1]] is the last three elements of [l] without its last one. *)
Lemma slice_last_three_before_last {A : Type} (l : list A) :
  Py.slice l (-4) (-1) = skipn (length (removelast l) - 3) (removelast l).
Proof.
  unfold Py.slice. rewrite removelast_firstn_len.
  rewrite skipn_firstn_comm, length_firstn.
  unfold Py.norm_index. cbn [Z.ltb Z.compare].
  set (n := length l).
  replace (Z.to_nat (Z.max (-4 + Z.of_nat n) 0)) with (Nat.min (Nat.pred n) n - 3)%nat by lia.
  f_equal. lia.
Qed.

(** C8.  For every file path, the unique key is made of the names of the
    last 3 parent directories and of the stem of the file, an
    underscore standing between the parents and before the stem.  This
    is what [accuracy_calculator] computes for the default [k = 4], and
    what [inference_task] computes whatever [k] is. *)
Theorem unique_stem_last_three_parents (fpath : string) :
  Accuracy.get_unique_stem_from_last_k_strs fpath default_k
  = (String.concat "_" (last_parent_dirs 3 fpath) ++ "_" ++ Pathlib.stem fpath)%string
  /\ forall k : Z,
      get_unique_stem_from_last_k_strs fpath k
      = (String.concat "_" (last_parent_dirs 3 fpath) ++ "_" ++ Pathlib.stem fpath)%string.
Proof.
  unfold Accuracy.get_unique_stem_from_last_k_strs, get_unique_stem_from_last_k_strs,
    last_parent_dirs, default_k.
  change (- 4) with (-4).
  split; [ | intros k]; rewrite slice_last_three_before_last; reflexivity.
Qed.

Example unique_stem_scannet :
  Accuracy.get_unique_stem_from_last_k_strs
    "/data/scannet/scene0000_00/color/000100.jpg" default_k
  = "scannet_scene0000_00_color_000100"%string.
Proof. reflexivity. Qed.

(** C10.  When the configured taxonomy is not ['universal'],
    [convert_label_to_pred_taxonomy] returns the ground-truth label image
    unchanged. *)
Theorem convert_label_identity (self : Accuracy.AccuracyCalculator)
    (target_img : list (list Z)) :
  Accuracy.args_taxonomy self <> "universal"%string ->
  Accuracy.convert_label_to_pred_taxonomy self target_img = inl target_img.
Proof.
  intros H. unfold Accuracy.convert_label_to_pred_taxonomy.
  destruct (String.eqb_spec (Accuracy.args_taxonomy self) "universal") as [E | _];
    [contradiction | reflexivity].
Qed.

Lemma convert_label_identity_witness :
  Accuracy.args_taxonomy stub_calculator_test <> "universal"%string /\
  Accuracy.convert_label_to_pred_taxonomy stub_calculator_test [[0; 255]; [7; 1]]
  = inl [[0; 255]; [7; 1]].
Proof.
  assert (H : Accuracy.args_taxonomy stub_calculator_test <> "universal"%string)
    by (simpl; discriminate).
  split; [exact H | ].
  apply (convert_label_identity stub_calculator_test [[0; 255]; [7; 1]] H).
Defined.

Lemma collect_nothing (l : list Z) : Accuracy.collect (fun _ => Some []) l = Some [].
Proof. induction l as [ | i l IH]; simpl; [ | rewrite IH]; reflexivity. Qed.

(** With no excluded id, asking for the exclusion changes no metric. *)
Lemma get_metrics_no_excluded_id (counts : Accuracy.confusion) :
  Accuracy.get_metrics counts true [] = Accuracy.get_metrics counts false [].
Proof. reflexivity. Qed.

(** C7 (amended).  In the universal taxonomy, for a dataset that is not
    among the train datasets of the taxonomy converter, [print_results]
    calls [get_metrics] without exclusion and [dump_acc_results_to_file]
    calls it with [exclude=True] and the list [excluded_ids]; that list
    being empty since [__init__], both calls return the same metrics, so
    the two paths report the same mIoU, mAcc and allAcc.  The reports
    differ in the per-class lines only: the print path logs none, the dump
    path writes one for every class. *)
Theorem print_and_dump_paths (train_datasets : list string)
    (dataset model_path dataset_name save_folder : string) (class_names : list string)
    (num_eval_classes : Z) (render : bool) (counts : Accuracy.confusion) :
  let self :=
    Accuracy.with_sam
      (Accuracy.init "universal" dataset model_path dataset_name class_names
         save_folder num_eval_classes render)
      counts in
  existsb (String.eqb dataset) train_datasets = false ->
  Accuracy.print_metrics train_datasets self = Accuracy.get_metrics counts false [] /\
  Accuracy.dump_metrics self = Accuracy.get_metrics counts true (Accuracy.excluded_ids self) /\
  Accuracy.excluded_ids self = [] /\
  Accuracy.print_metrics train_datasets self = Accuracy.dump_metrics self /\
  Accuracy.print_results train_datasets self
  = Some ((if render then [Accuracy.RenderConfusion] else [])
          ++ [Accuracy.Info (dataset_name ++ " " ++ model_path)%string;
              Accuracy.EvalResult (Accuracy.mIoU (Accuracy.get_metrics counts false []))
                (Accuracy.mAcc (Accuracy.get_metrics counts false []))
                (Accuracy.allAcc (Accuracy.get_metrics counts false []))]) /\
  Accuracy.dump_acc_results_to_file self
  = match
      Accuracy.collect
        (fun i => option_map (fun x => [x])
                    (Accuracy.class_result self (Accuracy.get_metrics counts false []) i))
        (Py.range num_eval_classes)
    with
    | Some per_class =>
        Some (Accuracy.EvalResult (Accuracy.mIoU (Accuracy.get_metrics counts false []))
                (Accuracy.mAcc (Accuracy.get_metrics counts false []))
                (Accuracy.allAcc (Accuracy.get_metrics counts false []))
              :: per_class)
    | None => None
    end.
Proof.
  intros self Hnot.
  assert (Hp : Accuracy.print_metrics train_datasets self
               = Accuracy.get_metrics counts false []).
  { unfold Accuracy.print_metrics. cbn [Accuracy.args_taxonomy Accuracy.args_dataset
      Accuracy.with_sam Accuracy.init self]. rewrite Hnot. reflexivity. }
  assert (Hd : Accuracy.dump_metrics self = Accuracy.get_metrics counts false []) by reflexivity.
  split; [exact Hp | ].
  split; [reflexivity | ].
  split; [reflexivity | ].
  split; [rewrite Hp, Hd; reflexivity | ].
  split.
  - unfold Accuracy.print_results. rewrite Hp.
    cbn [Accuracy.args_taxonomy Accuracy.with_sam Accuracy.init self String.eqb
         Ascii.eqb Bool.eqb negb].
    rewrite collect_nothing. rewrite app_nil_r. reflexivity.
  - unfold Accuracy.dump_acc_results_to_file. rewrite Hd.
    cbn [Accuracy.args_taxonomy Accuracy.with_sam Accuracy.init self String.eqb
         Ascii.eqb Bool.eqb negb Accuracy.excluded_ids existsb Accuracy.num_eval_classes].
    reflexivity.
Qed.

Lemma print_and_dump_paths_witness :
  existsb (String.eqb "camvid-11") stub_train_datasets = false /\
  Accuracy.print_metrics stub_train_datasets stub_calculator
  = Accuracy.dump_metrics stub_calculator /\
  Accuracy.print_metrics stub_train_datasets stub_calculator
  = Accuracy.get_metrics [[3; 1]; [0; 2]] false [].
Proof.
  assert (H : existsb (String.eqb "camvid-11") stub_train_datasets = false)
    by reflexivity.
  split; [exact H | ].
  pose proof (print_and_dump_paths stub_train_datasets "camvid-11" "mseg-3m.pth"
                "camvid-11" "out" ["sky"%string; "road"%string] 2 false
                [[3; 1]; [0; 2]] H) as P.
  cbv zeta in P. destruct P as (P1 & _ & _ & P4 & _).
  split; [exact P4 | exact P1].
Defined.

(** C7 as stated fails: no evaluation set up by [__init__] in the
    universal taxonomy, whatever the dataset and the state of the meter,
    makes the print path and the dump path report different summary
    metrics. *)
Lemma print_and_dump_never_differ :
  ~ exists (train_datasets : list string)
           (dataset model_path dataset_name save_folder : string)
           (class_names : list string) (num_eval_classes : Z) (render : bool)
           (counts : Accuracy.confusion),
      let self :=
        Accuracy.with_sam
          (Accuracy.init "universal" dataset model_path dataset_name class_names
             save_folder num_eval_classes render)
          counts in
      existsb (String.eqb dataset) train_datasets = false /\
      (Accuracy.mIoU (Accuracy.print_metrics train_datasets self),
       Accuracy.mAcc (Accuracy.print_metrics train_datasets self),
       Accuracy.allAcc (Accuracy.print_metrics train_datasets self))
      <> (Accuracy.mIoU (Accuracy.dump_metrics self),
          Accuracy.mAcc (Accuracy.dump_metrics self),
          Accuracy.allAcc (Accuracy.dump_metrics self)).
Proof.
  intros (train & dataset & model_path & dataset_name & save_folder & class_names
          & n & render & counts & Hnot & Hdiff).
  apply Hdiff. unfold Accuracy.print_metrics.
  cbn [Accuracy.args_taxonomy Accuracy.args_dataset Accuracy.with_sam Accuracy.init].
  rewrite Hnot. reflexivity.
Qed.

(* ------------------------------------------------------------------ *)
(** ** The taxonomy test of net_process *)

(** C2 (amended).  For every configuration whose output taxonomy is
    neither ['universal'] nor ['test_dataset'], [net_process] never returns
    scores: it prints the message and leaves through [quit()].  The test
    comes after the forward pass of the network on the crop (whose output
    has the spatial size of the crop), not before the inference begins;
    there is no fallback to a default mode. *)
Theorem unrecognized_taxonomy_quits
    (model : tensor4 -> tensor4) (normalize_img : tensor3 -> tensor3)
    (transform_predictions_test transform_predictions_universal : tensor4 -> string -> tensor4)
    (self : InferenceTask) (img : image) (flip : bool) (tr : trace) :
  output_taxonomy self <> "universal"%string ->
  output_taxonomy self <> "test_dataset"%string ->
  shape_hw (model (net_input normalize_img img flip))
  = shape_hw (net_input normalize_img img flip) ->
  net_process model normalize_img transform_predictions_test
    transform_predictions_universal self img flip tr
  = (inr SystemExit,
     tr ++ [EvForward (net_input normalize_img img flip);
            EvPrint "Unrecognized output taxonomy. Quitting...."]).
Proof.
  intros Hu Ht Hshape. unfold net_process.
  change (if flip
          then [normalize_img (transpose_2_0_1 img)]
               ++ flip_w4 [normalize_img (transpose_2_0_1 img)]
          else [normalize_img (transpose_2_0_1 img)])
    with (net_input normalize_img img flip).
  set (input := net_input normalize_img img flip) in *.
  unfold bind at 1. unfold emit. rewrite Hshape.
  destruct (shape_hw input) as [h_i w_i].
  rewrite !Z.eqb_refl. cbn [negb orb].
  unfold bind at 1. unfold ret at 1.
  destruct (String.eqb_spec (output_taxonomy self) "universal"); [contradiction | ].
  destruct (String.eqb_spec (output_taxonomy self) "test_dataset"); [contradiction | ].
  unfold bind, raise. cbn. rewrite <- app_assoc. reflexivity.
Qed.

Lemma unrecognized_taxonomy_quits_witness :
  output_taxonomy bad_task <> "universal"%string /\
  output_taxonomy bad_task <> "test_dataset"%string /\
  net_process (fun b => b) (fun t => t) (fun t _ => t) (fun t _ => t)
    bad_task stub_image true []
  = (inr SystemExit,
     [EvForward (net_input (fun t => t) stub_image true);
      EvPrint "Unrecognized output taxonomy. Quitting...."]).
Proof.
  assert (Hu : output_taxonomy bad_task <> "universal"%string) by (simpl; discriminate).
  assert (Ht : output_taxonomy bad_task <> "test_dataset"%string) by (simpl; discriminate).
  split; [exact Hu | split; [exact Ht | ]].
  apply (unrecognized_taxonomy_quits (fun b => b) (fun t => t) (fun t _ => t)
           (fun t _ => t) bad_task stub_image true [] Hu Ht).
  reflexivity.
Defined.

(** C2 as stated fails: on the 3x2 image, with an unrecognised taxonomy,
    [execute_on_img] leaves through [quit()] only after a forward pass of
    the network on the first crop. *)
Lemma forward_pass_precedes_quit :
  exists input,
    execute_on_img (fun b => b) (fun t => t) [0%R; 0%R] (fun t _ => t) (fun t _ => t)
      (fun a _ _ => a) bad_task stub_image []
    = (inr SystemExit,
       [EvForward input; EvPrint "Unrecognized output taxonomy. Quitting...."]).
Proof. eexists. run_scores. Qed.

(* ------------------------------------------------------------------ *)
(** ** Tensors of one shape *)

Lemma zip_with_length {A B C} (f : A -> B -> C) (a : list A) (b : list B) :
  length a = length b -> length (zip_with f a b) = length a.
Proof.
  intros H. unfold zip_with. rewrite length_map, length_combine. lia.
Qed.

Lemma zip_with_cons {A B C} (f : A -> B -> C) x y (a : list A) (b : list B) :
  zip_with f (x :: a) (y :: b) = f x y :: zip_with f a b.
Proof. reflexivity. Qed.

Lemma zip_with_app {A B C} (f : A -> B -> C) (a1 a2 : list A) (b1 b2 : list B) :
  length a1 = length b1 ->
  zip_with f (a1 ++ a2) (b1 ++ b2) = zip_with f a1 b1 ++ zip_with f a2 b2.
Proof.
  revert b1. induction a1 as [ | x a1 IH]; intros [ | y b1] H; try discriminate.
  - reflexivity.
  - cbn [app]. rewrite !zip_with_cons, IH by (simpl in H; lia). reflexivity.
Qed.

Lemma zip_with_rev {A B C} (f : A -> B -> C) (a : list A) (b : list B) :
  length a = length b ->
  rev (zip_with f a b) = zip_with f (rev a) (rev b).
Proof.
  revert b. induction a as [ | x a IH]; intros [ | y b] H; try discriminate.
  - reflexivity.
  - rewrite zip_with_cons. cbn [rev]. rewrite IH by (simpl in H; lia).
    rewrite zip_with_app by (rewrite !length_rev; simpl in H; lia). reflexivity.
Qed.

Lemma zip_with_comm {A C} (f : A -> A -> C) (a b : list A) :
  (forall x y, f x y = f y x) -> zip_with f a b = zip_with f b a.
Proof.
  intros Hf. revert b. induction a as [ | x a IH]; intros [ | y b]; try reflexivity.
  rewrite !zip_with_cons, Hf, IH. reflexivity.
Qed.

Lemma zip_with_map {A B C} (f : A -> A -> C) (g h : B -> A) (a b : list B) :
  zip_with f (map g a) (map h b) = zip_with (fun x y => f (g x) (h y)) a b.
Proof.
  revert b. induction a as [ | x a IH]; intros [ | y b]; try reflexivity.
  cbn [map]. rewrite !zip_with_cons, IH. reflexivity.
Qed.

Lemma map_zip_with {A B C D} (g : C -> D) (f : A -> B -> C) (a : list A) (b : list B) :
  map g (zip_with f a b) = zip_with (fun x y => g (f x y)) a b.
Proof. unfold zip_with. rewrite map_map. reflexivity. Qed.

Lemma zip_with_ext_in {A B C} (f g : A -> B -> C) (a : list A) (b : list B) :
  (forall x y, In x a -> In y b -> f x y = g x y) ->
  zip_with f a b = zip_with g a b.
Proof.
  revert b. induction a as [ | x a IH]; intros [ | y b] H; try reflexivity.
  rewrite !zip_with_cons. f_equal.
  - apply H; simpl; auto.
  - apply IH. intros; apply H; simpl; auto.
Qed.

(** On sequences of one length whose elements combine, [bzip] is the
    elementwise combination. *)
Lemma bzip_zip_with {A} (f : A -> A -> option A) (g : A -> A -> A) (a b : list A) :
  length a = length b ->
  (forall x y, In x a -> In y b -> f x y = Some (g x y)) ->
  bzip f a b = Some (zip_with g a b).
Proof.
  intros Hlen H. unfold bzip. rewrite Hlen, Nat.eqb_refl.
  revert b Hlen H. induction a as [ | x a IH]; intros [ | y b] Hlen H; try discriminate.
  - reflexivity.
  - cbn [zipM]. rewrite H by (simpl; auto).
    rewrite IH.
    + reflexivity.
    + simpl in Hlen. lia.
    + intros; apply H; simpl; auto.
Qed.

Lemma has_shape3_spec (n1 n2 n3 : nat) (t : list (list (list R))) :
  has_shape3 n1 n2 n3 t = true <->
  length t = n1 /\
  forall a, In a t -> length a = n2 /\ forall b, In b a -> length b = n3.
Proof.
  unfold has_shape3. rewrite andb_true_iff, Nat.eqb_eq, forallb_forall. split.
  - intros [H1 H2]. split; [exact H1 | ]. intros a Ha. specialize (H2 a Ha).
    rewrite andb_true_iff, Nat.eqb_eq, forallb_forall in H2. destruct H2 as [H2 H3].
    split; [exact H2 | ]. intros b Hb. apply Nat.eqb_eq, H3, Hb.
  - intros [H1 H2]. split; [exact H1 | ]. intros a Ha. destruct (H2 a Ha) as [H3 H4].
    rewrite andb_true_iff, Nat.eqb_eq, forallb_forall. split; [exact H3 | ].
    intros b Hb. apply Nat.eqb_eq, H4, Hb.
Qed.

Lemma add1_zip (a b : list R) :
  length a = length b -> add1 a b = Some (zip_with Rplus a b).
Proof. intros H. apply bzip_zip_with; [exact H | reflexivity]. Qed.

(** The sum of two tensors of one shape. *)
Lemma add3_zip3 (n1 n2 n3 : nat) (a b : list (list (list R))) :
  has_shape3 n1 n2 n3 a = true -> has_shape3 n1 n2 n3 b = true ->
  add3 a b = Some (zip3 a b).
Proof.
  intros Ha Hb. apply has_shape3_spec in Ha, Hb.
  destruct Ha as [La Ha], Hb as [Lb Hb].
  apply bzip_zip_with; [congruence | ].
  intros x y Hx Hy. destruct (Ha x Hx) as [Lx Hx'], (Hb y Hy) as [Ly Hy'].
  apply bzip_zip_with; [congruence | ].
  intros r s Hr Hs. apply add1_zip. rewrite (Hx' r Hr), (Hy' s Hs). reflexivity.
Qed.

Lemma flip_w3_involutive (t : tensor3) : flip_w3 (flip_w3 t) = t.
Proof.
  unfold flip_w3. rewrite map_map. rewrite <- (map_id t) at 2.
  apply map_ext. intros ch. rewrite map_map. rewrite <- (map_id ch) at 2.
  apply map_ext. intros row. apply rev_involutive.
Qed.

Lemma flip_w3_shape (n1 n2 n3 : nat) (t : tensor3) :
  has_shape3 n1 n2 n3 t = true -> has_shape3 n1 n2 n3 (flip_w3 t) = true.
Proof.
  rewrite !has_shape3_spec. intros [L H]. unfold flip_w3. split.
  - rewrite length_map. exact L.
  - intros a Ha. apply in_map_iff in Ha. destruct Ha as (a0 & <- & Ha0).
    destruct (H a0 Ha0) as [L2 H2]. split.
    + rewrite length_map. exact L2.
    + intros b Hb. apply in_map_iff in Hb. destruct Hb as (b0 & <- & Hb0).
      rewrite length_rev. apply H2, Hb0.
Qed.

(** Mirroring distributes over the sum of two tensors of one shape. *)
Lemma flip_w3_zip3 (n1 n2 n3 : nat) (a b : tensor3) :
  has_shape3 n1 n2 n3 a = true -> has_shape3 n1 n2 n3 b = true ->
  flip_w3 (zip3 a b) = zip3 (flip_w3 a) (flip_w3 b).
Proof.
  intros Ha Hb. apply has_shape3_spec in Ha, Hb.
  destruct Ha as [La Ha], Hb as [Lb Hb].
  unfold flip_w3, zip3. rewrite map_zip_with, zip_with_map.
  apply zip_with_ext_in. intros x y Hx Hy.
  destruct (Ha x Hx) as [Lx Hx'], (Hb y Hy) as [Ly Hy'].
  rewrite map_zip_with, zip_with_map.
  apply zip_with_ext_in. intros r s Hr Hs.
  apply zip_with_rev. rewrite (Hx' r Hr), (Hy' s Hs). reflexivity.
Qed.

Lemma zip3_comm (a b : tensor3) : zip3 a b = zip3 b a.
Proof.
  unfold zip3. apply zip_with_comm. intros x y.
  apply zip_with_comm. intros r s. apply zip_with_comm. intros u v. apply Rplus_comm.
Qed.

Lemma flip_w3_map3 (f : R -> R) (t : tensor3) :
  flip_w3 (map3 f t) = map3 f (flip_w3 t).
Proof.
  unfold flip_w3, map3. rewrite !map_map. apply map_ext. intros ch.
  rewrite !map_map. apply map_ext. intros row. symmetry. apply map_rev.
Qed.

Lemma shape_hw_flip (t : tensor3) (rest rest' : tensor4) :
  shape_hw (flip_w3 t :: rest) = shape_hw (t :: rest').
Proof.
  unfold shape_hw, flip_w3. cbn [hd].
  destruct t as [ | ch t]; [reflexivity | ]. cbn [map hd].
  rewrite length_map. destruct ch as [ | row ch]; [reflexivity | ]. cbn [map hd].
  rewrite length_rev. reflexivity.
Qed.

(** The channels-first copy of the mirror of an image is the mirror of
    its channels-first copy. *)
Lemma transpose_mirror (h w c : nat) (img : image) :
  has_shape3 h w c img = true ->
  transpose_2_0_1 (mirror img) = flip_w3 (transpose_2_0_1 img).
Proof.
  intros H. apply has_shape3_spec in H. destruct H as [L H].
  unfold transpose_2_0_1, mirror, flip_w3.
  assert (E : length (hd [] (hd [] (map (@rev pixel) img))) = length (hd [] (hd [] img))).
  { destruct img as [ | row img]; [reflexivity | ]. cbn [map hd].
    destruct (H row (or_introl eq_refl)) as [_ Hrow].
    destruct row as [ | px row]; [reflexivity | ].
    change (hd [] (px :: row)) with px.
    rewrite (Hrow px (or_introl eq_refl)).
    destruct (rev (px :: row)) as [ | px' row'] eqn:Er.
    - apply (f_equal (@length pixel)) in Er. rewrite length_rev in Er. discriminate.
    - cbn [hd]. apply Hrow. apply (proj2 (in_rev (px :: row) px')).
      rewrite Er. left. reflexivity. }
  rewrite E. rewrite map_map. apply map_ext. intros k.
  rewrite !map_map. apply map_ext. intros row. apply map_rev.
Qed.

(* ------------------------------------------------------------------ *)
(** ** The flip average of net_process *)

Section FlipSymmetry.

Variable f : tensor3 -> tensor3.
Variable normalize_img : tensor3 -> tensor3.
Variable transform_predictions_test : tensor4 -> string -> tensor4.
Variable transform_predictions_universal : tensor4 -> string -> tensor4.

(** A run of [net_process] with the flip, for a network that treats the
    samples of a batch one by one, on the normalised crop [y]. *)
Lemma net_process_flip_run (g : tensor3 -> tensor3) (self : InferenceTask)
    (img : image) (tr : trace) :
  let y := normalize_img (transpose_2_0_1 img) in
  per_sample_scores transform_predictions_test transform_predictions_universal self g ->
  shape_hw [f y] = shape_hw [y] ->
  net_process (map f) normalize_img transform_predictions_test
    transform_predictions_universal self img true tr
  = (match add3 (g (f y)) (flip_w3 (g (f (flip_w3 y)))) with
     | Some total => inl (map3 (fun x => (x / 2)%R) total)
     | None => inr RuntimeError
     end,
     tr ++ [EvForward [y; flip_w3 y]]).
Proof.
  intros y Hg Hshape. unfold net_process. fold y.
  cbn [app flip_w4 map]. unfold bind at 1. unfold emit.
  change (shape_hw [f y; f (flip_w3 y)]) with (shape_hw [f y]).
  change (shape_hw [y; flip_w3 y]) with (shape_hw [y]).
  rewrite Hshape. destruct (shape_hw [y]) as [h_i w_i].
  rewrite !Z.eqb_refl. cbn [negb orb]. unfold bind at 1. unfold ret at 1.
  destruct Hg as [[Hu Hg] | [Ht Hg]].
  - rewrite Hu. cbn [String.eqb Ascii.eqb Bool.eqb]. unfold bind at 1, ret at 1.
    cbn [softmax map]. rewrite <- !Hg.
    destruct (add3 (g (f y)) (flip_w3 (g (f (flip_w3 y))))); reflexivity.
  - rewrite Ht. cbn [String.eqb Ascii.eqb Bool.eqb]. unfold bind at 1, ret at 1.
    rewrite Hg. cbn [map].
    destruct (add3 (g (f y)) (flip_w3 (g (f (flip_w3 y))))); reflexivity.
Qed.

(** C6 (amended).  For every rectangular crop and every deterministic
    classifier that treats the samples of a batch one by one and keeps the
    spatial size, [net_process] with the flip applied to the horizontal
    mirror of the crop yields the horizontal mirror of the averaged output
    it yields on the crop. *)
Theorem net_process_mirror (g : tensor3 -> tensor3) (self : InferenceTask)
    (img : image) (h w c k h' w' : nat) (tr tr' : trace) :
  let y := normalize_img (transpose_2_0_1 img) in
  has_shape3 h w c img = true ->
  normalize_img (flip_w3 (transpose_2_0_1 img)) = flip_w3 y ->
  per_sample_scores transform_predictions_test transform_predictions_universal self g ->
  shape_hw [f y] = shape_hw [y] ->
  shape_hw [f (flip_w3 y)] = shape_hw [y] ->
  has_shape3 k h' w' (g (f y)) = true ->
  has_shape3 k h' w' (g (f (flip_w3 y))) = true ->
  exists out,
    fst (net_process (map f) normalize_img transform_predictions_test
           transform_predictions_universal self img true tr) = inl out /\
    fst (net_process (map f) normalize_img transform_predictions_test
           transform_predictions_universal self (mirror img) true tr')
    = inl (flip_w3 out).
Proof.
  intros y Himg Hnorm Hg Hs1 Hs2 Ha Hb.
  set (a := g (f y)) in *. set (b := g (f (flip_w3 y))) in *.
  exists (map3 (fun x => (x / 2)%R) (zip3 a (flip_w3 b))). split.
  - rewrite (net_process_flip_run g self img tr Hg Hs1). fold y a b. cbn [fst].
    rewrite (add3_zip3 k h' w') by (try apply flip_w3_shape; assumption).
    reflexivity.
  - assert (Ey : normalize_img (transpose_2_0_1 (mirror img)) = flip_w3 y).
    { rewrite (transpose_mirror h w c img Himg). exact Hnorm. }
    rewrite (net_process_flip_run g self (mirror img) tr' Hg).
    + rewrite Ey, flip_w3_involutive. fold a b. cbn [fst].
      rewrite (add3_zip3 k h' w') by (try apply flip_w3_shape; assumption).
      rewrite flip_w3_map3.
      rewrite (flip_w3_zip3 k h' w') by (try apply flip_w3_shape; assumption).
      rewrite flip_w3_involutive, (zip3_comm (flip_w3 a) b). reflexivity.
    + rewrite Ey. rewrite Hs2. symmetry. apply shape_hw_flip.
Qed.

End FlipSymmetry.

Lemma net_process_mirror_witness :
  exists out,
    fst (net_process (map (fun t => t)) (fun t => t) (fun t _ => t) (fun t _ => t)
           stub_task two_pixel_crop true []) = inl out /\
    fst (net_process (map (fun t => t)) (fun t => t) (fun t _ => t) (fun t _ => t)
           stub_task (mirror two_pixel_crop) true []) = inl (flip_w3 out).
Proof.
  apply (net_process_mirror (fun t => t) (fun t => t) (fun t _ => t) (fun t _ => t)
           softmax3 stub_task two_pixel_crop 1 2 2 2 1 2 [] []).
  - reflexivity.
  - reflexivity.
  - left. split; [reflexivity | intros t; reflexivity].
  - reflexivity.
  - reflexivity.
  - reflexivity.
  - reflexivity.
Defined.

(** C6 as stated fails: for the identity network and the crop of two
    pixels [(0, 0)] and [(1, 0)], the averaged output on the crop and the
    one on its mirror differ (they are mirror images of each other). *)
Lemma net_process_mirror_not_identical :
  fst (net_process (map (fun t => t)) (fun t => t) (fun t _ => t) (fun t _ => t)
         stub_task two_pixel_crop true [])
  <> fst (net_process (map (fun t => t)) (fun t => t) (fun t _ => t) (fun t _ => t)
            stub_task (mirror two_pixel_crop) true []).
Proof.
  cbv -[exp Rplus Rmult Rinv Rdiv Rminus Ropp IZR INR].
  intros H. injection H as H _.
  pose proof (exp_ineq1 1 ltac:(lra)) as E1.
  pose proof exp_0 as E0.
  pose proof (exp_pos 1) as P1.
  change (IZR 0) with 0%R in *. change (IZR 1) with 1%R in *.
  rewrite E0 in H.
  assert (Hd : (exp 1 + 1 <> 0)%R) by lra.
  apply (f_equal (fun x => (x * 2 * (exp 1 + 1))%R)) in H.
  field_simplify in H; lra.
Qed.

(* ------------------------------------------------------------------ *)
(** ** The arg-max *)

(** [argmax_from] continues a scan: [pre] is what has been seen, [best]
    the index of its first maximum and [best_val] that maximum. *)
Lemma argmax_from_first_max (t pre : list R) (best : Z) (best_val : R) :
  0 <= best ->
  nth_error pre (Z.to_nat best) = Some best_val ->
  (forall k x, nth_error pre k = Some x -> (x <= best_val)%R) ->
  (forall k x, Z.of_nat k < best -> nth_error pre k = Some x -> (x < best_val)%R) ->
  let r := argmax_from t (Z.of_nat (length pre)) best best_val in
  exists rv,
    0 <= r < Z.of_nat (length (pre ++ t)) /\
    nth_error (pre ++ t) (Z.to_nat r) = Some rv /\
    (forall k x, nth_error (pre ++ t) k = Some x -> (x <= rv)%R) /\
    (forall k x, Z.of_nat k < r -> nth_error (pre ++ t) k = Some x -> (x < rv)%R).
Proof.
  revert pre best best_val. induction t as [ | y t IH]; intros pre best bv Hb Hn Hmax Hfirst;
    assert (Hbl : (Z.to_nat best < length pre)%nat)
      by (apply nth_error_Some; rewrite Hn; discriminate).
  - cbn [argmax_from]. rewrite app_nil_r. exists bv. split; [ | auto]. lia.
  - cbn [argmax_from].
    replace (pre ++ y :: t) with ((pre ++ [y]) ++ t) by (rewrite <- app_assoc; reflexivity).
    replace (Z.of_nat (length pre) + 1) with (Z.of_nat (length (pre ++ [y])))
      by (rewrite length_app; simpl; lia).
    destruct (Rlt_dec bv y) as [Hlt | Hge].
    + apply IH.
      * lia.
      * rewrite Nat2Z.id, nth_error_app2, Nat.sub_diag by lia. reflexivity.
      * intros k x Hk. destruct (Nat.lt_ge_cases k (length pre)) as [Hin | Hout].
        -- rewrite nth_error_app1 in Hk by exact Hin. specialize (Hmax k x Hk). lra.
        -- rewrite nth_error_app2 in Hk by exact Hout.
           destruct (k - length pre)%nat as [ | n]; cbn in Hk.
           ++ injection Hk as <-. lra.
           ++ destruct n; discriminate.
      * intros k x Hk Hx. rewrite nth_error_app1 in Hx by lia.
        specialize (Hmax k x Hx). lra.
    + apply IH.
      * exact Hb.
      * rewrite nth_error_app1; [exact Hn | exact Hbl].
      * intros k x Hk. destruct (Nat.lt_ge_cases k (length pre)) as [Hin | Hout].
        -- rewrite nth_error_app1 in Hk by exact Hin. exact (Hmax k x Hk).
        -- rewrite nth_error_app2 in Hk by exact Hout.
           destruct (k - length pre)%nat as [ | n]; cbn in Hk.
           ++ injection Hk as <-. lra.
           ++ destruct n; discriminate.
      * intros k x Hk Hx.
        rewrite nth_error_app1 in Hx by lia. exact (Hfirst k x Hk Hx).
Qed.

(** [argmax] returns the index of the first maximum. *)
Lemma argmax_first_max (l : list R) :
  l <> [] ->
  exists v,
    0 <= argmax l < Z.of_nat (length l) /\
    nth_error l (Z.to_nat (argmax l)) = Some v /\
    (forall k x, nth_error l k = Some x -> (x <= v)%R) /\
    (forall k x, Z.of_nat k < argmax l -> nth_error l k = Some x -> (x < v)%R).
Proof.
  destruct l as [ | x t]; [congruence | intros _].
  apply (argmax_from_first_max t [x] 0 x).
  - lia.
  - reflexivity.
  - intros [ | k] y Hk; cbn in Hk; [injection Hk as <-; lra | destruct k; discriminate].
  - intros k y Hk. lia.
Qed.

Lemma argmax_bound (l : list R) : 0 <= argmax l < Z.max 1 (Z.of_nat (length l)).
Proof.
  destruct l as [ | x t] eqn:E.
  - cbn. lia.
  - destruct (argmax_first_max (x :: t)) as (v & Hb & _); [discriminate | ]. lia.
Qed.

(* ------------------------------------------------------------------ *)
(** ** The fusion of the scales *)

Lemma nth_zip_with {A B C} (f : A -> B -> C) (a : list A) (b : list B)
    (i : nat) (da : A) (db : B) (d : C) :
  (i < length a)%nat -> (i < length b)%nat ->
  nth i (zip_with f a b) d = f (nth i a da) (nth i b db).
Proof.
  revert b i. induction a as [ | x a IH]; intros [ | y b] [ | i] Ha Hb;
    simpl in Ha, Hb; try lia.
  - reflexivity.
  - rewrite zip_with_cons. cbn [nth]. apply IH; lia.
Qed.

Lemma zeros_shape (h w pred_dim : Z) :
  has_shape3 (Z.to_nat h) (Z.to_nat w) (Z.to_nat pred_dim)
             (full2 h w (repeat 0%R (Z.to_nat pred_dim))) = true.
Proof.
  apply has_shape3_spec. unfold full2. split; [apply repeat_length | ].
  intros a Ha. apply repeat_spec in Ha. subst a. split; [apply repeat_length | ].
  intros b Hb. apply repeat_spec in Hb. subst b. apply repeat_length.
Qed.

Lemma zip_with_in {A B C} (f : A -> B -> C) (a : list A) (b : list B) (z : C) :
  In z (zip_with f a b) -> exists x y, In x a /\ In y b /\ z = f x y.
Proof.
  unfold zip_with. intros H. apply in_map_iff in H. destruct H as ([x y] & <- & H).
  exists x, y. split; [eapply in_combine_l; eassumption | ].
  split; [eapply in_combine_r; eassumption | reflexivity].
Qed.

Lemma zip3_shape (n1 n2 n3 : nat) (a b : list (list (list R))) :
  has_shape3 n1 n2 n3 a = true -> has_shape3 n1 n2 n3 b = true ->
  has_shape3 n1 n2 n3 (zip3 a b) = true.
Proof.
  rewrite !has_shape3_spec. intros [La Ha] [Lb Hb]. unfold zip3. split.
  - rewrite zip_with_length; congruence.
  - intros r Hr. apply zip_with_in in Hr. destruct Hr as (x & y & Hx & Hy & ->).
    destruct (Ha x Hx) as [Lx Hx'], (Hb y Hy) as [Ly Hy']. split.
    + rewrite zip_with_length; congruence.
    + intros s Hs. apply zip_with_in in Hs. destruct Hs as (u & v & Hu & Hv & ->).
      rewrite zip_with_length; rewrite (Hx' u Hu); [reflexivity | ].
      rewrite (Hy' v Hv). reflexivity.
Qed.

(** The sum of score maps of one shape, starting from [p]. *)
Lemma fold_add3 (n1 n2 n3 : nat) (score_maps : list image) (p : image) :
  (forall m, In m score_maps -> has_shape3 n1 n2 n3 m = true) ->
  has_shape3 n1 n2 n3 p = true ->
  fold_left (fun acc m => match acc with Some q => add3 q m | None => None end)
            score_maps (Some p)
  = Some (fold_left zip3 score_maps p)
  /\ has_shape3 n1 n2 n3 (fold_left zip3 score_maps p) = true.
Proof.
  revert p. induction score_maps as [ | m ms IH]; intros p Hms Hp.
  - split; [reflexivity | exact Hp].
  - cbn [fold_left]. rewrite (add3_zip3 n1 n2 n3) by (auto using in_eq).
    apply IH.
    + intros m' Hm'. apply Hms. right. exact Hm'.
    + apply zip3_shape; auto using in_eq.
Qed.

Lemma scores_at_shape (n1 n2 n3 : nat) (m : image) (i j : nat) :
  has_shape3 n1 n2 n3 m = true -> (i < n1)%nat -> (j < n2)%nat ->
  length (nth i m []) = n2 /\ length (scores_at m i j) = n3.
Proof.
  intros H Hi Hj. apply has_shape3_spec in H. destruct H as [L H].
  unfold scores_at, image, pixel in *.
  assert (Hin : In (nth i m []) m) by (apply nth_In; lia).
  destruct (H _ Hin) as [L2 H2]. split; [exact L2 | ].
  apply H2. apply nth_In. lia.
Qed.

Lemma scores_at_zip3 (n1 n2 n3 : nat) (a b : image) (i j : nat) :
  has_shape3 n1 n2 n3 a = true -> has_shape3 n1 n2 n3 b = true ->
  (i < n1)%nat -> (j < n2)%nat ->
  scores_at (zip3 a b) i j = zip_with Rplus (scores_at a i j) (scores_at b i j).
Proof.
  intros Ha Hb Hi Hj.
  destruct (scores_at_shape n1 n2 n3 a i j Ha Hi Hj) as [La _].
  destruct (scores_at_shape n1 n2 n3 b i j Hb Hi Hj) as [Lb _].
  apply has_shape3_spec in Ha, Hb. destruct Ha as [La0 _], Hb as [Lb0 _].
  unfold scores_at, zip3, image, pixel in *.
  rewrite (nth_zip_with _ a b i [] []) by lia.
  rewrite (nth_zip_with _ _ _ j [] []) by lia. reflexivity.
Qed.

Lemma scores_at_fold (n1 n2 n3 : nat) (score_maps : list image) (p : image) (i j : nat) :
  (forall m, In m score_maps -> has_shape3 n1 n2 n3 m = true) ->
  has_shape3 n1 n2 n3 p = true -> (i < n1)%nat -> (j < n2)%nat ->
  scores_at (fold_left zip3 score_maps p) i j
  = fold_left (zip_with Rplus) (map (fun m => scores_at m i j) score_maps)
              (scores_at p i j).
Proof.
  revert p. induction score_maps as [ | m ms IH]; intros p Hms Hp Hi Hj.
  - reflexivity.
  - cbn [fold_left map]. rewrite IH.
    + rewrite (scores_at_zip3 n1 n2 n3) by (auto using in_eq). reflexivity.
    + intros m' Hm'. apply Hms. right. exact Hm'.
    + apply zip3_shape; auto using in_eq.
    + exact Hi.
    + exact Hj.
Qed.

Lemma scores_at_zeros (h w pred_dim : Z) (i j : nat) :
  (i < Z.to_nat h)%nat -> (j < Z.to_nat w)%nat ->
  scores_at (full2 h w (repeat 0%R (Z.to_nat pred_dim))) i j
  = repeat 0%R (Z.to_nat pred_dim).
Proof.
  intros Hi Hj. unfold scores_at, full2.
  rewrite !nth_repeat_lt by assumption. reflexivity.
Qed.

Lemma get2_label_map (n1 n2 n3 : nat) (prediction : image) (n : nat) (i j : Z) :
  has_shape3 n1 n2 n3 prediction = true ->
  0 <= i < Z.of_nat n1 -> 0 <= j < Z.of_nat n2 ->
  get2 (label_map prediction n) i j
  = Some (uint8 (argmax (map (fun x => (x / INR n)%R)
                             (scores_at prediction (Z.to_nat i) (Z.to_nat j))))).
Proof.
  intros H Hi Hj.
  destruct (scores_at_shape n1 n2 n3 prediction (Z.to_nat i) (Z.to_nat j) H) as [L2 _];
    [lia | lia | ].
  apply has_shape3_spec in H. destruct H as [L _].
  unfold get2, Py.get, label_map, scores_at, image, pixel in *.
  destruct (Z.ltb_spec i 0); [lia | ]. destruct (Z.ltb_spec j 0); [lia | ].
  rewrite nth_error_map.
  rewrite (nth_error_nth' prediction []) by lia. cbn [option_map].
  rewrite nth_error_map.
  rewrite (nth_error_nth' _ []) by lia. reflexivity.
Qed.

Lemma label_map_shaped (n1 n2 n3 : nat) (prediction : image) (n : nat) :
  has_shape3 n1 n2 n3 prediction = true ->
  shaped (Z.of_nat n1) (Z.of_nat n2) (label_map prediction n).
Proof.
  intros H. apply has_shape3_spec in H. destruct H as [L H].
  unfold shaped, height, label_map, image, pixel in *. split.
  - rewrite length_map. lia.
  - apply Forall_forall. intros r Hr. apply in_map_iff in Hr.
    destruct Hr as (r0 & <- & Hr0). rewrite length_map.
    destruct (H r0 Hr0) as [L2 _]. lia.
Qed.

(** The fusion of score maps of one shape: it is defined, and the label
    of a pixel is the arg-max of its mean scores, reduced to 8 bits. *)
Lemma fuse_label (h w pred_dim : Z) (score_maps : list image) :
  0 <= h -> 0 <= w ->
  (forall m, In m score_maps ->
             has_shape3 (Z.to_nat h) (Z.to_nat w) (Z.to_nat pred_dim) m = true) ->
  exists labels,
    fuse h w pred_dim score_maps = Some labels /\
    shaped h w labels /\
    forall i j, 0 <= i < h -> 0 <= j < w ->
      get2 labels i j
      = Some (uint8 (argmax (mean_scores pred_dim score_maps (Z.to_nat i) (Z.to_nat j))))
      /\ length (mean_scores pred_dim score_maps (Z.to_nat i) (Z.to_nat j))
         = Z.to_nat pred_dim.
Proof.
  intros Hh Hw Hms. unfold fuse.
  destruct (fold_add3 _ _ _ score_maps _ Hms (zeros_shape h w pred_dim)) as [E S].
  unfold image, pixel in *. rewrite E. eexists. split; [reflexivity | ]. split.
  - pose proof (label_map_shaped _ _ _ _ (length score_maps) S) as L.
    rewrite !Z2Nat.id in L by assumption. exact L.
  - intros i j Hi Hj.
    rewrite (get2_label_map _ _ _ _ _ i j S) by lia.
    destruct (scores_at_shape _ _ _ _ (Z.to_nat i) (Z.to_nat j) S) as [_ Lp];
      [lia | lia | ].
    unfold image, pixel in *.
    rewrite (scores_at_fold _ _ _ score_maps _ _ _ Hms (zeros_shape h w pred_dim))
      in * by lia.
    rewrite scores_at_zeros in * by lia.
    split; [reflexivity | ].
    unfold mean_scores, summed_scores. rewrite length_map. exact Lp.
Qed.

Lemma fold_add3_none (score_maps : list image) :
  fold_left (fun acc m => match acc with Some q => add3 q m | None => None end)
            score_maps None = None.
Proof. induction score_maps as [ | m ms IH]; [reflexivity | exact IH]. Qed.

Lemma mapM_length {A B} (f : A -> M B) (l : list A) (tr : trace) (r : list B) (tr' : trace) :
  mapM f l tr = (inl r, tr') -> length r = length l.
Proof.
  revert tr r tr'. induction l as [ | x l IH]; intros tr r tr' H.
  - cbn in H. unfold ret in H. injection H as <- _. reflexivity.
  - cbn [mapM] in H. unfold bind at 1 in H.
    destruct (f x tr) as [[y | e] tr1]; [ | discriminate].
    unfold bind at 1 in H. destruct (mapM f l tr1) as [[r1 | e] tr2] eqn:E; [ | discriminate].
    unfold ret in H. injection H as <- _. cbn [length]. f_equal. eapply IH. exact E.
Qed.

(** The loop over the scales of [execute_on_img] sums the score maps that
    the scales produce. *)
Lemma scales_loop_sums (per_scale : Q -> M image) (scales : list Q)
    (prediction : image) (tr : trace) (score_maps : list image) (tr' : trace)
    (total : image) :
  mapM per_scale scales tr = (inl score_maps, tr') ->
  fold_left (fun acc m => match acc with Some q => add3 q m | None => None end)
            score_maps (Some prediction) = Some total ->
  foldM (fun prediction scale =>
           score_map <- per_scale scale ;;
           lift_opt RuntimeError (add3 prediction score_map))
        scales prediction tr
  = (inl total, tr').
Proof.
  revert prediction tr score_maps tr'. induction scales as [ | s scales IH];
    intros prediction tr score_maps tr' Hmap Hsum.
  - cbn in Hmap. unfold ret in Hmap. injection Hmap as <- <-.
    cbn in Hsum. injection Hsum as <-. reflexivity.
  - cbn [mapM] in Hmap. unfold bind at 1 in Hmap.
    cbn [foldM]. unfold bind at 1 2.
    destruct (per_scale s tr) as [[m | e] tr1]; [ | discriminate].
    unfold bind at 1 in Hmap.
    destruct (mapM per_scale scales tr1) as [[ms | e] tr2] eqn:E; [ | discriminate].
    unfold ret in Hmap. injection Hmap as <- <-.
    cbn [fold_left] in Hsum.
    destruct (add3 prediction m) as [p1 | ] eqn:Ea.
    + cbn [lift_opt]. unfold ret at 1. eapply IH; [exact E | exact Hsum].
    + unfold image, pixel in *. rewrite fold_add3_none in Hsum. discriminate.
Qed.

Lemma bind_assoc {A B C} (m : M A) (k : A -> M B) (h : B -> M C) (tr : trace) :
  bind (bind m k) h tr = bind m (fun x => bind (k x) h) tr.
Proof.
  unfold bind. destruct (m tr) as [[a | e] tr1]; reflexivity.
Qed.

Lemma foldM_ext {A B} (f g : A -> B -> M A) (l : list B) (a : A) (tr : trace) :
  (forall a x tr, f a x tr = g a x tr) -> foldM f l a tr = foldM g l a tr.
Proof.
  intros H. revert a tr. induction l as [ | x l IH]; intros a tr; [reflexivity | ].
  cbn [foldM]. unfold bind. rewrite H.
  destruct (g a x tr) as [[a1 | e] tr1]; [apply IH | reflexivity].
Qed.

Section Fusion.

Variable model : tensor4 -> tensor4.
Variable normalize_img : tensor3 -> tensor3.
Variable mean : pixel.
Variable transform_predictions_test : tensor4 -> string -> tensor4.
Variable transform_predictions_universal : tensor4 -> string -> tensor4.
Variable cv2_resize : image -> Z -> Z -> image.

(** [execute_on_img] returns the fusion of the score maps of its scales. *)
Lemma execute_on_img_fuse (self : InferenceTask) (img : image) (tr : trace)
    (score_maps : list image) (tr' : trace) (labels : list (list Z)) :
  mapM (fun scale =>
          image_scale <- resize_by_scaled_short_side cv2_resize img (base_size self) scale ;;
          scale_process_cuda model normalize_img mean transform_predictions_test
            transform_predictions_universal cv2_resize self image_scale
            (height img) (width img) default_stride_rate)
       (scales self) tr = (inl score_maps, tr') ->
  fuse (height img) (width img) (pred_dim self) score_maps = Some labels ->
  execute_on_img model normalize_img mean transform_predictions_test
    transform_predictions_universal cv2_resize self img tr = (inl labels, tr').
Proof.
  intros Hmap Hfuse. unfold execute_on_img, fuse in *.
  destruct (fold_left _ score_maps _) as [total | ] eqn:Esum; [ | discriminate].
  injection Hfuse as <-.
  unfold bind at 1.
  rewrite (foldM_ext _
             (fun prediction scale =>
                score_map <-
                  (image_scale <-
                     resize_by_scaled_short_side cv2_resize img (base_size self) scale ;;
                   scale_process_cuda model normalize_img mean transform_predictions_test
                     transform_predictions_universal cv2_resize self image_scale
                     (height img) (width img) default_stride_rate) ;;
                lift_opt RuntimeError (add3 prediction score_map)))
    by (intros; symmetry; apply bind_assoc).
  erewrite (scales_loop_sums
              (fun scale =>
                 image_scale <- resize_by_scaled_short_side cv2_resize img (base_size self) scale ;;
                 scale_process_cuda model normalize_img mean transform_predictions_test
                   transform_predictions_universal cv2_resize self image_scale
                   (height img) (width img) default_stride_rate)).
  - unfold ret. rewrite (mapM_length _ _ _ _ _ Hmap). reflexivity.
  - exact Hmap.
  - exact Esum.
Qed.

End Fusion.

(* ------------------------------------------------------------------ *)
(** ** Padding and cropping *)

Lemma slice_all {A} (l : list A) : Py.slice l 0 (Z.of_nat (length l)) = l.
Proof.
  unfold Py.slice. rewrite !norm_index_id by lia.
  rewrite Z.sub_0_r, Nat2Z.id. cbn [Z.to_nat skipn]. apply firstn_all.
Qed.

Lemma slice_app_middle {A} (a b c : list A) :
  Py.slice (a ++ b ++ c) (Z.of_nat (length a)) (Z.of_nat (length a) + Z.of_nat (length b)) = b.
Proof.
  unfold Py.slice. rewrite !length_app.
  rewrite !norm_index_id by lia.
  replace (Z.to_nat (Z.of_nat (length a) + Z.of_nat (length b) - Z.of_nat (length a)))
    with (length b) by lia.
  rewrite Nat2Z.id, skipn_app, skipn_all, Nat.sub_diag. cbn [app skipn].
  rewrite firstn_app, firstn_all, Nat.sub_diag. cbn [firstn]. apply app_nil_r.
Qed.

Lemma get_app {A} (a b : list A) (i : Z) :
  0 <= i ->
  Py.get (a ++ b) i
  = if i <? Z.of_nat (length a) then Py.get a i else Py.get b (i - Z.of_nat (length a)).
Proof.
  intros Hi. unfold Py.get. destruct (Z.ltb_spec i 0); [lia | ].
  destruct (Z.ltb_spec i (Z.of_nat (length a))).
  - apply nth_error_app1. lia.
  - destruct (Z.ltb_spec (i - Z.of_nat (length a)) 0); [lia | ].
    rewrite nth_error_app2 by lia. f_equal. lia.
Qed.

Lemma get_repeat {A} (v : A) (n : nat) (i : Z) :
  0 <= i < Z.of_nat n -> Py.get (repeat v n) i = Some v.
Proof.
  intros Hi. unfold Py.get. destruct (Z.ltb_spec i 0); [lia | ].
  rewrite nth_error_repeat by lia. reflexivity.
Qed.

Lemma get_map {A B} (f : A -> B) (l : list A) (i : Z) :
  Py.get (map f l) i = option_map f (Py.get l i).
Proof.
  unfold Py.get. destruct (i <? 0); [reflexivity | apply nth_error_map].
Qed.

Lemma get_in_range {A} (l : list A) (i : Z) :
  0 <= i < Z.of_nat (length l) -> exists x, Py.get l i = Some x /\ In x l.
Proof.
  intros Hi. unfold Py.get. destruct (Z.ltb_spec i 0); [lia | ].
  destruct (nth_error l (Z.to_nat i)) as [x | ] eqn:E.
  - exists x. split; [reflexivity | eapply nth_error_In; eassumption].
  - apply nth_error_None in E. lia.
Qed.

(** X1.  Cropping the padded image at the offsets that [pad_to_crop_sz]
    returns, over the size of the original, gives the original image back:
    this is how [scale_process_cuda] discards the padded portion. *)
Theorem pad_then_crop_round_trip {A : Type} (img : list (list A))
    (crop_h crop_w : Z) (mean : A) :
  shaped (height img) (width img) img ->
  slice2 (fst (fst (pad_to_crop_sz img crop_h crop_w mean)))
         (snd (fst (pad_to_crop_sz img crop_h crop_w mean)))
         (snd (fst (pad_to_crop_sz img crop_h crop_w mean)) + height img)
         (snd (pad_to_crop_sz img crop_h crop_w mean))
         (snd (pad_to_crop_sz img crop_h crop_w mean) + width img)
  = img.
Proof.
  intros [_ Hw]. unfold pad_to_crop_sz. cbn [fst snd].
  set (pad_h := Z.max (crop_h - height img) 0).
  set (pad_w := Z.max (crop_w - width img) 0).
  pose proof (py_int_half pad_h ltac:(lia)) as Hqh.
  pose proof (py_int_half pad_w ltac:(lia)) as Hqw.
  set (ph := Py.int (inject_Z pad_h / 2)) in *.
  set (pw := Py.int (inject_Z pad_w / 2)) in *.
  assert (Hrows : forall (left right : nat) (l : list (list A)),
             Forall (fun row => Z.of_nat (length row) = width img) l ->
             map (fun row => Py.slice row (Z.of_nat left) (Z.of_nat left + width img))
                 (map (fun row => repeat mean left ++ row ++ repeat mean right) l)
             = l).
  { intros left right l Hl. rewrite map_map. rewrite <- (map_id l) at 2.
    apply map_ext_in. intros row Hrow. rewrite Forall_forall in Hl.
    rewrite <- (Hl row Hrow).
    pose proof (slice_app_middle (repeat mean left) row (repeat mean right)) as S.
    rewrite repeat_length in S. exact S. }
  destruct ((0 <? pad_h) || (0 <? pad_w)) eqn:E.
  - unfold slice2, copyMakeBorder.
    pose proof (slice_app_middle
                  (repeat (repeat mean (Z.to_nat (pw + width img + (pad_w - pw))))
                          (Z.to_nat ph))
                  (map (fun row => repeat mean (Z.to_nat pw) ++ row
                                   ++ repeat mean (Z.to_nat (pad_w - pw))) img)
                  (repeat (repeat mean (Z.to_nat (pw + width img + (pad_w - pw))))
                          (Z.to_nat (pad_h - ph)))) as S.
    rewrite repeat_length, length_map in S.
    rewrite Z2Nat.id in S by lia. unfold height. rewrite S.
    pose proof (Hrows (Z.to_nat pw) (Z.to_nat (pad_w - pw)) img Hw) as R.
    rewrite Z2Nat.id in R by lia. exact R.
  - apply orb_false_iff in E. destruct E as [E1 E2].
    apply Z.ltb_ge in E1, E2.
    assert (ph = 0) by lia. assert (pw = 0) by lia.
    replace ph with 0 by lia. replace pw with 0 by lia.
    unfold slice2, height. rewrite (Z.add_0_l (Z.of_nat (length img))), slice_all.
    rewrite <- (map_id img) at 2. apply map_ext_in. intros row Hrow.
    rewrite Forall_forall in Hw. rewrite Z.add_0_l, <- (Hw row Hrow). apply slice_all.
Qed.

Lemma py_int_half_div (pad : Z) : 0 <= pad -> Py.int (inject_Z pad / 2) = pad / 2.
Proof.
  intros H. unfold Py.int.
  assert (Hq : Qle_bool 0 (inject_Z pad / 2) = true).
  { apply Qle_bool_iff. unfold Qle, Qdiv, Qmult, Qinv, inject_Z. simpl. lia. }
  rewrite Hq. change 2%Q with (inject_Z 2). symmetry. apply Zdiv_Qdiv.
Qed.

(** X2.  [pad_to_crop_sz] brings each side of the image up to the crop
    size and no further; the padding of a side is split in two halves, the
    leading one rounded down, so that the trailing edge gets the odd
    pixel; an image that is already large enough is returned as it is,
    with zero offsets. *)
Theorem pad_to_crop_sz_result {A : Type} (img : list (list A))
    (crop_h crop_w : Z) (mean : A) :
  1 <= crop_h ->
  let padded := fst (fst (pad_to_crop_sz img crop_h crop_w mean)) in
  let pad_h_half := snd (fst (pad_to_crop_sz img crop_h crop_w mean)) in
  let pad_w_half := snd (pad_to_crop_sz img crop_h crop_w mean) in
  height padded = Z.max (height img) crop_h /\
  width padded = Z.max (width img) crop_w /\
  pad_h_half = (height padded - height img) / 2 /\
  pad_w_half = (width padded - width img) / 2 /\
  (crop_h <= height img -> crop_w <= width img ->
   padded = img /\ pad_h_half = 0 /\ pad_w_half = 0).
Proof.
  intros Hc padded pad_h_half pad_w_half.
  pose proof (pad_to_crop_sz_height img crop_h crop_w mean) as Hh.
  pose proof (pad_to_crop_sz_width img crop_h crop_w mean Hc) as Hw.
  fold padded in Hh, Hw.
  assert (Eh : pad_h_half = Z.max (crop_h - height img) 0 / 2)
    by (apply py_int_half_div; lia).
  assert (Ew : pad_w_half = Z.max (crop_w - width img) 0 / 2)
    by (apply py_int_half_div; lia).
  split; [exact Hh | ]. split; [exact Hw | ].
  split; [rewrite Eh, Hh; f_equal; lia | ].
  split; [rewrite Ew, Hw; f_equal; lia | ].
  intros Lh Lw.
  replace (Z.max (crop_h - height img) 0) with 0 in Eh by lia.
  replace (Z.max (crop_w - width img) 0) with 0 in Ew by lia.
  split; [ | split; [exact Eh | exact Ew]].
  unfold padded, pad_to_crop_sz. cbn [fst].
  replace (Z.max (crop_h - height img) 0) with 0 by lia.
  replace (Z.max (crop_w - width img) 0) with 0 by lia.
  reflexivity.
Qed.

Lemma pad_to_crop_sz_result_witness :
  height (fst (fst (pad_to_crop_sz stub_image 4 5 [0%R; 0%R]))) = 4 /\
  width (fst (fst (pad_to_crop_sz stub_image 4 5 [0%R; 0%R]))) = 5 /\
  snd (fst (pad_to_crop_sz stub_image 4 5 [0%R; 0%R])) = 0 /\
  snd (pad_to_crop_sz stub_image 4 5 [0%R; 0%R]) = 1.
Proof.
  pose proof (pad_to_crop_sz_result stub_image 4 5 [0%R; 0%R] ltac:(lia)) as H.
  cbv zeta in H. destruct H as (H1 & H2 & H3 & H4 & _).
  split; [exact H1 | ]. split; [exact H2 | ].
  split; [rewrite H3, H1; reflexivity | rewrite H4, H2; reflexivity].
Defined.

Lemma pad_then_crop_round_trip_witness :
  shaped 3 2 stub_image /\
  slice2 (fst (fst (pad_to_crop_sz stub_image 4 5 [0%R; 0%R]))) 0 (0 + 3) 1 (1 + 2)
  = stub_image.
Proof.
  split; [exact stub_image_shaped | ].
  exact (pad_then_crop_round_trip stub_image 4 5 [0%R; 0%R] stub_image_shaped).
Defined.

(** X3.  Every pixel that [pad_to_crop_sz] adds around the image has the
    fill value [mean]. *)
Theorem padding_is_mean {A : Type} (img : list (list A))
    (crop_h crop_w : Z) (mean : A) (i j : Z) :
  shaped (height img) (width img) img ->
  let padded := fst (fst (pad_to_crop_sz img crop_h crop_w mean)) in
  let pad_h_half := snd (fst (pad_to_crop_sz img crop_h crop_w mean)) in
  let pad_w_half := snd (pad_to_crop_sz img crop_h crop_w mean) in
  0 <= i < Z.max (height img) crop_h ->
  0 <= j < Z.max (width img) crop_w ->
  ~ (pad_h_half <= i < pad_h_half + height img /\
     pad_w_half <= j < pad_w_half + width img) ->
  get2 padded i j = Some mean.
Proof.
  intros [_ Hw] padded ph pw Hi Hj Hout.
  unfold padded, ph, pw, pad_to_crop_sz in *. cbn [fst snd] in *.
  set (pad_h := Z.max (crop_h - height img) 0) in *.
  set (pad_w := Z.max (crop_w - width img) 0) in *.
  pose proof (py_int_half pad_h ltac:(lia)) as Hqh.
  pose proof (py_int_half pad_w ltac:(lia)) as Hqw.
  set (qh := Py.int (inject_Z pad_h / 2)) in *.
  set (qw := Py.int (inject_Z pad_w / 2)) in *.
  destruct ((0 <? pad_h) || (0 <? pad_w)) eqn:E.
  - unfold get2, copyMakeBorder.
    set (blank := repeat mean (Z.to_nat (qw + width img + (pad_w - qw)))).
    assert (Hblank : Py.get blank j = Some mean)
      by (apply get_repeat; unfold width in *; lia).
    rewrite get_app, repeat_length by lia.
    destruct (Z.ltb_spec i (Z.of_nat (Z.to_nat qh))) as [Htop | Hmid].
    + rewrite get_repeat by lia. exact Hblank.
    + rewrite get_app, length_map by lia.
      destruct (Z.ltb_spec (i - Z.of_nat (Z.to_nat qh)) (Z.of_nat (length img)))
        as [Hin | Hbot].
      * rewrite get_map.
        destruct (get_in_range img (i - Z.of_nat (Z.to_nat qh)) ltac:(lia))
          as (row & -> & Hrow).
        cbn [option_map]. rewrite Forall_forall in Hw. specialize (Hw row Hrow).
        unfold height in Hout.
        rewrite get_app, repeat_length by lia.
        destruct (Z.ltb_spec j (Z.of_nat (Z.to_nat qw))) as [Hl | Hr].
        -- apply get_repeat. lia.
        -- rewrite get_app by lia.
           destruct (Z.ltb_spec (j - Z.of_nat (Z.to_nat qw)) (Z.of_nat (length row))).
           ++ exfalso. apply Hout. lia.
           ++ apply get_repeat. unfold width in *. lia.
      * rewrite get_repeat; [exact Hblank | ]. unfold height in *. lia.
  - apply orb_false_iff in E. destruct E as [E1 E2]. apply Z.ltb_ge in E1, E2.
    exfalso. apply Hout. lia.
Qed.

Lemma padding_is_mean_witness :
  shaped 3 2 stub_image /\
  get2 (fst (fst (pad_to_crop_sz stub_image 4 5 [0%R; 0%R]))) 3 4 = Some [0%R; 0%R].
Proof.
  split; [exact stub_image_shaped | ].
  apply (padding_is_mean stub_image 4 5 [0%R; 0%R] 3 4 stub_image_shaped).
  - simpl. lia.
  - simpl. lia.
  - simpl. lia.
Defined.

(* ------------------------------------------------------------------ *)
(** ** The coverage buffer, exactly *)




Lemma flat_map_map_length {A B C} (f : A -> B -> C) (l1 : list A) (l2 : list B) :
  length (flat_map (fun x => map (f x) l2) l1) = (length l1 * length l2)%nat.
Proof.
  induction l1 as [ | x l1 IH]; [reflexivity | ].
  cbn [flat_map length]. rewrite length_app, length_map, IH. lia.
Qed.

Lemma tiles_length (crop_h crop_w new_h new_w stride_h stride_w grid_h grid_w : Z) :
  length (tiles crop_h crop_w new_h new_w stride_h stride_w grid_h grid_w)
  = (Z.to_nat grid_h * Z.to_nat grid_w)%nat.
Proof.
  unfold tiles. rewrite flat_map_map_length. unfold Py.range.
  rewrite !length_map, !length_seq. reflexivity.
Qed.

(* ------------------------------------------------------------------ *)
(** ** The tile loop of scale_process_cuda *)

Section TileLoop.

Variable model : tensor4 -> tensor4.
Variable normalize_img : tensor3 -> tensor3.
Variable mean : pixel.
Variable transform_predictions_test : tensor4 -> string -> tensor4.
Variable transform_predictions_universal : tensor4 -> string -> tensor4.
Variable cv2_resize : image -> Z -> Z -> image.


(** A call of [net_process] that returns has made one forward pass and
    printed nothing. *)
Lemma net_process_ok_trace (self : InferenceTask) (img : image) (flip : bool)
    (tr : trace) (out : tensor3) (tr' : trace) :
  net_process model normalize_img transform_predictions_test
    transform_predictions_universal self img flip tr = (inl out, tr') ->
  tr' = tr ++ [EvForward (net_input normalize_img img flip)].
Proof.
  unfold net_process.
  change (if flip
          then [normalize_img (transpose_2_0_1 img)]
               ++ flip_w4 [normalize_img (transpose_2_0_1 img)]
          else [normalize_img (transpose_2_0_1 img)])
    with (net_input normalize_img img flip).
  set (input := net_input normalize_img img flip).
  unfold bind at 1. unfold emit.
  destruct (shape_hw input) as [h_i w_i]. destruct (shape_hw (model input)) as [h_o w_o].
  destruct (negb (h_o =? h_i) || negb (w_o =? w_i)).
  - unfold bind, raise. discriminate.
  - unfold bind at 1. unfold ret at 1.
    destruct (String.eqb (output_taxonomy self) "universal").
    + unfold bind at 1. unfold ret at 1.
      destruct flip.
      * destruct (softmax (model input)) as [ | o0 [ | o1 rest]];
          try (unfold raise; discriminate).
        unfold bind. destruct (add3 o0 (flip_w3 o1)); cbn; unfold ret, raise.
        -- intros H. injection H as _ <-. reflexivity.
        -- discriminate.
      * destruct (softmax (model input)) as [ | o0 rest]; unfold ret, raise.
        -- discriminate.
        -- intros H. injection H as _ <-. reflexivity.
    + destruct (String.eqb (output_taxonomy self) "test_dataset").
      * unfold bind at 1. unfold ret at 1.
        destruct flip.
        -- destruct (convert_pred_to_label_tax_and_softmax _ _ _ _) as [ | o0 [ | o1 rest]];
             try (unfold raise; discriminate).
           unfold bind. destruct (add3 o0 (flip_w3 o1)); cbn; unfold ret, raise.
           ++ intros H. injection H as _ <-. reflexivity.
           ++ discriminate.
        -- destruct (convert_pred_to_label_tax_and_softmax _ _ _ _) as [ | o0 rest];
             unfold ret, raise.
           ++ discriminate.
           ++ intros H. injection H as _ <-. reflexivity.
      * unfold bind, emit, raise. discriminate.
Qed.

Lemma tile_loop_trace (self : InferenceTask) (img : image) (ts : list tile)
    (st : tensor3 * list (list Z)) (tr : trace)
    (st' : tensor3 * list (list Z)) (tr' : trace) :
  foldM (tile_step (fun image_crop =>
                      net_process model normalize_img transform_predictions_test
                        transform_predictions_universal self image_crop true)
                   img)
        ts st tr = (inl st', tr') ->
  tr' = tr ++ map (fun t => EvForward (net_input normalize_img
                                         (slice2 img (s_h t) (e_h t) (s_w t) (e_w t)) true))
                  ts.
Proof.
  revert st tr. induction ts as [ | t ts IH]; intros st tr H.
  - cbn in H. unfold ret in H. injection H as _ <-. cbn. symmetry. apply app_nil_r.
  - cbn [foldM] in H. unfold bind at 1 in H.
    destruct (tile_step _ img st t tr) as [[st1 | e] tr1] eqn:E; [ | discriminate].
    apply IH in H. subst tr'. cbn [map].
    destruct st as [pred cnt]. unfold tile_step in E. unfold bind at 1 in E.
    destruct (net_process _ _ _ _ _ _ _ tr) as [[out | e] tr0] eqn:En; [ | discriminate].
    apply net_process_ok_trace in En. subst tr0.
    unfold bind in E. destruct (iadd_region pred t out); cbn in E; [ | discriminate].
    unfold ret in E. injection E as _ <-. rewrite <- app_assoc. reflexivity.
Qed.




End TileLoop.






(* ------------------------------------------------------------------ *)
(** ** A network output of another size, and the labels of the fused map *)

Lemma range_cons (n : Z) : 1 <= n -> exists r, Py.range n = 0 :: r.
Proof.
  intros Hn. unfold Py.range.
  destruct (Z.to_nat n) as [ | k] eqn:E; [lia | ].
  cbn. eexists. reflexivity.
Qed.

Lemma tiles_cons (crop_h crop_w new_h new_w stride_h stride_w grid_h grid_w : Z) :
  1 <= grid_h -> 1 <= grid_w ->
  exists ts,
    tiles crop_h crop_w new_h new_w stride_h stride_w grid_h grid_w
    = tile_at crop_h crop_w new_h new_w stride_h stride_w 0 0 :: ts.
Proof.
  intros Hh Hw. unfold tiles.
  destruct (range_cons grid_h Hh) as [rh ->].
  destruct (range_cons grid_w Hw) as [rw ->].
  cbn. eexists. reflexivity.
Qed.

Section Mismatch.

Variable model : tensor4 -> tensor4.
Variable normalize_img : tensor3 -> tensor3.
Variable mean : pixel.
Variable transform_predictions_test : tensor4 -> string -> tensor4.
Variable transform_predictions_universal : tensor4 -> string -> tensor4.
Variable cv2_resize : image -> Z -> Z -> image.

(** When the output of the network has another height or width than its
    input, [net_process] stops at the unbound name [F], after the forward
    pass and whatever the taxonomy. *)
Lemma net_process_size_mismatch (self : InferenceTask) (img : image) (flip : bool)
    (tr : trace) :
  shape_hw (model (net_input normalize_img img flip))
  <> shape_hw (net_input normalize_img img flip) ->
  net_process model normalize_img transform_predictions_test
    transform_predictions_universal self img flip tr
  = (inr (NameError "F"), tr ++ [EvForward (net_input normalize_img img flip)]).
Proof.
  intros Hne. unfold net_process.
  change (if flip
          then [normalize_img (transpose_2_0_1 img)]
               ++ flip_w4 [normalize_img (transpose_2_0_1 img)]
          else [normalize_img (transpose_2_0_1 img)])
    with (net_input normalize_img img flip).
  set (input := net_input normalize_img img flip) in *.
  unfold bind at 1. unfold emit.
  destruct (shape_hw input) as [h_i w_i]. destruct (shape_hw (model input)) as [h_o w_o].
  destruct (Z.eqb_spec h_o h_i) as [-> | N1]; cbn [negb orb].
  - destruct (Z.eqb_spec w_o w_i) as [-> | N2]; cbn [negb].
    + contradiction Hne. reflexivity.
    + reflexivity.
  - reflexivity.
Qed.

(** X8.  When the network returns, for the batch of the first tile, an
    output of another height or width than the batch, [scale_process_cuda]
    stops with a NameError for [F] after that one forward pass: the
    interpolation of line 430 is never done. *)
Theorem resized_network_output_raises (self : InferenceTask) (img : image) (h w : Z)
    (stride_rate : Q) (tr : trace) :
  let padded := fst (fst (pad_to_crop_sz img (crop_h self) (crop_w self) mean)) in
  let input :=
    net_input normalize_img (slice2 padded 0 (crop_h self) 0 (crop_w self)) true in
  1 <= crop_h self -> 1 <= crop_w self ->
  0 < stride_of (crop_h self) stride_rate -> 0 < stride_of (crop_w self) stride_rate ->
  shape_hw (model input) <> shape_hw input ->
  scale_process_cuda model normalize_img mean transform_predictions_test
    transform_predictions_universal cv2_resize self img h w stride_rate tr
  = (inr (NameError "F"), tr ++ [EvForward input]).
Proof.
  intros padded input Hch Hcw Hsh Hsw Hne.
  assert (Hnh : crop_h self <= height padded).
  { unfold padded. rewrite pad_to_crop_sz_height. lia. }
  assert (Hnw : crop_w self <= width padded).
  { unfold padded. rewrite pad_to_crop_sz_width by assumption. lia. }
  unfold scale_process_cuda, scale_process_tiles.
  subst input padded.
  destruct (pad_to_crop_sz img (crop_h self) (crop_w self) mean) as [[img' ph] pw].
  cbn [fst] in *.
  set (stride_h := stride_of (crop_h self) stride_rate) in *.
  set (stride_w := stride_of (crop_w self) stride_rate) in *.
  unfold bind at 1 2. unfold grid_of.
  destruct (Z.eqb_spec stride_h 0); [lia | ].
  destruct (Z.eqb_spec stride_w 0); [lia | ].
  cbn [lift_opt]. unfold ret at 1. unfold bind at 1. unfold ret at 1.
  pose proof (Qceiling_div (height img' - crop_h self) stride_h) as Eh.
  pose proof (Qceiling_div (width img' - crop_w self) stride_w) as Ew.
  pose proof (ceil_div_pos_spec (height img' - crop_h self) stride_h Hsh) as Ch.
  pose proof (ceil_div_pos_spec (width img' - crop_w self) stride_w Hsw) as Cw.
  unfold tile_loop.
  destruct (tiles_cons (crop_h self) (crop_w self) (height img') (width img')
              stride_h stride_w
              (Qceiling (inject_Z (height img' - crop_h self) / inject_Z stride_h) + 1)
              (Qceiling (inject_Z (width img' - crop_w self) / inject_Z stride_w) + 1))
    as [ts ->].
  - rewrite Eh. nia.
  - rewrite Ew. nia.
  - cbn [foldM]. unfold bind at 1. unfold tile_step at 1. unfold bind at 1.
    unfold tile_at. cbn [s_h e_h s_w e_w].
    replace (Z.min (0 * stride_h + crop_h self) (height img') - crop_h self) with 0 by lia.
    replace (Z.min (0 * stride_h + crop_h self) (height img')) with (crop_h self) by lia.
    replace (Z.min (0 * stride_w + crop_w self) (width img') - crop_w self) with 0 by lia.
    replace (Z.min (0 * stride_w + crop_w self) (width img')) with (crop_w self) by lia.
    rewrite net_process_size_mismatch by exact Hne. reflexivity.
Qed.

End Mismatch.

Lemma resized_network_output_raises_witness :
  (1 <= 2 /\ 1 <= 2 /\ 0 < stride_of 2 (2 # 3) /\ 0 < stride_of 2 (2 # 3)) /\
  scale_process_cuda (fun _ => []) (fun t => t) [0%R; 0%R] (fun t _ => t) (fun t _ => t)
    (fun img _ _ => img) stub_task stub_image 3 2 (2 # 3) []
  = (inr (NameError "F"),
     [] ++ [EvForward (net_input (fun t => t) (slice2 stub_image 0 2 0 2) true)]).
Proof.
  split.
  - repeat split; try reflexivity; lia.
  - apply (resized_network_output_raises (fun _ => []) (fun t => t) [0%R; 0%R]
             (fun t _ => t) (fun t _ => t) (fun img _ _ => img)
             stub_task stub_image 3 2 (2 # 3) []).
    + simpl. lia.
    + simpl. lia.
    + reflexivity.
    + reflexivity.
    + cbv. discriminate.
Defined.

(** X10.  When every per-scale score map has the shape
    [h x w x pred_dim], with at least one class, every label of the fused
    map is the id of a class: it lies in [[0, pred_dim)], and below 256. *)
Theorem fused_labels_are_class_ids (h w pred_dim : Z) (score_maps : list image) :
  0 <= h -> 0 <= w -> 1 <= pred_dim ->
  (forall m, In m score_maps ->
             has_shape3 (Z.to_nat h) (Z.to_nat w) (Z.to_nat pred_dim) m = true) ->
  exists labels,
    fuse h w pred_dim score_maps = Some labels /\
    forall i j, 0 <= i < h -> 0 <= j < w ->
      exists l, get2 labels i j = Some l /\ 0 <= l < pred_dim /\ l < 256.
Proof.
  intros Hh Hw Hp Hshape.
  destruct (fuse_label h w pred_dim score_maps Hh Hw Hshape) as (labels & Hf & _ & Hl).
  exists labels. split; [exact Hf | ].
  intros i j Hi Hj. destruct (Hl i j Hi Hj) as [Hg Hlen].
  eexists. split; [exact Hg | ].
  pose proof (argmax_bound (mean_scores pred_dim score_maps (Z.to_nat i) (Z.to_nat j))) as B.
  rewrite Hlen in B. unfold uint8.
  pose proof (Z.mod_pos_bound
                (argmax (mean_scores pred_dim score_maps (Z.to_nat i) (Z.to_nat j))) 256
                ltac:(lia)) as Bm.
  pose proof (Z.mod_le
                (argmax (mean_scores pred_dim score_maps (Z.to_nat i) (Z.to_nat j))) 256
                ltac:(lia) ltac:(lia)) as Ble.
  lia.
Qed.

Lemma fused_labels_are_class_ids_witness :
  exists labels,
    fuse 1 2 2 stub_score_maps = Some labels /\
    forall i j, 0 <= i < 1 -> 0 <= j < 2 ->
      exists l, get2 labels i j = Some l /\ 0 <= l < 2 /\ l < 256.
Proof.
  apply (fused_labels_are_class_ids 1 2 2 stub_score_maps); try lia.
  intros m Hm. cbn in Hm.
  destruct Hm as [<- | [<- | []]]; reflexivity.
Defined.

(* ------------------------------------------------------------------ *)
(** ** resize_by_scaled_short_side on an empty image *)

(** X12.  On an image without rows or without columns,
    [resize_by_scaled_short_side] stops with a ZeroDivisionError, and
    [cv2.resize] is not called. *)
Theorem resize_empty_image_raises (cv2_resize : image -> Z -> Z -> image)
    (img : image) (base_size : Z) (scale : Q) (tr : trace) :
  height img = 0 \/ width img = 0 ->
  resize_by_scaled_short_side cv2_resize img base_size scale tr
  = (inr ZeroDivisionError, tr).
Proof.
  intros Hz. unfold resize_by_scaled_short_side.
  assert (Hh : 0 <= height img) by (unfold height; lia).
  assert (Hw : 0 <= width img) by (unfold width; lia).
  destruct (Z.ltb_spec (width img) (height img)) as [Hlt | Hge].
  - destruct (Z.eqb_spec (width img) 0) as [E | N]; [reflexivity | lia].
  - destruct (Z.eqb_spec (height img) 0) as [E | N]; [reflexivity | lia].
Qed.

Lemma resize_empty_image_raises_witness :
  (height (@nil (list pixel)) = 0 \/ width (@nil (list pixel)) = 0) /\
  resize_by_scaled_short_side (fun img _ _ => img) [] 4 1 [] = (inr ZeroDivisionError, []).
Proof.
  split.
  - left. reflexivity.
  - apply (resize_empty_image_raises (fun img _ _ => img) [] 4 1 []).
    left. reflexivity.
Defined.

(* ------------------------------------------------------------------ *)
(** ** The shape of the output of net_process *)


Lemma has_shape3_matrices (c h w : nat) (t : tensor3) :
  has_shape3 c h w t = true <->
  length t = c /\ forall ch, In ch t -> matrix_shape h w ch.
Proof. apply has_shape3_spec. Qed.


Lemma zip_matrix_shape (f : R -> R -> R) (h w : nat) (a b : list (list R)) :
  matrix_shape h w a -> matrix_shape h w b ->
  matrix_shape h w (zip_with (zip_with f) a b).
Proof.
  intros [Ha Hra] [Hb Hrb]. split.
  - rewrite zip_with_length; lia.
  - intros row Hin. unfold zip_with at 1 in Hin. apply in_map_iff in Hin.
    destruct Hin as ([x y] & <- & Hin). cbn [fst snd].
    pose proof (in_combine_l _ _ _ _ Hin). pose proof (in_combine_r _ _ _ _ Hin).
    rewrite zip_with_length; [apply Hra; assumption | ].
    rewrite Hra, Hrb by assumption. reflexivity.
Qed.


Lemma fold_matrices_shape (h w : nat) (cs : list (list (list R))) (c0 : list (list R)) :
  matrix_shape h w c0 -> (forall ch, In ch cs -> matrix_shape h w ch) ->
  matrix_shape h w (fold_left (zip_with (zip_with Rplus)) cs c0).
Proof.
  intros H0 Hcs. revert c0 H0.
  induction cs as [ | c cs IH]; intros c0 H0; cbn [fold_left].
  - exact H0.
  - apply (IH (fun ch Hin => Hcs ch (or_intror Hin))).
    apply zip_matrix_shape; [exact H0 | apply Hcs; left; reflexivity].
Qed.

Lemma map3_exp_shape (c h w : nat) (t : tensor3) :
  has_shape3 c h w t = true -> has_shape3 c h w (map3 exp t) = true.
Proof.
  rewrite !has_shape3_spec. intros [Hl Hr]. unfold map3. split.
  - rewrite length_map. exact Hl.
  - intros a Ha. apply in_map_iff in Ha. destruct Ha as (a' & <- & Ha').
    destruct (Hr a' Ha') as [Hla Hb]. split.
    + rewrite length_map. exact Hla.
    + intros b Hb'. apply in_map_iff in Hb'. destruct Hb' as (b' & <- & Hb'').
      rewrite length_map. apply Hb. exact Hb''.
Qed.

(** The softmax of a sample has the shape of the sample. *)
Lemma softmax3_shape (c h w : nat) (t : tensor3) :
  has_shape3 c h w t = true -> has_shape3 c h w (softmax3 t) = true.
Proof.
  intros Hs. pose proof (map3_exp_shape c h w t Hs) as He.
  unfold softmax3. set (e := map3 exp t) in *.
  apply has_shape3_matrices in He. destruct He as [Hlen Hm].
  apply has_shape3_matrices. split; [rewrite length_map; exact Hlen | ].
  intros ch Hin. apply in_map_iff in Hin. destruct Hin as (ch' & <- & Hin').
  destruct e as [ | c0 cs]; [destruct Hin' | ].
  apply zip_matrix_shape; [apply Hm; exact Hin' | ].
  apply fold_matrices_shape.
  - apply Hm. left. reflexivity.
  - intros x Hx. apply Hm. right. exact Hx.
Qed.

Lemma map3_shape (f : R -> R) (c h w : nat) (t : tensor3) :
  has_shape3 c h w t = true -> has_shape3 c h w (map3 f t) = true.
Proof.
  rewrite !has_shape3_spec. intros [Hl Hr]. unfold map3. split.
  - rewrite length_map. exact Hl.
  - intros a Ha. apply in_map_iff in Ha. destruct Ha as (a' & <- & Ha').
    destruct (Hr a' Ha') as [Hla Hb]. split.
    + rewrite length_map. exact Hla.
    + intros b Hb'. apply in_map_iff in Hb'. destruct Hb' as (b' & <- & Hb'').
      rewrite length_map. apply Hb. exact Hb''.
Qed.

Section Scores.

Variable model : tensor4 -> tensor4.
Variable normalize_img : tensor3 -> tensor3.
Variable transform_predictions_test : tensor4 -> string -> tensor4.
Variable transform_predictions_universal : tensor4 -> string -> tensor4.

(** X9.  In the universal taxonomy, when the network returns for the
    batch of a crop and its mirror two score tensors of one shape
    [c x h x w], of the height and width of the batch, [net_process] makes
    that one forward pass, prints nothing and returns a tensor of the
    shape [c x h x w]. *)
Theorem net_process_keeps_the_shape (self : InferenceTask) (img : image)
    (tr : trace) (c h w : nat) (o0 o1 : tensor3) (rest : tensor4) :
  let input := net_input normalize_img img true in
  output_taxonomy self = "universal"%string ->
  model input = o0 :: o1 :: rest ->
  shape_hw (model input) = shape_hw input ->
  has_shape3 c h w o0 = true -> has_shape3 c h w o1 = true ->
  exists out,
    net_process model normalize_img transform_predictions_test
      transform_predictions_universal self img true tr
    = (inl out, tr ++ [EvForward input]) /\
    has_shape3 c h w out = true.
Proof.
  intros input Htax Hout Hhw H0 H1.
  pose proof (softmax3_shape c h w o0 H0) as S0.
  pose proof (softmax3_shape c h w o1 H1) as S1.
  pose proof (flip_w3_shape c h w _ S1) as F1.
  pose proof (zip3_shape c h w _ _ S0 F1) as Z.
  exists (map3 (fun x => (x / 2)%R) (zip3 (softmax3 o0) (flip_w3 (softmax3 o1)))).
  split.
  - unfold net_process.
    change ([normalize_img (transpose_2_0_1 img)]
            ++ flip_w4 [normalize_img (transpose_2_0_1 img)])
      with (net_input normalize_img img true).
    fold input. unfold bind at 1. unfold emit.
    rewrite Hhw. destruct (shape_hw input) as [h_i w_i].
    rewrite !Z.eqb_refl. cbn [negb orb].
    unfold bind at 1. unfold ret at 1.
    rewrite Htax. cbn [String.eqb Ascii.eqb Bool.eqb andb].
    unfold bind at 1. unfold ret at 1.
    rewrite Hout. cbn [softmax map].
    rewrite (add3_zip3 c h w _ _ S0 F1). reflexivity.
  - apply map3_shape. exact Z.
Qed.

End Scores.

Lemma net_process_keeps_the_shape_witness :
  exists out,
    net_process (fun b => b) (fun t => t) (fun t _ => t) (fun t _ => t)
      stub_task two_pixel_crop true []
    = (inl out, [] ++ [EvForward (net_input (fun t => t) two_pixel_crop true)]) /\
    has_shape3 2 1 2 out = true.
Proof.
  eapply (net_process_keeps_the_shape (fun b => b) (fun t => t)
            (fun t _ => t) (fun t _ => t) stub_task two_pixel_crop [] 2 1 2).
  - reflexivity.
  - reflexivity.
  - reflexivity.
  - reflexivity.
  - reflexivity.
Defined.

(* ------------------------------------------------------------------ *)
(** ** The key of an image and the file of its prediction *)

Lemma slice_last_before_last {A : Type} (l : list A) (k : Z) :
  1 <= k ->
  Py.slice l (- k) (-1)
  = skipn (length (removelast l) - Z.to_nat (k - 1)) (removelast l).
Proof.
  intros Hk. unfold Py.slice. rewrite removelast_firstn_len.
  rewrite skipn_firstn_comm, length_firstn.
  unfold Py.norm_index.
  destruct (Z.ltb_spec (- k) 0) as [_ | ]; [ | lia].
  cbn [Z.ltb Z.compare].
  set (n := length l).
  replace (Z.to_nat (Z.max (- k + Z.of_nat n) 0))
    with (Nat.min (Nat.pred n) n - Z.to_nat (k - 1))%nat by lia.
  f_equal. lia.
Qed.

Lemma slice_from_before_last {A : Type} (l : list A) (k : Z) :
  k <= 0 ->
  Py.slice l (- k) (-1) = skipn (Z.to_nat (- k)) (removelast l).
Proof.
  intros Hk. unfold Py.slice. rewrite removelast_firstn_len.
  rewrite skipn_firstn_comm.
  unfold Py.norm_index.
  destruct (Z.ltb_spec (- k) 0) as [ | _]; [lia | ].
  cbn [Z.ltb Z.compare].
  set (n := length l).
  destruct (Z.le_gt_cases (- k) (Z.of_nat n)) as [Hle | Hgt].
  - replace (Z.min (- k) (Z.of_nat n)) with (- k) by lia.
    f_equal. lia.
  - replace (Z.min (- k) (Z.of_nat n)) with (Z.of_nat n) by lia.
    rewrite Nat2Z.id.
    rewrite (skipn_all2 l) by (fold n; lia).
    rewrite (skipn_all2 l) by (fold n; lia).
    rewrite !firstn_nil. reflexivity.
Qed.

(** X13.  The key of [accuracy_calculator] for any [k]: for [k >= 1] it
    is made of the names of the last [k - 1] parent directories and of the
    stem of the file; for [k <= 0] it is made of all the parents but the
    first [-k] parts of the path, and of the stem. *)
Theorem unique_stem_last_k_parents (fpath : string) (k : Z) :
  (1 <= k ->
   Accuracy.get_unique_stem_from_last_k_strs fpath k
   = (String.concat "_" (last_parent_dirs (Z.to_nat (k - 1)) fpath)
      ++ "_" ++ Pathlib.stem fpath)%string)
  /\ (k <= 0 ->
      Accuracy.get_unique_stem_from_last_k_strs fpath k
      = (String.concat "_" (skipn (Z.to_nat (- k)) (removelast (Pathlib.parts fpath)))
         ++ "_" ++ Pathlib.stem fpath)%string).
Proof.
  unfold Accuracy.get_unique_stem_from_last_k_strs, last_parent_dirs. split; intros Hk.
  - rewrite slice_last_before_last by exact Hk. reflexivity.
  - rewrite slice_from_before_last by exact Hk. reflexivity.
Qed.

Lemma unique_stem_last_k_parents_witness :
  Accuracy.get_unique_stem_from_last_k_strs "/data/scannet/scene0000_00/color/000100.jpg" 2
  = (String.concat "_" (last_parent_dirs (Z.to_nat (2 - 1))
                          "/data/scannet/scene0000_00/color/000100.jpg")
     ++ "_" ++ Pathlib.stem "/data/scannet/scene0000_00/color/000100.jpg")%string
  /\ Accuracy.get_unique_stem_from_last_k_strs "a/b/c.png" 0
     = (String.concat "_" (skipn (Z.to_nat (- 0)) (removelast (Pathlib.parts "a/b/c.png")))
        ++ "_" ++ Pathlib.stem "a/b/c.png")%string.
Proof.
  split.
  - apply (unique_stem_last_k_parents "/data/scannet/scene0000_00/color/000100.jpg" 2). lia.
  - apply (unique_stem_last_k_parents "a/b/c.png" 0). lia.
Defined.

(* ---- strings without a slash ---- *)

Lemma has_slash_app (a b : string) :
  has_slash (a ++ b) = has_slash a || has_slash b.
Proof.
  induction a as [ | c a IH]; cbn; [reflexivity | ].
  rewrite IH. apply orb_assoc.
Qed.

Lemma split_no_slash (s x : string) :
  In x (Pathlib.split "/" s) -> has_slash x = false.
Proof.
  revert x. induction s as [ | c s IH]; intros x Hin; cbn in Hin.
  - destruct Hin as [<- | []]. reflexivity.
  - destruct (Ascii.eqb c "/") eqn:Ec.
    + destruct Hin as [<- | Hin]; [reflexivity | apply IH; exact Hin].
    + destruct (Pathlib.split "/" s) as [ | y r] eqn:Es.
      * destruct Hin as [<- | []]. cbn. rewrite Ec. reflexivity.
      * destruct Hin as [<- | Hin].
        -- cbn. rewrite Ec. cbn. apply IH. left. reflexivity.
        -- apply IH. right. exact Hin.
Qed.

Lemma components_no_slash (fpath x : string) :
  In x (Pathlib.components fpath) -> has_slash x = false.
Proof.
  unfold Pathlib.components. intros Hin. apply filter_In in Hin.
  apply (split_no_slash fpath). apply Hin.
Qed.

Lemma concat_no_slash (l : list string) :
  (forall x, In x l -> has_slash x = false) ->
  has_slash (String.concat "_" l) = false.
Proof.
  induction l as [ | x l IH]; intros H; [reflexivity | ].
  destruct l as [ | y l].
  - cbn. apply H. left. reflexivity.
  - change (String.concat "_" (x :: y :: l))
      with (x ++ "_" ++ String.concat "_" (y :: l))%string.
    rewrite !has_slash_app. rewrite (H x (or_introl eq_refl)).
    rewrite IH by (intros z Hz; apply H; right; exact Hz). reflexivity.
Qed.

Lemma substring_no_slash (s : string) (n m : nat) :
  has_slash s = false -> has_slash (substring n m s) = false.
Proof.
  revert n m. induction s as [ | c s IH]; intros n m H.
  - destruct n, m; reflexivity.
  - cbn in H. apply orb_false_iff in H. destruct H as [Hc Hs].
    destruct n as [ | n].
    + destruct m as [ | m]; [reflexivity | ].
      cbn. rewrite Hc. cbn. apply IH. exact Hs.
    + cbn. apply IH. exact Hs.
Qed.

Lemma last_in {A : Type} (l : list A) (d : A) : l <> [] -> In (last l d) l.
Proof.
  induction l as [ | x l IH]; intros H; [contradiction | ].
  destruct l as [ | y l]; [left; reflexivity | ].
  right. apply IH. discriminate.
Qed.

Lemma name_no_slash (fpath : string) : has_slash (Pathlib.name fpath) = false.
Proof.
  unfold Pathlib.name.
  destruct (Pathlib.components fpath) as [ | x l] eqn:E; [reflexivity | ].
  apply (components_no_slash fpath). rewrite E.
  apply last_in. discriminate.
Qed.

Lemma stem_no_slash (fpath : string) : has_slash (Pathlib.stem fpath) = false.
Proof.
  unfold Pathlib.stem. pose proof (name_no_slash fpath) as Hn.
  destruct (Pathlib.rfind_dot (Pathlib.name fpath)) as [i | ]; [ | exact Hn].
  destruct ((0 <? i)%nat && (i <? String.length (Pathlib.name fpath) - 1)%nat);
    [apply substring_no_slash; exact Hn | exact Hn].
Qed.

Lemma relative_key_no_slash (fpath : string) (s e : Z) :
  Pathlib.root fpath = ""%string ->
  has_slash (String.concat "_" (Py.slice (Pathlib.parts fpath) s e)
             ++ "_" ++ Pathlib.stem fpath) = false.
Proof.
  intros Hroot. rewrite !has_slash_app. rewrite stem_no_slash.
  rewrite concat_no_slash; [reflexivity | ].
  intros x Hx. apply slice_incl in Hx.
  unfold Pathlib.parts in Hx. rewrite Hroot in Hx. cbn in Hx.
  apply (components_no_slash fpath). exact Hx.
Qed.

Lemma startswith_slash (s : string) :
  Accuracy.startswith "/" s = true -> has_slash s = true.
Proof.
  destruct s as [ | c s]; cbn [Accuracy.startswith has_slash]; [discriminate | ].
  rewrite andb_true_r. rewrite (Ascii.eqb_sym c "/"). intros ->. reflexivity.
Qed.

Lemma endswith_slash_app (a : string) (c : ascii) :
  Accuracy.endswith_slash (a ++ String c EmptyString) = Ascii.eqb c "/".
Proof.
  unfold Accuracy.endswith_slash.
  assert (E : list_ascii_of_string (a ++ String c EmptyString)
              = list_ascii_of_string a ++ [c]).
  { induction a as [ | x a IH]; cbn; [reflexivity | rewrite IH; reflexivity]. }
  rewrite E, rev_app_distr. reflexivity.
Qed.

Lemma string_app_assoc (a b c : string) :
  ((a ++ b) ++ c)%string = (a ++ (b ++ c))%string.
Proof.
  induction a as [ | x a IH]; cbn; [reflexivity | rewrite IH; reflexivity].
Qed.

Lemma gray_folder_open (self : Accuracy.AccuracyCalculator) :
  Accuracy.gray_folder self <> ""%string /\
  Accuracy.endswith_slash (Accuracy.gray_folder self) = false.
Proof.
  unfold Accuracy.gray_folder, Accuracy.path_join.
  cbn [Accuracy.startswith Ascii.eqb Bool.eqb andb].
  assert (H : forall a : string,
             (a ++ "gray")%string <> ""%string /\
             Accuracy.endswith_slash (a ++ "gray") = false).
  { intros a. split.
    - destruct a; discriminate.
    - change "gray"%string with ("gra" ++ "y")%string.
      rewrite <- string_app_assoc. apply endswith_slash_app. }
  destruct (String.eqb (Accuracy.save_folder self) "" ||
            Accuracy.endswith_slash (Accuracy.save_folder self)).
  - apply H.
  - rewrite <- string_app_assoc. apply H.
Qed.

Lemma join_under_gray_folder (self : Accuracy.AccuracyCalculator) (name : string) :
  has_slash name = false ->
  Accuracy.path_join (Accuracy.gray_folder self) (name ++ ".png")
  = (Accuracy.gray_folder self ++ "/" ++ name ++ ".png")%string.
Proof.
  intros Hn. unfold Accuracy.path_join.
  destruct (Accuracy.startswith "/" (name ++ ".png")) eqn:Es.
  - apply startswith_slash in Es. rewrite has_slash_app, Hn in Es. discriminate.
  - destruct (gray_folder_open self) as [Hne Hend]. rewrite Hend.
    destruct (String.eqb_spec (Accuracy.gray_folder self) "") as [E | _];
      [contradiction | reflexivity].
Qed.

(** X14.  When the image names are unique, or the path of the image is a
    relative one, the name under which [evaluate_predictions] looks the
    prediction up holds no slash, and the prediction is read from the file
    of that name, with the suffix [.png], directly in the gray folder. *)
Theorem prediction_is_read_from_gray_folder (self : Accuracy.AccuracyCalculator)
    (inputs : Accuracy.EvaluationInputs) (image_path : string) :
  Accuracy.args_img_name_unique inputs = true \/ Pathlib.root image_path = ""%string ->
  has_slash (Accuracy.image_name_of inputs image_path) = false /\
  Accuracy.path_join (Accuracy.gray_folder self)
    (Accuracy.image_name_of inputs image_path ++ ".png")
  = (Accuracy.gray_folder self ++ "/"
     ++ Accuracy.image_name_of inputs image_path ++ ".png")%string.
Proof.
  intros H.
  assert (Hn : has_slash (Accuracy.image_name_of inputs image_path) = false).
  { unfold Accuracy.image_name_of.
    destruct (Accuracy.args_img_name_unique inputs).
    - apply stem_no_slash.
    - destruct H as [H | H]; [discriminate | ].
      unfold Accuracy.get_unique_stem_from_last_k_strs.
      apply relative_key_no_slash. exact H. }
  split; [exact Hn | apply join_under_gray_folder; exact Hn].
Qed.

Lemma prediction_is_read_from_gray_folder_witness :
  has_slash (Accuracy.image_name_of
               {| Accuracy.data_list := []; Accuracy.args_vis_freq := 1;
                  Accuracy.args_img_name_unique := false |}
               "scannet/scene0000_00/color/000100.jpg") = false /\
  Accuracy.path_join (Accuracy.gray_folder stub_calculator)
    (Accuracy.image_name_of
       {| Accuracy.data_list := []; Accuracy.args_vis_freq := 1;
          Accuracy.args_img_name_unique := false |}
       "scannet/scene0000_00/color/000100.jpg" ++ ".png")
  = (Accuracy.gray_folder stub_calculator ++ "/"
     ++ Accuracy.image_name_of
          {| Accuracy.data_list := []; Accuracy.args_vis_freq := 1;
             Accuracy.args_img_name_unique := false |}
          "scannet/scene0000_00/color/000100.jpg" ++ ".png")%string.
Proof.
  apply (prediction_is_read_from_gray_folder stub_calculator
           {| Accuracy.data_list := []; Accuracy.args_vis_freq := 1;
              Accuracy.args_img_name_unique := false |}
           "scannet/scene0000_00/color/000100.jpg").
  right. reflexivity.
Defined.

Lemma root_slash (fpath : string) :
  Pathlib.root fpath <> ""%string ->
  Pathlib.root fpath = "/"%string \/ Pathlib.root fpath = "//"%string.
Proof.
  unfold Pathlib.root.
  destruct (Pathlib.leading "/" fpath) as [ | [ | [ | n]]]; intros H;
    [contradiction | left | right | left]; reflexivity.
Qed.

(** X15.  When the image names are not unique and the path of the image
    is an absolute one with at most three components below the root, the
    key starts with the root, a slash: [os.path.join] then drops the gray
    folder, and the prediction is looked up at the key itself, from the
    root of the file system. *)
Theorem prediction_of_shallow_absolute_path_leaves_gray_folder
    (self : Accuracy.AccuracyCalculator) (inputs : Accuracy.EvaluationInputs)
    (image_path : string) :
  Accuracy.args_img_name_unique inputs = false ->
  Pathlib.root image_path <> ""%string ->
  (1 <= length (Pathlib.components image_path) <= 3)%nat ->
  Accuracy.startswith "/" (Accuracy.image_name_of inputs image_path) = true /\
  Accuracy.path_join (Accuracy.gray_folder self)
    (Accuracy.image_name_of inputs image_path ++ ".png")
  = (Accuracy.image_name_of inputs image_path ++ ".png")%string.
Proof.
  intros Hu Hroot Hlen.
  assert (Hs : Accuracy.startswith "/" (Accuracy.image_name_of inputs image_path) = true).
  { unfold Accuracy.image_name_of. rewrite Hu.
    unfold Accuracy.get_unique_stem_from_last_k_strs, Pathlib.parts, default_k.
    destruct (String.eqb_spec (Pathlib.root image_path) "") as [E | _]; [contradiction | ].
    destruct (Pathlib.components image_path) as [ | c1 [ | c2 [ | c3 [ | c4 l]]]];
      cbn in Hlen; try lia;
      destruct (root_slash image_path Hroot) as [-> | ->]; reflexivity. }
  split; [exact Hs | ].
  unfold Accuracy.path_join.
  destruct (Accuracy.image_name_of inputs image_path) as [ | c s]; [discriminate | ].
  cbn [append Accuracy.startswith] in *. rewrite Hs. reflexivity.
Qed.

Lemma prediction_of_shallow_absolute_path_leaves_gray_folder_witness :
  Accuracy.startswith "/"
    (Accuracy.image_name_of
       {| Accuracy.data_list := []; Accuracy.args_vis_freq := 1;
          Accuracy.args_img_name_unique := false |}
       "/data/000100.jpg") = true /\
  Accuracy.path_join (Accuracy.gray_folder stub_calculator)
    (Accuracy.image_name_of
       {| Accuracy.data_list := []; Accuracy.args_vis_freq := 1;
          Accuracy.args_img_name_unique := false |}
       "/data/000100.jpg" ++ ".png")
  = (Accuracy.image_name_of
       {| Accuracy.data_list := []; Accuracy.args_vis_freq := 1;
          Accuracy.args_img_name_unique := false |}
       "/data/000100.jpg" ++ ".png")%string.
Proof.
  apply (prediction_of_shallow_absolute_path_leaves_gray_folder stub_calculator
           {| Accuracy.data_list := []; Accuracy.args_vis_freq := 1;
              Accuracy.args_img_name_unique := false |}
           "/data/000100.jpg").
  - reflexivity.
  - vm_compute. discriminate.
  - vm_compute. lia.
Defined.

(* ------------------------------------------------------------------ *)
(** ** The two reports *)

Lemma collect_ext (f g : Z -> option (list Accuracy.line)) (l : list Z) :
  (forall i, In i l -> f i = g i) -> Accuracy.collect f l = Accuracy.collect g l.
Proof.
  induction l as [ | i l IH]; intros H; [reflexivity | ].
  cbn. rewrite (H i (or_introl eq_refl)).
  rewrite IH by (intros j Hj; apply H; right; exact Hj). reflexivity.
Qed.



Section Reports.

Variable train_datasets : list string.



End Reports.



(* ------------------------------------------------------------------ *)
(** ** evaluate_predictions and execute *)

Lemma div_succ (i f : Z) :
  0 <= i -> 0 < f ->
  (i + 1) / f = i / f + (if (i + 1) mod f =? 0 then 1 else 0).
Proof.
  intros Hi Hf.
  pose proof (Z.div_mod (i + 1) f ltac:(lia)) as E.
  pose proof (Z.mod_pos_bound (i + 1) f Hf) as B.
  destruct (Z.eqb_spec ((i + 1) mod f) 0) as [E0 | N0].
  - assert (H : i / f = (i + 1) / f - 1).
    { symmetry. apply (Z.div_unique i f ((i + 1) / f - 1) (f - 1)); [lia | nia]. }
    lia.
  - assert (H : i / f = (i + 1) / f).
    { symmetry. apply (Z.div_unique i f ((i + 1) / f) ((i + 1) mod f - 1)); [lia | nia]. }
    lia.
Qed.

Section Evaluation.

Variable cv2_imread : string -> option (list (list Z)).
Variable imageio_imread : string -> option (list (list Z)).
Variable update_metrics_cpu :
  Accuracy.confusion -> option (list (list Z)) -> list (list Z) -> Z -> Accuracy.confusion.
Variable train_datasets : list string.

(** X18.  In the universal taxonomy, [execute] on a list of images that
    is not empty never gets past the first image: once its label file is
    read, the conversion of the labels stops with a NameError for
    [ToFlatLabel], which the module never imports.  The meter is left as it
    was, and nothing is reported. *)
Theorem universal_evaluation_stops_at_first_image (self : Accuracy.AccuracyCalculator)
    (inputs : Accuracy.EvaluationInputs) (save_vis : bool)
    (image_path target_path : string) (rest : list (string * string)) :
  Accuracy.args_taxonomy self = "universal"%string ->
  Accuracy.data_list inputs = (image_path, target_path) :: rest ->
  Accuracy.execute cv2_imread imageio_imread update_metrics_cpu train_datasets
    self inputs save_vis
  = (inr (match imageio_imread target_path with
          | Some _ => Accuracy.Raised (NameError "ToFlatLabel")
          | None => Accuracy.ReadError target_path
          end),
     Accuracy.sam self).
Proof.
  intros Htax Hlist.
  unfold Accuracy.execute, Accuracy.evaluate_predictions. rewrite Hlist.
  cbn [Accuracy.evaluate_loop]. unfold Accuracy.evaluate_step.
  destruct (imageio_imread target_path) as [target_img | ]; [ | reflexivity].
  unfold Accuracy.convert_label_to_pred_taxonomy. rewrite Htax. reflexivity.
Qed.

(** X19.  With [args.vis_freq = 0], in a taxonomy other than the
    universal one, [evaluate_predictions] stops with a ZeroDivisionError at
    the first image, after the meter has been updated with it and before
    anything is logged or saved. *)
Theorem zero_vis_freq_raises (self : Accuracy.AccuracyCalculator)
    (inputs : Accuracy.EvaluationInputs) (save_vis : bool)
    (image_path target_path : string) (rest : list (string * string))
    (target_img : list (list Z)) (out : list Accuracy.eval_event) :
  Accuracy.args_taxonomy self <> "universal"%string ->
  Accuracy.args_vis_freq inputs = 0 ->
  Accuracy.data_list inputs = (image_path, target_path) :: rest ->
  imageio_imread target_path = Some target_img ->
  Accuracy.evaluate_predictions cv2_imread imageio_imread update_metrics_cpu
    self inputs save_vis out
  = (inr (Accuracy.Raised ZeroDivisionError),
     (update_metrics_cpu (Accuracy.sam self)
        (cv2_imread (Accuracy.path_join (Accuracy.gray_folder self)
                       (Accuracy.image_name_of inputs image_path ++ ".png")))
        target_img (Accuracy.num_eval_classes self),
      out)).
Proof.
  intros Htax Hf Hlist Hread.
  unfold Accuracy.evaluate_predictions. rewrite Hlist.
  cbn [Accuracy.evaluate_loop]. unfold Accuracy.evaluate_step.
  rewrite Hread. unfold Accuracy.convert_label_to_pred_taxonomy.
  destruct (String.eqb_spec (Accuracy.args_taxonomy self) "universal") as [E | _];
    [contradiction | ].
  rewrite Hf. reflexivity.
Qed.

Lemma evaluate_loop_completes (self : Accuracy.AccuracyCalculator)
    (inputs : Accuracy.EvaluationInputs) (save_vis : bool)
    (targets : string -> list (list Z)) (entries : list (string * string)) :
  Accuracy.args_taxonomy self <> "universal"%string ->
  0 < Accuracy.args_vis_freq inputs ->
  (forall entry, In entry entries -> imageio_imread (snd entry) = Some (targets (snd entry))) ->
  forall (i : Z) (counts : Accuracy.confusion) (out : list Accuracy.eval_event),
    0 <= i ->
    exists out',
      Accuracy.evaluate_loop cv2_imread imageio_imread update_metrics_cpu
        self inputs save_vis i entries (counts, out)
      = (inl tt, ((fold_left
           (fun counts entry =>
              update_metrics_cpu counts
                (cv2_imread (Accuracy.path_join (Accuracy.gray_folder self)
                               (Accuracy.image_name_of inputs (fst entry) ++ ".png")))
                (targets (snd entry)) (Accuracy.num_eval_classes self))
           entries counts), out ++ out')) /\
      Z.of_nat (length (filter Accuracy.is_progress out'))
      = (i + Z.of_nat (length entries)) / Accuracy.args_vis_freq inputs
        - i / Accuracy.args_vis_freq inputs /\
      Z.of_nat (length (filter Accuracy.is_save_vis out'))
      = if save_vis
        then (i + Z.of_nat (length entries)) / Accuracy.args_vis_freq inputs
             - i / Accuracy.args_vis_freq inputs
        else 0.
Proof.
  intros Htax Hf. induction entries as [ | [image_path target_path] entries IH];
    intros Hread i counts out Hi.
  - exists []. cbn [Accuracy.evaluate_loop fold_left length filter].
    rewrite app_nil_r, Z.add_0_r, Z.sub_diag. repeat split. destruct save_vis; reflexivity.
  - cbn [Accuracy.evaluate_loop]. unfold Accuracy.evaluate_step.
    pose proof (Hread (image_path, target_path) (or_introl eq_refl)) as Hr.
    cbn [snd] in Hr. rewrite Hr. cbn [fold_left fst snd].
    unfold Accuracy.convert_label_to_pred_taxonomy.
    destruct (String.eqb_spec (Accuracy.args_taxonomy self) "universal") as [E | _];
      [contradiction | ].
    destruct (Z.eqb_spec (Accuracy.args_vis_freq inputs) 0) as [E | _]; [lia | ].
    pose proof (div_succ i (Accuracy.args_vis_freq inputs) Hi Hf) as Hdiv.
    set (counts1 := update_metrics_cpu counts _ _ _).
    match goal with
    | |- context [Accuracy.evaluate_loop _ _ _ _ _ _ _ _ (counts1, ?o)] => set (out1 := o)
    end.
    destruct (IH (fun entry Hin => Hread entry (or_intror Hin)) (i + 1) counts1 out1
                ltac:(lia)) as (out' & Hrun & Hp & Hs).
    rewrite Hrun. cbn [length]. rewrite Nat2Z.inj_succ.
    replace (i + Z.succ (Z.of_nat (length entries)))
      with (i + 1 + Z.of_nat (length entries)) by lia.
    subst out1.
    destruct ((i + 1) mod Accuracy.args_vis_freq inputs =? 0); destruct save_vis;
      cbn [andb].
    + eexists (_ :: _ :: out'). rewrite <- !app_assoc. cbn [app].
      split; [reflexivity | ].
      cbn [filter Accuracy.is_progress Accuracy.is_save_vis length].
      rewrite !Nat2Z.inj_succ. lia.
    + eexists (_ :: out'). rewrite <- !app_assoc. cbn [app].
      split; [reflexivity | ].
      cbn [filter Accuracy.is_progress Accuracy.is_save_vis length].
      rewrite !Nat2Z.inj_succ. lia.
    + exists out'. split; [reflexivity | ]. lia.
    + exists out'. split; [reflexivity | ]. lia.
Qed.

(** X20.  In a taxonomy other than the universal one, with a positive
    [args.vis_freq] and label files that can all be read,
    [evaluate_predictions] completes; the meter has been updated once per
    image, in the order of the list, with the prediction looked up for the
    image and with its label image; one progress line has been logged for
    every [vis_freq] images, [len(data_list) // vis_freq] in all, and as
    many visualisations have been saved when [save_vis] is set, none
    otherwise. *)
Theorem evaluation_updates_meter_per_image (self : Accuracy.AccuracyCalculator)
    (inputs : Accuracy.EvaluationInputs) (save_vis : bool)
    (targets : string -> list (list Z)) (out : list Accuracy.eval_event) :
  Accuracy.args_taxonomy self <> "universal"%string ->
  0 < Accuracy.args_vis_freq inputs ->
  (forall entry, In entry (Accuracy.data_list inputs) ->
                 imageio_imread (snd entry) = Some (targets (snd entry))) ->
  exists out',
    Accuracy.evaluate_predictions cv2_imread imageio_imread update_metrics_cpu
      self inputs save_vis out
    = (inl tt,
       (fold_left
          (fun counts entry =>
             update_metrics_cpu counts
               (cv2_imread (Accuracy.path_join (Accuracy.gray_folder self)
                              (Accuracy.image_name_of inputs (fst entry) ++ ".png")))
               (targets (snd entry)) (Accuracy.num_eval_classes self))
          (Accuracy.data_list inputs) (Accuracy.sam self),
        out ++ out')) /\
    Z.of_nat (length (filter Accuracy.is_progress out'))
    = Z.of_nat (length (Accuracy.data_list inputs)) / Accuracy.args_vis_freq inputs /\
    Z.of_nat (length (filter Accuracy.is_save_vis out'))
    = if save_vis
      then Z.of_nat (length (Accuracy.data_list inputs)) / Accuracy.args_vis_freq inputs
      else 0.
Proof.
  intros Htax Hf Hread.
  destruct (evaluate_loop_completes self inputs save_vis targets
              (Accuracy.data_list inputs) Htax Hf Hread 0 (Accuracy.sam self) out
              ltac:(lia)) as (out' & Hrun & Hp & Hs).
  exists out'. unfold Accuracy.evaluate_predictions.
  rewrite Z.add_0_l, Zdiv_0_l, Z.sub_0_r in Hp, Hs.
  split; [exact Hrun | ]. split; [exact Hp | exact Hs].
Qed.

End Evaluation.

Lemma universal_evaluation_stops_at_first_image_witness :
  Accuracy.execute (fun _ => Some [[0]]) (fun _ => Some [[1]]) stub_update_metrics_cpu
    stub_train_datasets stub_calculator stub_inputs true
  = (inr (match (fun _ : string => Some [[1]]) "camvid/seq01/labels/0001.png"%string with
          | Some _ => Accuracy.Raised (NameError "ToFlatLabel")
          | None => Accuracy.ReadError "camvid/seq01/labels/0001.png"
          end),
     Accuracy.sam stub_calculator).
Proof.
  apply (universal_evaluation_stops_at_first_image (fun _ => Some [[0]])
           (fun _ => Some [[1]]) stub_update_metrics_cpu stub_train_datasets
           stub_calculator stub_inputs true
           "camvid/seq01/images/0001.jpg" "camvid/seq01/labels/0001.png"
           (tl (Accuracy.data_list stub_inputs))).
  - reflexivity.
  - reflexivity.
Defined.

Lemma zero_vis_freq_raises_witness :
  Accuracy.evaluate_predictions (fun _ => Some [[0]]) (fun _ => Some [[1]])
    stub_update_metrics_cpu stub_calculator_test stub_inputs_zero_freq true []
  = (inr (Accuracy.Raised ZeroDivisionError),
     (stub_update_metrics_cpu (Accuracy.sam stub_calculator_test)
        ((fun _ : string => Some [[0]])
           (Accuracy.path_join (Accuracy.gray_folder stub_calculator_test)
              (Accuracy.image_name_of stub_inputs_zero_freq
                 "camvid/seq01/images/0001.jpg" ++ ".png")))
        [[1]] (Accuracy.num_eval_classes stub_calculator_test),
      [])).
Proof.
  apply (zero_vis_freq_raises (fun _ => Some [[0]]) (fun _ => Some [[1]])
           stub_update_metrics_cpu stub_calculator_test stub_inputs_zero_freq true
           "camvid/seq01/images/0001.jpg" "camvid/seq01/labels/0001.png"
           (tl (Accuracy.data_list stub_inputs)) [[1]] []).
  - vm_compute. discriminate.
  - reflexivity.
  - reflexivity.
  - reflexivity.
Defined.

Lemma evaluation_updates_meter_per_image_witness :
  exists out',
    Accuracy.evaluate_predictions (fun _ => Some [[0]]) (fun _ => Some [[1]])
      stub_update_metrics_cpu stub_calculator_test stub_inputs true []
    = (inl tt,
       (fold_left
          (fun counts entry =>
             stub_update_metrics_cpu counts
               ((fun _ : string => Some [[0]])
                  (Accuracy.path_join (Accuracy.gray_folder stub_calculator_test)
                     (Accuracy.image_name_of stub_inputs (fst entry) ++ ".png")))
               ((fun _ : string => [[1]]) (snd entry))
               (Accuracy.num_eval_classes stub_calculator_test))
          (Accuracy.data_list stub_inputs) (Accuracy.sam stub_calculator_test),
        [] ++ out')) /\
    Z.of_nat (length (filter Accuracy.is_progress out'))
    = Z.of_nat (length (Accuracy.data_list stub_inputs)) / Accuracy.args_vis_freq stub_inputs /\
    Z.of_nat (length (filter Accuracy.is_save_vis out'))
    = if true
      then Z.of_nat (length (Accuracy.data_list stub_inputs))
           / Accuracy.args_vis_freq stub_inputs
      else 0.
Proof.
  apply (evaluation_updates_meter_per_image (fun _ => Some [[0]]) (fun _ => Some [[1]])
           stub_update_metrics_cpu stub_calculator_test stub_inputs true
           (fun _ => [[1]]) []).
  - vm_compute. discriminate.
  - reflexivity.
  - intros entry _. reflexivity.
Defined.

(** The run of the three stub images: the meter has counted them, one
    progress line and one visualisation have been put out, for the second
    image. *)
Example evaluation_of_stub_inputs :
  Accuracy.evaluate_predictions (fun _ => Some [[0]]) (fun _ => Some [[1]])
    stub_update_metrics_cpu stub_calculator_test stub_inputs true []
  = (inl tt,
     ([[3; 1]; [3; 5]],
      [Accuracy.LogProgress 2 3 "camvid_seq01_images_0002.png" [[3; 1]; [2; 4]];
       Accuracy.SaveVis "camvid/seq01/images/0002.jpg" (Some [[0]]) [[1]]
         "out/rgb_mask_predictions/camvid_seq01_images_0002.png"])).
Proof. vm_compute. reflexivity. Qed.

(* ------------------------------------------------------------------ *)
(** ** Images no larger than the crop, and the lines of results.txt *)

Lemma ceil_div_zero (b : Z) : ceil_div 0 b = 0.
Proof. unfold ceil_div. change (- 0) with 0. rewrite Zdiv_0_l. reflexivity. Qed.

Lemma slice2_all {A} (h w : Z) (a : list (list A)) :
  shaped h w a -> slice2 a 0 h 0 w = a.
Proof.
  intros [Hh Hw]. unfold slice2, height in *. subst h. rewrite slice_all.
  rewrite <- (map_id a) at 2. apply map_ext_in. intros row Hin.
  rewrite Forall_forall in Hw. rewrite <- (Hw row Hin). apply slice_all.
Qed.

(** X21.  An image that is no larger than the crop on both axes is
    processed as a single tile: after the padding the grid is 1 x 1
    whatever the non-zero strides, and the one crop given to the network is
    the whole padded image. *)
Theorem small_image_is_one_tile (img : image) (mean : pixel)
    (crop_h crop_w : Z) (stride_rate : Q) :
  let padded := fst (fst (pad_to_crop_sz img crop_h crop_w mean)) in
  let stride_h := stride_of crop_h stride_rate in
  let stride_w := stride_of crop_w stride_rate in
  1 <= crop_h -> 1 <= crop_w ->
  height img <= crop_h -> width img <= crop_w ->
  stride_h <> 0 -> stride_w <> 0 ->
  shaped (height img) (width img) img ->
  grid_of (height padded) crop_h stride_h = Some 1 /\
  grid_of (width padded) crop_w stride_w = Some 1 /\
  tiles crop_h crop_w (height padded) (width padded) stride_h stride_w 1 1
  = [Tile 0 crop_h 0 crop_w] /\
  slice2 padded 0 crop_h 0 crop_w = padded.
Proof.
  intros padded stride_h stride_w Hch Hcw Hh Hw Hsh Hsw Hshape.
  assert (Eh : height padded = crop_h).
  { unfold padded. rewrite pad_to_crop_sz_height. lia. }
  assert (Ew : width padded = crop_w).
  { unfold padded. rewrite pad_to_crop_sz_width by assumption. lia. }
  rewrite Eh, Ew. rewrite !grid_of_spec, !Z.sub_diag, !ceil_div_zero.
  destruct (Z.eqb_spec stride_h 0); [contradiction | ].
  destruct (Z.eqb_spec stride_w 0); [contradiction | ].
  split; [reflexivity | ]. split; [reflexivity | ]. split.
  - unfold tiles, tile_at.
    change (Py.range 1) with [0]. cbn [map flat_map app].
    f_equal. f_equal; lia.
  - apply slice2_all. rewrite <- Eh at 1. rewrite <- Ew at 1.
    apply (pad_to_crop_sz_shaped img crop_h crop_w mean Hch Hshape).
Qed.

Lemma small_image_is_one_tile_witness :
  let padded := fst (fst (pad_to_crop_sz stub_image 4 5 [0%R; 0%R])) in
  grid_of (height padded) 4 (stride_of 4 (2 # 3)) = Some 1 /\
  grid_of (width padded) 5 (stride_of 5 (2 # 3)) = Some 1 /\
  tiles 4 5 (height padded) (width padded) (stride_of 4 (2 # 3)) (stride_of 5 (2 # 3)) 1 1
  = [Tile 0 4 0 5] /\
  slice2 padded 0 4 0 5 = padded.
Proof.
  apply (small_image_is_one_tile stub_image [0%R; 0%R] 4 5 (2 # 3)).
  - lia.
  - lia.
  - vm_compute. discriminate.
  - vm_compute. discriminate.
  - vm_compute. discriminate.
  - vm_compute. discriminate.
  - exact stub_image_shaped.
Defined.

(* ---- the lines of results.txt ---- *)

Lemma collect_singletons (f : Z -> option Accuracy.line) (l : list Z)
    (lines : list Accuracy.line) :
  Accuracy.collect (fun i => option_map (fun x => [x]) (f i)) l = Some lines ->
  map f l = map Some lines.
Proof.
  revert lines. induction l as [ | i l IH]; intros lines H; cbn in H.
  - injection H as <-. reflexivity.
  - destruct (f i) as [x | ] eqn:Ef; cbn in H; [ | discriminate].
    destruct (Accuracy.collect _ l) as [r | ]; [ | discriminate].
    injection H as <-. cbn. rewrite Ef, (IH r eq_refl). reflexivity.
Qed.

Lemma nth_error_range (n i : Z) :
  0 <= i < n -> nth_error (Py.range n) (Z.to_nat i) = Some i.
Proof.
  intros Hi. unfold Py.range. rewrite nth_error_map.
  rewrite nth_error_seq. destruct (Nat.ltb_spec (Z.to_nat i) (Z.to_nat n)); [ | lia].
  cbn. f_equal. lia.
Qed.

(** X22.  In a taxonomy other than the universal one, a
    [dump_acc_results_to_file] that completes writes the line of the mean
    metrics and then one line per class to evaluate, in the order of the
    class ids: the line of the class [i] carries [i], the scores of index
    [i] and the class name of index [i]. *)
Theorem dump_writes_one_line_per_class (self : Accuracy.AccuracyCalculator)
    (written : list Accuracy.line) :
  Accuracy.args_taxonomy self <> "universal"%string ->
  Accuracy.dump_acc_results_to_file self = Some written ->
  let m := Accuracy.get_metrics (Accuracy.sam self) false [] in
  length written = S (Z.to_nat (Accuracy.num_eval_classes self)) /\
  nth_error written 0 = Some (Accuracy.EvalResult (Accuracy.mIoU m) (Accuracy.mAcc m)
                                (Accuracy.allAcc m)) /\
  forall i, 0 <= i < Accuracy.num_eval_classes self ->
    exists iou acc name,
      nth_error written (S (Z.to_nat i)) = Some (Accuracy.ClassResult i iou acc name) /\
      Accuracy.index (Accuracy.m_iou_class m) i = Some iou /\
      Accuracy.index (Accuracy.m_accuracy_class m) i = Some acc /\
      Accuracy.index (Accuracy.class_names self) i = Some name.
Proof.
  intros Htax Hdump m.
  unfold Accuracy.dump_acc_results_to_file, Accuracy.dump_metrics in Hdump.
  destruct (String.eqb_spec (Accuracy.args_taxonomy self) "universal") as [E | _];
    [contradiction | ].
  fold m in Hdump.
  destruct (Accuracy.collect _ (Py.range (Accuracy.num_eval_classes self)))
    as [per_class | ] eqn:Ec; [ | discriminate].
  injection Hdump as <-.
  apply collect_singletons in Ec.
  assert (Hlen : length per_class = Z.to_nat (Accuracy.num_eval_classes self)).
  { apply (f_equal (@length _)) in Ec. rewrite !length_map in Ec.
    unfold Py.range in Ec. rewrite length_map, length_seq in Ec. lia. }
  split; [cbn [length]; rewrite Hlen; reflexivity | ].
  split; [reflexivity | ].
  intros i Hi. cbn [nth_error].
  apply (f_equal (fun l => nth_error l (Z.to_nat i))) in Ec.
  rewrite !nth_error_map, (nth_error_range _ _ Hi) in Ec. cbn [option_map] in Ec.
  destruct (nth_error per_class (Z.to_nat i)) as [x | ] eqn:Ex; [ | discriminate].
  cbn in Ec. injection Ec as Ec.
  unfold Accuracy.class_result in Ec.
  destruct (Accuracy.index (Accuracy.m_iou_class m) i) as [iou | ]; [ | discriminate].
  destruct (Accuracy.index (Accuracy.m_accuracy_class m) i) as [acc | ]; [ | discriminate].
  destruct (Accuracy.index (Accuracy.class_names self) i) as [name | ]; [ | discriminate].
  injection Ec as <-. exists iou, acc, name. repeat split; reflexivity.
Qed.

Lemma dump_writes_one_line_per_class_witness :
  exists written,
    Accuracy.dump_acc_results_to_file stub_calculator_test = Some written /\
    let m := Accuracy.get_metrics (Accuracy.sam stub_calculator_test) false [] in
    length written = S (Z.to_nat (Accuracy.num_eval_classes stub_calculator_test)) /\
    nth_error written 0 = Some (Accuracy.EvalResult (Accuracy.mIoU m) (Accuracy.mAcc m)
                                  (Accuracy.allAcc m)) /\
    forall i, 0 <= i < Accuracy.num_eval_classes stub_calculator_test ->
      exists iou acc name,
        nth_error written (S (Z.to_nat i)) = Some (Accuracy.ClassResult i iou acc name) /\
        Accuracy.index (Accuracy.m_iou_class m) i = Some iou /\
        Accuracy.index (Accuracy.m_accuracy_class m) i = Some acc /\
        Accuracy.index (Accuracy.class_names stub_calculator_test) i = Some name.
Proof.
  eexists. split.
  - vm_compute. reflexivity.
  - apply (dump_writes_one_line_per_class stub_calculator_test).
    + vm_compute. discriminate.
    + vm_compute. reflexivity.
Defined.

(* ------------------------------------------------------------------ *)
(** ** The score buffer of the tile loop *)

Lemma get_nth {A} (l : list A) (i : Z) (d : A) :
  0 <= i < Z.of_nat (length l) -> Py.get l i = Some (nth (Z.to_nat i) l d).
Proof.
  intros Hi. unfold Py.get. destruct (Z.ltb_spec i 0); [lia | ].
  apply nth_error_nth'. lia.
Qed.











Section TileSum.

Variable model : tensor4 -> tensor4.
Variable normalize_img : tensor3 -> tensor3.
Variable mean : pixel.
Variable transform_predictions_test : tensor4 -> string -> tensor4.
Variable transform_predictions_universal : tensor4 -> string -> tensor4.


End TileSum.


(* ------------------------------------------------------------------ *)
(** ** The mean over the tiles *)








Section TileMean.

Variable model : tensor4 -> tensor4.
Variable normalize_img : tensor3 -> tensor3.
Variable mean : pixel.
Variable transform_predictions_test : tensor4 -> string -> tensor4.
Variable transform_predictions_universal : tensor4 -> string -> tensor4.
Variable cv2_resize : image -> Z -> Z -> image.


End TileMean.


(* ------------------------------------------------------------------ *)
(** ** The stride and the grid in binary64 *)

(** The binary64 operations of the stride and of the grid, against the
    numbers they stand for.  The facts on rounding are proved from the
    specification [SpecFloat] of the primitive floats. *)

Module Float64Facts.

Import SpecFloat.

Lemma digits2_pos_size (p : positive) : digits2_pos p = Pos.size p.
Proof. induction p as [p IH | p IH | ]; cbn; [rewrite IH | rewrite IH | ]; reflexivity. Qed.

(** The number of bits of a positive number. *)
Lemma digits2_pos_log2 (p : positive) : Z.pos (digits2_pos p) = Z.log2 (Z.pos p) + 1.
Proof.
  rewrite digits2_pos_size. destruct p as [p | p | ]; cbn [Z.log2 Pos.size]; lia.
Qed.

Lemma iter_xO_pow (p k : positive) : Z.pos (Pos.iter xO p k) = Z.pos p * 2 ^ Z.pos k.
Proof.
  induction k as [ | k IH] using Pos.peano_ind.
  - cbn. lia.
  - rewrite Pos.iter_succ, Pos2Z.inj_succ, Z.pow_succ_r by lia.
    rewrite Pos2Z.inj_xO, IH. lia.
Qed.

Lemma log2_iter_xO (p k : positive) :
  Z.log2 (Z.pos (Pos.iter xO p k)) = Z.pos k + Z.log2 (Z.pos p).
Proof. rewrite iter_xO_pow. apply Z.log2_mul_pow2; lia. Qed.

Lemma iter_pos_nat {A : Type} (f : A -> A) (k : positive) (x : A) :
  iter_pos f k x = Nat.iter (Pos.to_nat k) f x.
Proof.
  revert x. induction k as [k IH | k IH | ]; intros x; cbn [iter_pos].
  - rewrite !IH, Pos2Nat.inj_xI. cbn [Nat.mul]. rewrite Nat.add_0_r.
    rewrite Nat.iter_succ_r, Nat.iter_add. reflexivity.
  - rewrite !IH, Pos2Nat.inj_xO. cbn [Nat.mul]. rewrite Nat.add_0_r.
    rewrite Nat.iter_add. reflexivity.
  - reflexivity.
Qed.

(** Shifting out [k] zero bits loses nothing. *)
Lemma shr_exact (q k : positive) :
  iter_pos shr_1 k {| shr_m := Z.pos (Pos.iter xO q k); shr_r := false; shr_s := false |}
  = {| shr_m := Z.pos q; shr_r := false; shr_s := false |}.
Proof.
  rewrite iter_pos_nat, Pos2Nat.inj_iter.
  change (nat_rect (fun _ => positive) q (fun _ => xO) (Pos.to_nat k))
    with (Nat.iter (Pos.to_nat k) xO q).
  induction (Pos.to_nat k) as [ | n IH]; [reflexivity | ].
  rewrite Nat.iter_succ_r. cbn [Nat.iter nat_rect shr_1 orb]. exact IH.
Qed.

Abbreviation prec := FloatOps.prec.
Abbreviation emax := FloatOps.emax.

Lemma fexp_eq (x : Z) : fexp prec emax x = Z.max (x - 53) (-1074).
Proof. reflexivity. Qed.

(** A mantissa that has the bits of its exponent is not rounded. *)
Lemma binary_round_aux_canonical (s : bool) (m : positive) (e : Z) :
  fexp prec emax (Z.pos (digits2_pos m) + e) = e -> e <= 971 ->
  binary_round_aux prec emax s (Z.pos m) e loc_Exact = S754_finite s m e.
Proof.
  intros Hc He. unfold binary_round_aux, shr_fexp. cbn [Zdigits2 shr_record_of_loc].
  rewrite Hc, Z.sub_diag. cbn [shr shr_m loc_of_shr_record round_nearest_even].
  cbn [Zdigits2]. rewrite Hc, Z.sub_diag. cbn [shr shr_m].
  change (emax - prec) with 971.
  destruct (Z.leb_spec e 971); [reflexivity | lia].
Qed.

(** Rounding [p * 2^e] is exact when [p * 2^e = q * 2^t] for the exponent
    [t] of the format: the mantissa is shifted to the left, or to the right
    over zero bits only. *)
Lemma binary_round_exact (s : bool) (p : positive) (e : Z) (q : positive) (t : Z) :
  fexp prec emax (Z.pos (digits2_pos p) + e) = t -> t <= 971 ->
  (t <= e /\ Z.pos q = Z.pos p * 2 ^ (e - t)) \/ (e < t /\ Z.pos p = Z.pos q * 2 ^ (t - e)) ->
  binary_round prec emax s p e = S754_finite s q t.
Proof.
  intros Ht Hmax Hq. unfold binary_round, shl_align. rewrite Ht.
  rewrite fexp_eq in Ht. rewrite digits2_pos_log2 in Ht.
  destruct Hq as [[Hle Hq] | [Hlt Hq]].
  - destruct (t - e) as [ | k | k] eqn:Ek; try lia.
    + assert (E : t = e) by lia. rewrite E in Hq |- *.
      rewrite Z.sub_diag, Z.pow_0_r, Z.mul_1_r in Hq. injection Hq as ->.
      apply binary_round_aux_canonical; [ | lia].
      rewrite fexp_eq, digits2_pos_log2. lia.
    + assert (Ek' : e - t = Z.pos k) by lia. rewrite Ek' in Hq.
      rewrite <- iter_xO_pow in Hq. injection Hq as ->.
      apply binary_round_aux_canonical; [ | exact Hmax].
      rewrite fexp_eq, digits2_pos_log2, log2_iter_xO. lia.
  - destruct (t - e) as [ | k | k] eqn:Ek; try lia.
    rewrite <- iter_xO_pow in Hq. injection Hq as ->.
    unfold binary_round_aux, shr_fexp. cbn [Zdigits2 shr_record_of_loc].
    rewrite fexp_eq, digits2_pos_log2.
    rewrite log2_iter_xO in Ht |- *.
    replace (Z.max (Z.pos k + Z.log2 (Z.pos q) + 1 + e - 53) (-1074) - e)
      with (Z.pos k) by lia.
    cbn [shr]. rewrite shr_exact. cbn [shr_m loc_of_shr_record round_nearest_even].
    cbn [Zdigits2]. rewrite fexp_eq, digits2_pos_log2.
    replace (Z.max (Z.log2 (Z.pos q) + 1 + (e + Z.pos k) - 53) (-1074) - (e + Z.pos k))
      with 0 by lia.
    cbn [shr shr_m]. change (emax - prec) with 971.
    replace (e + Z.pos k) with t by lia.
    destruct (Z.leb_spec t 971); [reflexivity | lia].
Qed.

Lemma canon_mantissa (n : Z) :
  n <> 0 -> Z.abs n < 2 ^ 53 ->
  0 <= Z.log2 (Z.abs n) <= 52 /\
  Z.pos (Z.to_pos (Z.abs n * 2 ^ (52 - Z.log2 (Z.abs n))))
  = Z.abs n * 2 ^ (52 - Z.log2 (Z.abs n)).
Proof.
  intros Hn Hb.
  assert (H0 : 0 < Z.abs n) by lia.
  assert (Hl : Z.log2 (Z.abs n) < 53) by (apply Z.log2_lt_pow2; lia).
  pose proof (Z.log2_nonneg (Z.abs n)) as Hl0.
  split; [lia | ].
  rewrite Z2Pos.id; [reflexivity | ].
  apply Z.mul_pos_pos; [exact H0 | apply Z.pow_pos_nonneg; lia].
Qed.

(** An integer below [2^53] in magnitude, given with [k] more zero bits, is
    rounded to itself. *)
Lemma normalize_integer (n k : Z) (sz : bool) :
  n <> 0 -> Z.abs n < 2 ^ 53 -> 0 <= k ->
  binary_normalize prec emax (n * 2 ^ k) (- k) sz = Float64.canon n.
Proof.
  intros Hn Hb Hk.
  destruct (canon_mantissa n Hn Hb) as [Hl Hq].
  assert (Hp : 0 < 2 ^ k) by (apply Z.pow_pos_nonneg; lia).
  assert (Hgen : forall (s : bool) (p : positive),
             Z.pos p = Z.abs n * 2 ^ k -> (n <? 0) = s ->
             binary_round prec emax s p (- k) = Float64.canon n).
  { intros s p Ep Es. unfold Float64.canon. rewrite Es.
    assert (Hlog : Z.log2 (Z.pos p) = k + Z.log2 (Z.abs n))
      by (rewrite Ep; apply Z.log2_mul_pow2; lia).
    apply binary_round_exact.
    - rewrite fexp_eq, digits2_pos_log2, Hlog. lia.
    - lia.
    - rewrite Hq, Ep.
      destruct (Z_le_gt_dec (Z.log2 (Z.abs n) - 52) (- k)) as [Hle | Hgt].
      + left. split; [exact Hle | ].
        rewrite <- Z.mul_assoc, <- Z.pow_add_r by lia. do 2 f_equal. lia.
      + right. split; [lia | ].
        rewrite <- Z.mul_assoc, <- Z.pow_add_r by lia. do 2 f_equal. lia. }
  unfold binary_normalize.
  destruct (n * 2 ^ k) as [ | p | p] eqn:E.
  - nia.
  - apply Hgen; [ | apply Z.ltb_ge; nia]. rewrite Z.abs_eq by nia. nia.
  - apply Hgen; [ | apply Z.ltb_lt; nia]. rewrite Z.abs_neq by nia.
    lia.
Qed.

Lemma normalize_int (n : Z) (sz : bool) :
  n <> 0 -> Z.abs n < 2 ^ 53 -> binary_normalize prec emax n 0 sz = Float64.canon n.
Proof.
  intros Hn Hb. rewrite <- (normalize_integer n 0 sz Hn Hb) by lia.
  rewrite Z.pow_0_r, Z.mul_1_r. reflexivity.
Qed.

Lemma canon_valid (n : Z) :
  n <> 0 -> Z.abs n < 2 ^ 53 -> valid_binary prec emax (Float64.canon n) = true.
Proof.
  intros Hn Hb. destruct (canon_mantissa n Hn Hb) as [Hl Hq].
  unfold Float64.canon, valid_binary, bounded, canonical_mantissa.
  rewrite fexp_eq, digits2_pos_log2, Hq.
  rewrite Z.log2_mul_pow2 by lia.
  apply andb_true_iff. split; [apply Z.eqb_eq | apply Z.leb_le; change (emax - prec) with 971]; lia.
Qed.

Lemma SFto_int_canon (n : Z) :
  n <> 0 -> Z.abs n < 2 ^ 53 -> SFto_int (Float64.canon n) = inl n.
Proof.
  intros Hn Hb. destruct (canon_mantissa n Hn Hb) as [Hl Hq].
  unfold Float64.canon, SFto_int. f_equal.
  assert (Hs : signed (n <? 0) (Z.to_pos (Z.abs n * 2 ^ (52 - Z.log2 (Z.abs n))))
               = n * 2 ^ (52 - Z.log2 (Z.abs n))).
  { unfold signed. destruct (Z.ltb_spec n 0).
    - rewrite <- Pos2Z.opp_pos, Hq. rewrite Z.abs_neq by lia. lia.
    - rewrite Hq, Z.abs_eq by lia. reflexivity. }
  rewrite Hs.
  destruct (Z.log2 (Z.abs n) - 52) as [ | p | p] eqn:E; try lia.
  - replace (52 - Z.log2 (Z.abs n)) with 0 by lia. rewrite !Z.pow_0_r. lia.
  - replace (52 - Z.log2 (Z.abs n)) with (Z.pos p) by lia.
    apply Z.quot_mul. apply Z.pow_nonzero; lia.
Qed.

Lemma to_int_canon (n : Z) :
  n <> 0 -> Z.abs n < 2 ^ 53 -> Float64.to_int (FloatOps.SF2Prim (Float64.canon n)) = inl n.
Proof.
  intros Hn Hb. unfold Float64.to_int.
  rewrite FloatAxioms.Prim2SF_SF2Prim by (apply canon_valid; assumption).
  apply SFto_int_canon; assumption.
Qed.

Lemma Qceiling_frac (a : Z) (p : positive) :
  Qceiling (a # 2 ^ p) = - ((- a) / 2 ^ Z.pos p).
Proof.
  unfold Qceiling, Qfloor, Qopp. cbn [Qnum Qden]. rewrite Pos2Z.inj_pow. reflexivity.
Qed.

(** The mantissa of a binary64 has at most 53 bits, and has 53 of them
    when the exponent is above the least one. *)
Lemma valid_mantissa (x : PrimFloat.float) (s : bool) (m : positive) (e : Z) :
  FloatOps.Prim2SF x = S754_finite s m e ->
  Z.pos m < 2 ^ 53 /\ (- 1074 < e -> 2 ^ 52 <= Z.pos m).
Proof.
  intros E. pose proof (FloatAxioms.Prim2SF_valid x) as V. rewrite E in V.
  unfold valid_binary, bounded, canonical_mantissa in V.
  apply andb_true_iff in V. destruct V as [V _]. apply Z.eqb_eq in V.
  rewrite fexp_eq, digits2_pos_log2 in V.
  assert (H0 : 0 < Z.pos m) by lia.
  split.
  - apply Z.log2_lt_pow2; lia.
  - intros He. apply Z.log2_le_pow2; lia.
Qed.

(** The result of [np.ceil], for a ceiling below [2^53] in magnitude. *)
Lemma np_ceil_repr (x : PrimFloat.float) (v : Q) :
  Float64.value x = Some v -> Z.abs (Qceiling v) < 2 ^ 52 ->
  exists s, FloatOps.Prim2SF (Float64.np_ceil x)
            = if Qceiling v =? 0 then S754_zero s else Float64.canon (Qceiling v).
Proof.
  unfold Float64.value, Float64.np_ceil. intros Hv Hb.
  destruct (FloatOps.Prim2SF x) as [s | s | | s m e] eqn:E; try discriminate.
  - injection Hv as <-. exists s. rewrite E. reflexivity.
  - destruct (valid_mantissa x s m e E) as [Hm Hn].
    cbn [SFvalue] in Hv. injection Hv as <-.
    assert (Hsm : Z.abs (signed s m) = Z.pos m) by (destruct s; reflexivity).
    destruct e as [ | p | p].
    + rewrite Qceiling_Z, Z.pow_0_r, Z.mul_1_r in Hb. lia.
    + rewrite Qceiling_Z in Hb.
      assert (0 < 2 ^ Z.pos p) by (apply Z.pow_pos_nonneg; lia).
      rewrite Z.abs_mul, Hsm in Hb. rewrite (Z.abs_eq (2 ^ Z.pos p)) in Hb by lia. nia.
    + rewrite Qceiling_frac in Hb |- *.
      set (c := - (- signed s m / 2 ^ Z.pos p)) in *.
      exists s. destruct (Z.eqb_spec c 0) as [-> | Hc].
      * cbn [binary_normalize]. apply FloatAxioms.Prim2SF_SF2Prim. reflexivity.
      * rewrite normalize_int by lia.
        apply FloatAxioms.Prim2SF_SF2Prim. apply canon_valid; lia.
Qed.

(** [int(np.ceil(x))] is the ceiling of the value of [x]. *)
Lemma to_int_np_ceil (x : PrimFloat.float) :
  Float64.to_int (Float64.np_ceil x)
  = match Float64.value x with
    | Some v => inl (Qceiling v)
    | None => Float64.to_int x
    end.
Proof.
  unfold Float64.value, Float64.to_int, Float64.np_ceil.
  destruct (FloatOps.Prim2SF x) as [s | s | | s m e] eqn:E; cbn [SFvalue].
  - rewrite E. reflexivity.
  - rewrite E. reflexivity.
  - rewrite E. reflexivity.
  - destruct (valid_mantissa x s m e E) as [Hm _].
    assert (Hsm : Z.abs (signed s m) = Z.pos m) by (destruct s; reflexivity).
    destruct e as [ | p | p].
    + rewrite E, Qceiling_Z. reflexivity.
    + rewrite E, Qceiling_Z. reflexivity.
    + rewrite Qceiling_frac.
      set (c := - (- signed s m / 2 ^ Z.pos p)).
      assert (Hc : Z.abs c <= 2 ^ 52).
      { assert (Hp : 2 <= 2 ^ Z.pos p).
        { change 2 with (2 ^ 1) at 1. apply Z.pow_le_mono_r; lia. }
        pose proof (Z.div_mod (- signed s m) (2 ^ Z.pos p) ltac:(lia)) as Hd.
        pose proof (Z.mod_pos_bound (- signed s m) (2 ^ Z.pos p) ltac:(lia)) as Hr.
        change (2 ^ 53) with (2 * 2 ^ 52) in Hm. subst c. nia. }
      destruct (Z.eq_dec c 0) as [-> | Hn].
      * cbn [binary_normalize].
        rewrite FloatAxioms.Prim2SF_SF2Prim by reflexivity. reflexivity.
      * rewrite normalize_int by (change (2 ^ 53) with (2 * 2 ^ 52); lia).
        apply to_int_canon; [exact Hn | change (2 ^ 53) with (2 * 2 ^ 52); lia].
Qed.

Lemma shl_align_fst (m : positive) (ex ex' : Z) :
  ex' <= ex -> Z.pos (fst (shl_align m ex ex')) = Z.pos m * 2 ^ (ex - ex').
Proof.
  intros H. unfold shl_align.
  destruct (ex' - ex) as [ | k | k] eqn:E; try lia.
  - replace (ex - ex') with 0 by lia. cbn [fst]. lia.
  - cbn [fst]. rewrite iter_xO_pow. replace (ex - ex') with (Z.pos k) by lia. reflexivity.
Qed.

(** Adding 1 to a binary64 integer below [2^52] in magnitude is exact. *)
Lemma add_one_exact (x : PrimFloat.float) (s : bool) (c : Z) :
  Z.abs c < 2 ^ 52 ->
  FloatOps.Prim2SF x = (if c =? 0 then S754_zero s else Float64.canon c) ->
  Float64.to_int (PrimFloat.add x PrimFloat.one) = inl (c + 1).
Proof.
  intros Hb Hx. unfold Float64.to_int. rewrite FloatAxioms.add_spec, Hx.
  change (FloatOps.Prim2SF PrimFloat.one) with (S754_finite false 4503599627370496 (-52)).
  destruct (Z.eqb_spec c 0) as [-> | Hc]; [reflexivity | ].
  assert (Hb3 : Z.abs c < 2 ^ 53) by (change (2 ^ 53) with (2 * 2 ^ 52); lia).
  destruct (canon_mantissa c Hc Hb3) as [Hl Hq].
  unfold Float64.canon, FloatAxioms.SF64add, SFadd.
  set (q := Z.to_pos (Z.abs c * 2 ^ (52 - Z.log2 (Z.abs c)))) in *.
  set (t := Z.log2 (Z.abs c) - 52).
  replace (Z.min t (-52)) with (-52) by lia.
  rewrite shl_align_fst by lia. rewrite shl_align_fst by lia.
  assert (E : SpecFloat.cond_Zopp (c <? 0) (Z.pos q * 2 ^ (t - -52))
              + SpecFloat.cond_Zopp false (4503599627370496 * 2 ^ (-52 - -52))
              = (c + 1) * 2 ^ 52).
  { rewrite Hq. unfold t.
    rewrite <- Z.mul_assoc, <- Z.pow_add_r by lia.
    replace (52 - Z.log2 (Z.abs c) + (Z.log2 (Z.abs c) - 52 - -52)) with 52 by lia.
    change (2 ^ (-52 - -52)) with 1. change 4503599627370496 with (2 ^ 52).
    unfold SpecFloat.cond_Zopp. destruct (Z.ltb_spec c 0); lia. }
  rewrite E. clear E.
  destruct (Z.eq_dec (c + 1) 0) as [E0 | N0].
  - rewrite E0. reflexivity.
  - pose proof (normalize_integer (c + 1) 52 false N0) as Hn.
    cbn [Z.opp] in Hn. rewrite Hn by (change (2 ^ 53) with (2 * 2 ^ 52); lia).
    apply SFto_int_canon; [exact N0 | change (2 ^ 53) with (2 * 2 ^ 52); lia].
Qed.

(** [int(np.ceil(x) + 1)] is the ceiling of the value of [x], plus one,
    when that ceiling is below [2^52] in magnitude. *)
Lemma to_int_np_ceil_plus_one (x : PrimFloat.float) (v : Q) :
  Float64.value x = Some v -> Z.abs (Qceiling v) < 2 ^ 52 ->
  Float64.to_int (PrimFloat.add (Float64.np_ceil x) PrimFloat.one) = inl (Qceiling v + 1).
Proof.
  intros Hv Hb. destruct (np_ceil_repr x v Hv Hb) as [s Hs].
  apply (add_one_exact _ s); assumption.
Qed.

(** [float(z)] is exact below [2^53]. *)
Lemma of_int_exact (z : Z) :
  Z.abs z < 2 ^ 53 ->
  exists f,
    Float64.of_int z = Some f /\ Float64.to_int f = inl z /\
    (z <> 0 -> FloatOps.Prim2SF f = Float64.canon z).
Proof.
  intros Hb. unfold Float64.of_int. destruct (Z.eq_dec z 0) as [-> | Hz].
  - eexists. split; [reflexivity | ]. split; [reflexivity | congruence].
  - rewrite normalize_int by assumption. unfold Float64.canon at 1.
    eexists. split; [reflexivity | ].
    fold (Float64.canon z). split; [apply to_int_canon; assumption | intros _].
    apply FloatAxioms.Prim2SF_SF2Prim, canon_valid; assumption.
Qed.

End Float64Facts.

Lemma value_none_to_int (x : PrimFloat.float) :
  Float64.value x = None -> exists e, Float64.to_int x = inr e.
Proof.
  unfold Float64.value, Float64.to_int.
  destruct (FloatOps.Prim2SF x); cbn; try discriminate; intros _; eexists; reflexivity.
Qed.

Lemma value_none_plus_one (x : PrimFloat.float) :
  Float64.value x = None ->
  exists e, Float64.to_int (PrimFloat.add (Float64.np_ceil x) PrimFloat.one) = inr e.
Proof.
  unfold Float64.value, Float64.to_int, Float64.np_ceil. intros Hv.
  destruct (FloatOps.Prim2SF x) as [s | s | | s m e] eqn:E; try discriminate.
  - rewrite FloatAxioms.add_spec, E. eexists. reflexivity.
  - rewrite FloatAxioms.add_spec, E. eexists. reflexivity.
Qed.

(** The stride of the source is the ceiling of the binary64 product of the
    crop size and the stride rate. *)
Lemma stride_of_spec (crop : Z) (stride_rate : PrimFloat.float) (stride : Z) :
  Float64.stride_of crop stride_rate = inl stride <->
  exists c v,
    Float64.of_int crop = Some c /\
    Float64.value (PrimFloat.mul c stride_rate) = Some v /\
    stride = Qceiling v.
Proof.
  unfold Float64.stride_of. split.
  - destruct (Float64.of_int crop) as [c | ]; [ | discriminate].
    rewrite Float64Facts.to_int_np_ceil.
    destruct (Float64.value (PrimFloat.mul c stride_rate)) as [v | ] eqn:Ev.
    + intros H. injection H as <-. exists c, v. auto.
    + intros H. destruct (value_none_to_int _ Ev) as [e He]. congruence.
  - intros (c & v & -> & Hv & ->). rewrite Float64Facts.to_int_np_ceil, Hv. reflexivity.
Qed.

(** The grid of the source is the ceiling of the binary64 quotient of the
    room left by the crop and the stride, plus one. *)
Lemma binary64_grid_of_spec (new crop stride grid : Z) :
  Float64.grid_of new crop stride = inl grid ->
  stride <> 0 /\
  exists a b v,
    Float64.of_int (new - crop) = Some a /\
    Float64.of_int stride = Some b /\
    Float64.value (PrimFloat.div a b) = Some v /\
    (Z.abs (Qceiling v) < 2 ^ 52 -> grid = Qceiling v + 1).
Proof.
  unfold Float64.grid_of.
  destruct (Float64.of_int (new - crop)) as [a | ]; [ | discriminate].
  destruct (Float64.of_int stride) as [b | ]; [ | discriminate].
  destruct (Z.eqb_spec stride 0) as [ | Hs]; [discriminate | ].
  intros H. split; [exact Hs | ]. exists a, b.
  destruct (Float64.value (PrimFloat.div a b)) as [v | ] eqn:Ev.
  - exists v. split; [reflexivity | ]. split; [reflexivity | ]. split; [reflexivity | ].
    intros Hb. rewrite (Float64Facts.to_int_np_ceil_plus_one _ v Ev Hb) in H.
    injection H as <-. reflexivity.
  - destruct (value_none_plus_one _ Ev) as [e He]. congruence.
Qed.

(** An integer below [2^53] in magnitude is a binary64. *)
Lemma value_of_int (z : Z) :
  Z.abs z < 2 ^ 53 ->
  exists f v, Float64.of_int z = Some f /\ Float64.value f = Some v /\ (v == inject_Z z)%Q.
Proof.
  intros Hb. destruct (Z.eq_dec z 0) as [-> | Hz].
  - eexists _, _. split; [reflexivity | ]. split; reflexivity.
  - destruct (Float64Facts.of_int_exact z Hb) as (f & Hf & _ & Hr).
    specialize (Hr Hz).
    destruct (Float64Facts.canon_mantissa z Hz Hb) as [Hl Hq].
    exists f. unfold Float64.value. rewrite Hr. unfold Float64.canon, SFvalue.
    eexists. split; [exact Hf | ]. split; [reflexivity | ].
    assert (Hs : signed (z <? 0) (Z.to_pos (Z.abs z * 2 ^ (52 - Z.log2 (Z.abs z))))
                 = z * 2 ^ (52 - Z.log2 (Z.abs z))).
    { unfold signed. destruct (Z.ltb_spec z 0).
      - rewrite <- Pos2Z.opp_pos, Hq. rewrite Z.abs_neq by lia. lia.
      - rewrite Hq, Z.abs_eq by lia. reflexivity. }
    rewrite Hs.
    destruct (Z.log2 (Z.abs z) - 52) as [ | p | p] eqn:E; try lia.
    + replace (52 - Z.log2 (Z.abs z)) with 0 by lia.
      rewrite !Z.pow_0_r, !Z.mul_1_r. reflexivity.
    + replace (52 - Z.log2 (Z.abs z)) with (Z.pos p) by lia.
      unfold Qeq. cbn [Qnum Qden inject_Z]. rewrite Pos2Z.inj_pow. lia.
Qed.

Section Binary64Run.

Variable model : tensor4 -> tensor4.
Variable normalize_img : tensor3 -> tensor3.
Variable mean : pixel.
Variable transform_predictions_test : tensor4 -> string -> tensor4.
Variable transform_predictions_universal : tensor4 -> string -> tensor4.

(** A completed run of the tile loops for a binary64 stride rate: the
    strides and the grid are the binary64 ones, the network has been run
    once on every tile of the grid, in row-major order, and the coverage
    buffer has counted the tiles. *)
Lemma binary64_run (self : InferenceTask) (img : image)
    (stride_rate : option PrimFloat.float) (tr : trace)
    (prediction_crop : tensor3) (count_crop : list (list Z)) (tr' : trace) :
  Binary64.scale_process_tiles model normalize_img mean transform_predictions_test
    transform_predictions_universal self img stride_rate tr
  = (inl (prediction_crop, count_crop), tr') ->
  let padded := fst (fst (pad_to_crop_sz img (crop_h self) (crop_w self) mean)) in
  let rate := Binary64.stride_rate_of stride_rate in
  exists stride_h stride_w grid_h grid_w,
    Float64.stride_of (crop_h self) rate = inl stride_h /\
    Float64.stride_of (crop_w self) rate = inl stride_w /\
    Float64.grid_of (height padded) (crop_h self) stride_h = inl grid_h /\
    Float64.grid_of (width padded) (crop_w self) stride_w = inl grid_w /\
    let ts := tiles (crop_h self) (crop_w self) (height padded) (width padded)
                    stride_h stride_w grid_h grid_w in
    length ts = (Z.to_nat grid_h * Z.to_nat grid_w)%nat /\
    tr' = tr ++ map (fun t => EvForward (net_input normalize_img
                                          (slice2 padded (s_h t) (e_h t) (s_w t) (e_w t))
                                          true))
                    ts /\
    count_crop = count_tiles (full2 (height padded) (width padded) 0) ts.
Proof.
  intros Hrun padded rate. unfold Binary64.scale_process_tiles in Hrun.
  fold rate in Hrun. cbv zeta in Hrun. subst padded.
  destruct (pad_to_crop_sz img (crop_h self) (crop_w self) mean) as [[img' ph] pw].
  cbn [fst]. unfold bind, lift_sum in Hrun.
  destruct (Float64.stride_of (crop_h self) rate) as [stride_h | ] eqn:Esh;
    [ | discriminate].
  destruct (Float64.stride_of (crop_w self) rate) as [stride_w | ] eqn:Esw;
    [ | discriminate].
  destruct (Float64.grid_of (height img') (crop_h self) stride_h) as [grid_h | ] eqn:Egh;
    [ | discriminate].
  destruct (Float64.grid_of (width img') (crop_w self) stride_w) as [grid_w | ] eqn:Egw;
    [ | discriminate].
  exists stride_h, stride_w, grid_h, grid_w.
  split; [reflexivity | ]. split; [reflexivity | ].
  split; [exact Egh | ]. split; [exact Egw | ].
  split; [apply tiles_length | ].
  unfold tile_loop in Hrun. split.
  - eapply tile_loop_trace. exact Hrun.
  - eapply tile_loop_count. exact Hrun.
Qed.

(** With the strides and the grid of the exact computation, the run for a
    binary64 stride rate is the run of [scale_process_tiles]. *)
Lemma binary64_run_of_exact_stride (self : InferenceTask) (img : image)
    (stride_rate : option PrimFloat.float) (rate : Q) (tr : trace) :
  let rate64 := Binary64.stride_rate_of stride_rate in
  let padded := fst (fst (pad_to_crop_sz img (crop_h self) (crop_w self) mean)) in
  let exact (o : option Z) : Z + exn :=
    match o with Some g => inl g | None => inr ZeroDivisionError end in
  Float64.stride_of (crop_h self) rate64 = inl (stride_of (crop_h self) rate) ->
  Float64.stride_of (crop_w self) rate64 = inl (stride_of (crop_w self) rate) ->
  Float64.grid_of (height padded) (crop_h self) (stride_of (crop_h self) rate)
  = exact (grid_of (height padded) (crop_h self) (stride_of (crop_h self) rate)) ->
  Float64.grid_of (width padded) (crop_w self) (stride_of (crop_w self) rate)
  = exact (grid_of (width padded) (crop_w self) (stride_of (crop_w self) rate)) ->
  Binary64.scale_process_tiles model normalize_img mean transform_predictions_test
    transform_predictions_universal self img stride_rate tr
  = scale_process_tiles model normalize_img mean transform_predictions_test
      transform_predictions_universal self img rate tr.
Proof.
  intros rate64 padded exact Hsh Hsw Hgh Hgw.
  unfold Binary64.scale_process_tiles, scale_process_tiles. fold rate64. cbv zeta.
  subst padded.
  destruct (pad_to_crop_sz img (crop_h self) (crop_w self) mean) as [[img' ph] pw].
  cbn [fst] in Hgh, Hgw. unfold bind, lift_sum. rewrite Hsh, Hsw, Hgh, Hgw.
  subst exact. cbv beta.
  destruct (grid_of (height img') (crop_h self) (stride_of (crop_h self) rate)) as [gh | ];
    [ | reflexivity].
  cbn [lift_opt]. unfold ret at 1.
  destruct (grid_of (width img') (crop_w self) (stride_of (crop_w self) rate)) as [gw | ];
    reflexivity.
Qed.

End Binary64Run.

Lemma pad_to_crop_sz_large {A : Type} (img : list (list A)) (crop_h crop_w : Z) (mean : A) :
  crop_h <= height img -> crop_w <= width img ->
  pad_to_crop_sz img crop_h crop_w mean = (img, 0, 0).
Proof.
  intros Hh Hw. unfold pad_to_crop_sz.
  replace (Z.max (crop_h - height img) 0) with 0 by lia.
  replace (Z.max (crop_w - width img) 0) with 0 by lia.
  reflexivity.
Qed.

(** C3.  [scale_process_cuda] computes the stride and the grid in
    binary64.  The stride is the ceiling of the binary64 product of the
    crop size and [stride_rate]; the grid is the ceiling of the binary64
    quotient of the padded size less the crop size by the stride, plus one
    (the ceiling being below [2^52]); sizes below [2^53] are binary64
    numbers.  Every completed run of the tile loops has visited the tiles
    of that grid, once each and in row-major order, and counted them in the
    coverage buffer.  A [stride_rate] left out is the binary64 nearest to
    2/3, which gives the stride [ceil(2 * crop / 3)] for the crop sizes
    below 1024.  For an 8x8 image, a 4x4 crop and the stride rate 0.5 the
    stride is 2 and the grid is 3 per axis: a completed run has made its 9
    forward passes on the tiles at the offsets 0, 2 and 4 of each axis, and
    every pixel of the 8x8 region lies in at least one of them. *)
Theorem stride_and_grid :
  (forall crop stride_rate stride,
      Float64.stride_of crop stride_rate = inl stride <->
      exists c v,
        Float64.of_int crop = Some c /\
        Float64.value (PrimFloat.mul c stride_rate) = Some v /\
        stride = Qceiling v) /\
  (forall new crop stride grid,
      Float64.grid_of new crop stride = inl grid ->
      stride <> 0 /\
      exists a b v,
        Float64.of_int (new - crop) = Some a /\
        Float64.of_int stride = Some b /\
        Float64.value (PrimFloat.div a b) = Some v /\
        (Z.abs (Qceiling v) < 2 ^ 52 -> grid = Qceiling v + 1)) /\
  (forall z,
      Z.abs z < 2 ^ 53 ->
      exists f v,
        Float64.of_int z = Some f /\ Float64.value f = Some v /\ (v == inject_Z z)%Q) /\
  (forall model normalize_img mean tp_test tp_universal self img stride_rate
          tr prediction_crop count_crop tr',
      Binary64.scale_process_tiles model normalize_img mean tp_test tp_universal
        self img stride_rate tr
      = (inl (prediction_crop, count_crop), tr') ->
      let padded := fst (fst (pad_to_crop_sz img (crop_h self) (crop_w self) mean)) in
      let rate := Binary64.stride_rate_of stride_rate in
      exists stride_h stride_w grid_h grid_w,
        Float64.stride_of (crop_h self) rate = inl stride_h /\
        Float64.stride_of (crop_w self) rate = inl stride_w /\
        Float64.grid_of (height padded) (crop_h self) stride_h = inl grid_h /\
        Float64.grid_of (width padded) (crop_w self) stride_w = inl grid_w /\
        let ts := tiles (crop_h self) (crop_w self) (height padded) (width padded)
                        stride_h stride_w grid_h grid_w in
        length ts = (Z.to_nat grid_h * Z.to_nat grid_w)%nat /\
        tr' = tr ++ map (fun t => EvForward (net_input normalize_img
                                              (slice2 padded (s_h t) (e_h t) (s_w t) (e_w t))
                                              true))
                        ts /\
        count_crop = count_tiles (full2 (height padded) (width padded) 0) ts) /\
  (Float64.value (Binary64.stride_rate_of None)
   = Some (6004799503160661 # 9007199254740992) /\
   ((2 # 3) - (6004799503160661 # 9007199254740992) == 1 # 27021597764222976)%Q /\
   forall crop, 0 <= crop < 1024 ->
     Float64.stride_of crop (Binary64.stride_rate_of None) = inl (ceil_div (2 * crop) 3)) /\
  (forall model normalize_img mean tp_test tp_universal self img
          tr prediction_crop count_crop tr',
      crop_h self = 4 -> crop_w self = 4 -> height img = 8 -> width img = 8 ->
      Binary64.scale_process_tiles model normalize_img mean tp_test tp_universal
        self img (Some Float64.half) tr
      = (inl (prediction_crop, count_crop), tr') ->
      Float64.stride_of 4 Float64.half = inl 2 /\
      Float64.grid_of 8 4 2 = inl 3 /\
      tr' = tr ++ map (fun t => EvForward (net_input normalize_img
                                            (slice2 img (s_h t) (e_h t) (s_w t) (e_w t))
                                            true))
                      [Tile 0 4 0 4; Tile 0 4 2 6; Tile 0 4 4 8;
                       Tile 2 6 0 4; Tile 2 6 2 6; Tile 2 6 4 8;
                       Tile 4 8 0 4; Tile 4 8 2 6; Tile 4 8 4 8] /\
      count_crop = [[1; 1; 2; 2; 2; 2; 1; 1]; [1; 1; 2; 2; 2; 2; 1; 1];
                    [2; 2; 4; 4; 4; 4; 2; 2]; [2; 2; 4; 4; 4; 4; 2; 2];
                    [2; 2; 4; 4; 4; 4; 2; 2]; [2; 2; 4; 4; 4; 4; 2; 2];
                    [1; 1; 2; 2; 2; 2; 1; 1]; [1; 1; 2; 2; 2; 2; 1; 1]]).
Proof.
  split; [exact stride_of_spec | ].
  split; [exact binary64_grid_of_spec | ].
  split; [exact value_of_int | ].
  split; [exact binary64_run | ].
  split.
  - split; [vm_compute; reflexivity | ]. split; [reflexivity | ].
    intros crop Hc.
    assert (H : forallb (fun crop =>
                  Float64.agree (Float64.stride_of crop Float64.default_stride_rate)
                                (Some (ceil_div (2 * crop) 3)))
                  (Py.range 1024) = true) by (vm_compute; reflexivity).
    rewrite forallb_forall in H. specialize (H crop (proj2 (in_range 1024 crop) Hc)).
    unfold Float64.agree in H.
    cbn [Binary64.stride_rate_of].
    destruct (Float64.stride_of crop Float64.default_stride_rate) as [s | e];
      [ | discriminate].
    apply Z.eqb_eq in H. rewrite H. reflexivity.
  - intros model normalize_img mean tp_test tp_universal self img
           tr prediction_crop count_crop tr' Hch Hcw Hh Hw Hrun.
    split; [vm_compute; reflexivity | ]. split; [vm_compute; reflexivity | ].
    destruct (binary64_run _ _ _ _ _ _ _ _ _ _ _ _ Hrun)
      as (stride_h & stride_w & grid_h & grid_w & Hsh & Hsw & Hgh & Hgw & _ & Htr & Hcnt).
    cbn [Binary64.stride_rate_of] in Hsh, Hsw. rewrite Hch, Hcw in *.
    rewrite (pad_to_crop_sz_large img 4 4 mean) in * by lia.
    cbn [fst] in *. rewrite Hh, Hw in *.
    assert (E2 : Float64.stride_of 4 Float64.half = inl 2) by (vm_compute; reflexivity).
    rewrite E2 in Hsh, Hsw. injection Hsh as <-. injection Hsw as <-.
    assert (E3 : Float64.grid_of 8 4 2 = inl 3) by (vm_compute; reflexivity).
    rewrite E3 in Hgh, Hgw. injection Hgh as <-. injection Hgw as <-.
    split; [exact Htr | exact Hcnt].
Qed.

Lemma stride_and_grid_witness :
  exists prediction_crop count_crop tr',
    Binary64.scale_process_tiles (fun b => b) (fun t => t) [0%R] (fun t _ => t)
      (fun t _ => t) crop4_task image_8x8 (Some Float64.half) []
    = (inl (prediction_crop, count_crop), tr') /\
    tr' = [] ++ map (fun t => EvForward (net_input (fun t => t)
                                           (slice2 image_8x8 (s_h t) (e_h t) (s_w t) (e_w t))
                                           true))
                    [Tile 0 4 0 4; Tile 0 4 2 6; Tile 0 4 4 8;
                     Tile 2 6 0 4; Tile 2 6 2 6; Tile 2 6 4 8;
                     Tile 4 8 0 4; Tile 4 8 2 6; Tile 4 8 4 8] /\
    count_crop = [[1; 1; 2; 2; 2; 2; 1; 1]; [1; 1; 2; 2; 2; 2; 1; 1];
                  [2; 2; 4; 4; 4; 4; 2; 2]; [2; 2; 4; 4; 4; 4; 2; 2];
                  [2; 2; 4; 4; 4; 4; 2; 2]; [2; 2; 4; 4; 4; 4; 2; 2];
                  [1; 1; 2; 2; 2; 2; 1; 1]; [1; 1; 2; 2; 2; 2; 1; 1]].
Proof.
  eexists _, _, _. split.
  - run_scores.
  - destruct stride_and_grid as (_ & _ & _ & _ & _ & H).
    eapply (H (fun b => b) (fun t => t) [0%R] (fun t _ => t) (fun t _ => t)
              crop4_task image_8x8 []).
    + reflexivity.
    + reflexivity.
    + reflexivity.
    + reflexivity.
    + run_scores.
Defined.

(* ------------------------------------------------------------------ *)
(** ** The fusion of the scales in the arithmetic of its tensors *)

Module Binary32Facts.

Import SpecFloat.

Lemma valid32 (s : bool) (m : positive) (e : Z) :
  valid_binary 24 128 (S754_finite s m e) = true ->
  - 149 <= e /\ Z.pos m < 2 ^ 24 /\ (- 149 < e -> 2 ^ 23 <= Z.pos m).
Proof.
  unfold valid_binary, bounded, canonical_mantissa. intros V.
  apply andb_true_iff in V. destruct V as [V _]. apply Z.eqb_eq in V.
  unfold fexp, emin in V. rewrite Float64Facts.digits2_pos_log2 in V.
  assert (H0 : 0 < Z.pos m) by lia.
  split; [lia | ]. split.
  - apply Z.log2_lt_pow2; lia.
  - intros He. apply Z.log2_le_pow2; lia.
Qed.

Lemma scaled_value (x : spec_float) (v : Q) :
  valid_binary 24 128 x = true -> SFvalue x = Some v ->
  (v * inject_Z (2 ^ 149) == inject_Z (Numeric.scaled32 x))%Q.
Proof.
  intros V Hv. destruct x as [s | s | | s m e]; try discriminate.
  - injection Hv as <-. reflexivity.
  - destruct (valid32 s m e V) as (He & _ & _).
    cbn [SFvalue Numeric.scaled32] in *. injection Hv as <-.
    destruct e as [ | p | p].
    + rewrite Z.pow_0_r, Z.mul_1_r. rewrite <- inject_Z_mult. reflexivity.
    + rewrite <- inject_Z_mult. rewrite Z.pow_add_r by lia.
      rewrite Z.mul_assoc. reflexivity.
    + unfold Qeq, Qmult. cbn [Qnum Qden inject_Z].
      rewrite Pos.mul_1_r, Z.mul_1_r, Pos2Z.inj_pow.
      replace (2 ^ 149) with (2 ^ (Z.neg p + 149) * 2 ^ Z.pos p)
        by (rewrite <- Z.pow_add_r by lia; f_equal; lia).
      ring.
Qed.

Lemma scaled_lt_exponent (m1 m2 : positive) (e1 e2 : Z) :
  valid_binary 24 128 (S754_finite false m1 e1) = true ->
  valid_binary 24 128 (S754_finite false m2 e2) = true ->
  e1 < e2 ->
  Z.pos m1 * 2 ^ (e1 + 149) < Z.pos m2 * 2 ^ (e2 + 149).
Proof.
  intros V1 V2 He.
  destruct (valid32 _ _ _ V1) as (H1 & B1 & _).
  destruct (valid32 _ _ _ V2) as (_ & _ & N2). specialize (N2 ltac:(lia)).
  assert (P1 : 0 < 2 ^ (e1 + 149)) by (apply Z.pow_pos_nonneg; lia).
  assert (E : 2 ^ (e2 + 149) = 2 ^ (e2 - e1 - 1) * 2 * 2 ^ (e1 + 149)).
  { replace (e2 + 149) with ((e2 - e1 - 1) + 1 + (e1 + 149)) by lia.
    rewrite !Z.pow_add_r by lia. reflexivity. }
  assert (P2 : 1 <= 2 ^ (e2 - e1 - 1)) by (apply Z.lt_pred_le, Z.pow_pos_nonneg; lia).
  rewrite E. change (2 ^ 24) with (2 * 2 ^ 23) in B1. nia.
Qed.

(** The comparison of two binary32 numbers is the comparison of their
    values. *)
Lemma compare_scaled (x y : spec_float) (vx vy : Q) :
  valid_binary 24 128 x = true -> valid_binary 24 128 y = true ->
  SFvalue x = Some vx -> SFvalue y = Some vy ->
  SFcompare x y = Some (Numeric.scaled32 x ?= Numeric.scaled32 y).
Proof.
  intros Vx Vy Hx Hy.
  destruct x as [sx | sx | | sx mx ex]; try discriminate;
    destruct y as [sy | sy | | sy my ey]; try discriminate.
  - reflexivity.
  - destruct (valid32 _ _ _ Vy) as (He & _ & _).
    assert (P : 0 < 2 ^ (ey + 149)) by (apply Z.pow_pos_nonneg; lia).
    cbn [SFcompare Numeric.scaled32]. f_equal. symmetry.
    destruct sy; cbn [signed]; [apply Z.compare_gt_iff | apply Z.compare_lt_iff]; nia.
  - destruct (valid32 _ _ _ Vx) as (He & _ & _).
    assert (P : 0 < 2 ^ (ex + 149)) by (apply Z.pow_pos_nonneg; lia).
    cbn [SFcompare Numeric.scaled32]. f_equal. symmetry.
    destruct sx; cbn [signed]; [apply Z.compare_lt_iff | apply Z.compare_gt_iff]; nia.
  - destruct (valid32 _ _ _ Vx) as (Hex & _ & _).
    destruct (valid32 _ _ _ Vy) as (Hey & _ & _).
    assert (Px : 0 < 2 ^ (ex + 149)) by (apply Z.pow_pos_nonneg; lia).
    assert (Py : 0 < 2 ^ (ey + 149)) by (apply Z.pow_pos_nonneg; lia).
    assert (Vx' : valid_binary 24 128 (S754_finite false mx ex) = true) by exact Vx.
    assert (Vy' : valid_binary 24 128 (S754_finite false my ey) = true) by exact Vy.
    cbn [SFcompare Numeric.scaled32]. f_equal. symmetry.
    destruct sx, sy; cbn [signed].
    + destruct (Z.compare_spec ex ey) as [E | L | G].
      * subst ey. rewrite Pos.compare_cont_spec. cbn [Pos.switch_Eq].
        change (Z.neg mx) with (- Z.pos mx). change (Z.neg my) with (- Z.pos my).
        destruct (Pos.compare_spec mx my) as [-> | L | G]; cbn [CompOpp].
        -- apply Z.compare_eq_iff. reflexivity.
        -- apply Z.compare_gt_iff. apply Pos2Z.pos_lt_pos in L. nia.
        -- apply Z.compare_lt_iff. apply Pos2Z.pos_lt_pos in G. nia.
      * apply Z.compare_gt_iff.
        pose proof (scaled_lt_exponent mx my ex ey Vx' Vy' L). lia.
      * apply Z.compare_lt_iff.
        pose proof (scaled_lt_exponent my mx ey ex Vy' Vx' G). lia.
    + apply Z.compare_lt_iff. nia.
    + apply Z.compare_gt_iff. nia.
    + destruct (Z.compare_spec ex ey) as [E | L | G].
      * subst ey. rewrite Pos.compare_cont_spec. cbn [Pos.switch_Eq].
        destruct (Pos.compare_spec mx my) as [-> | L | G].
        -- apply Z.compare_eq_iff. reflexivity.
        -- apply Z.compare_lt_iff. apply Pos2Z.pos_lt_pos in L. nia.
        -- apply Z.compare_gt_iff. apply Pos2Z.pos_lt_pos in G. nia.
      * apply Z.compare_lt_iff. exact (scaled_lt_exponent mx my ex ey Vx' Vy' L).
      * apply Z.compare_gt_iff.
        pose proof (scaled_lt_exponent my mx ey ex Vy' Vx' G). lia.
Qed.

End Binary32Facts.

(** For binary32 numbers that are neither an infinity nor a NaN, the
    comparison of [torch.argmax] is the order of their values. *)
Lemma binary32_order (x y : SpecFloat.spec_float) (vx vy : Q) :
  SpecFloat.valid_binary 24 128 x = true -> SpecFloat.valid_binary 24 128 y = true ->
  SFvalue x = Some vx -> SFvalue y = Some vy ->
  (Numeric.gtb Numeric.binary32 x y = true <-> (vy < vx)%Q).
Proof.
  intros Vx Vy Hx Hy.
  pose proof (Binary32Facts.compare_scaled y x vy vx Vy Vx Hy Hx) as C.
  pose proof (Binary32Facts.scaled_value x vx Vx Hx) as Sx.
  pose proof (Binary32Facts.scaled_value y vy Vy Hy) as Sy.
  assert (Hnan : Numeric.is_nan x = false) by (destruct x; try reflexivity; discriminate).
  cbn [Numeric.gtb Numeric.binary32]. rewrite Hnan, andb_false_l, orb_false_r.
  unfold SpecFloat.SFltb. rewrite C.
  assert (P : (0 < inject_Z (2 ^ 149))%Q) by reflexivity.
  rewrite <- (Qmult_lt_r vy vx _ P), Sx, Sy, <- Zlt_Qlt.
  unfold Z.lt. destruct (Numeric.scaled32 y ?= Numeric.scaled32 x); split; congruence.
Qed.

Lemma num_shape3_spec {A : Type} (n1 n2 n3 : nat) (t : list (list (list A))) :
  Numeric.has_shape3 n1 n2 n3 t = true <->
  length t = n1 /\
  forall a, In a t -> length a = n2 /\ forall b, In b a -> length b = n3.
Proof.
  unfold Numeric.has_shape3. rewrite andb_true_iff, Nat.eqb_eq, forallb_forall. split.
  - intros [H1 H2]. split; [exact H1 | ]. intros a Ha. specialize (H2 a Ha).
    rewrite andb_true_iff, Nat.eqb_eq, forallb_forall in H2. destruct H2 as [H2 H3].
    split; [exact H2 | ]. intros b Hb. apply Nat.eqb_eq, H3, Hb.
  - intros [H1 H2]. split; [exact H1 | ]. intros a Ha. destruct (H2 a Ha) as [H3 H4].
    rewrite andb_true_iff, Nat.eqb_eq, forallb_forall. split; [exact H3 | ].
    intros b Hb. apply Nat.eqb_eq, H4, Hb.
Qed.

Section NumericFusion.

Variable ar : Numeric.arithmetic.

Lemma num_add3_zip3 (n1 n2 n3 : nat) (a b : Numeric.score_map ar) :
  Numeric.has_shape3 n1 n2 n3 a = true -> Numeric.has_shape3 n1 n2 n3 b = true ->
  Numeric.add3 ar a b = Some (Numeric.zip3 ar a b).
Proof.
  intros Ha Hb. apply num_shape3_spec in Ha, Hb.
  destruct Ha as [La Ha], Hb as [Lb Hb].
  apply bzip_zip_with; [congruence | ].
  intros x y Hx Hy. destruct (Ha x Hx) as [Lx Hx'], (Hb y Hy) as [Ly Hy'].
  apply bzip_zip_with; [congruence | ].
  intros r s Hr Hs. apply bzip_zip_with; [ | reflexivity].
  rewrite (Hx' r Hr), (Hy' s Hs). reflexivity.
Qed.

Lemma num_zip3_shape (n1 n2 n3 : nat) (a b : Numeric.score_map ar) :
  Numeric.has_shape3 n1 n2 n3 a = true -> Numeric.has_shape3 n1 n2 n3 b = true ->
  Numeric.has_shape3 n1 n2 n3 (Numeric.zip3 ar a b) = true.
Proof.
  rewrite !num_shape3_spec. intros [La Ha] [Lb Hb]. unfold Numeric.zip3. split.
  - rewrite zip_with_length; congruence.
  - intros r Hr. apply zip_with_in in Hr. destruct Hr as (x & y & Hx & Hy & ->).
    destruct (Ha x Hx) as [Lx Hx'], (Hb y Hy) as [Ly Hy']. split.
    + rewrite zip_with_length; congruence.
    + intros s Hs. apply zip_with_in in Hs. destruct Hs as (u & v & Hu & Hv & ->).
      rewrite zip_with_length; rewrite (Hx' u Hu); [reflexivity | ].
      rewrite (Hy' v Hv). reflexivity.
Qed.

Lemma num_zeros_shape (h w pred_dim : Z) :
  Numeric.has_shape3 (Z.to_nat h) (Z.to_nat w) (Z.to_nat pred_dim)
    (full2 h w (repeat (Numeric.zero ar) (Z.to_nat pred_dim))) = true.
Proof.
  apply num_shape3_spec. unfold full2. split; [apply repeat_length | ].
  intros a Ha. apply repeat_spec in Ha. subst a. split; [apply repeat_length | ].
  intros b Hb. apply repeat_spec in Hb. subst b. apply repeat_length.
Qed.

(** The sum of score maps of one shape, starting from [p]. *)
Lemma num_fold_add3 (n1 n2 n3 : nat) (score_maps : list (Numeric.score_map ar))
    (p : Numeric.score_map ar) :
  (forall m, In m score_maps -> Numeric.has_shape3 n1 n2 n3 m = true) ->
  Numeric.has_shape3 n1 n2 n3 p = true ->
  fold_left (fun acc m => match acc with Some q => Numeric.add3 ar q m | None => None end)
            score_maps (Some p)
  = Some (fold_left (Numeric.zip3 ar) score_maps p)
  /\ Numeric.has_shape3 n1 n2 n3 (fold_left (Numeric.zip3 ar) score_maps p) = true.
Proof.
  revert p. induction score_maps as [ | m ms IH]; intros p Hms Hp.
  - split; [reflexivity | exact Hp].
  - cbn [fold_left]. rewrite (num_add3_zip3 n1 n2 n3) by (auto using in_eq).
    apply IH.
    + intros m' Hm'. apply Hms. right. exact Hm'.
    + apply num_zip3_shape; auto using in_eq.
Qed.

Lemma num_scores_at_shape (n1 n2 n3 : nat) (m : Numeric.score_map ar) (i j : nat) :
  Numeric.has_shape3 n1 n2 n3 m = true -> (i < n1)%nat -> (j < n2)%nat ->
  length (nth i m []) = n2 /\ length (Numeric.scores_at ar m i j) = n3.
Proof.
  intros H Hi Hj. apply num_shape3_spec in H. destruct H as [L H].
  unfold Numeric.scores_at, Numeric.score_map in *.
  assert (Hin : In (nth i m []) m) by (apply nth_In; lia).
  destruct (H _ Hin) as [L2 H2]. split; [exact L2 | ].
  apply H2. apply nth_In. lia.
Qed.

Lemma num_scores_at_zip3 (n1 n2 n3 : nat) (a b : Numeric.score_map ar) (i j : nat) :
  Numeric.has_shape3 n1 n2 n3 a = true -> Numeric.has_shape3 n1 n2 n3 b = true ->
  (i < n1)%nat -> (j < n2)%nat ->
  Numeric.scores_at ar (Numeric.zip3 ar a b) i j
  = zip_with (Numeric.add ar) (Numeric.scores_at ar a i j) (Numeric.scores_at ar b i j).
Proof.
  intros Ha Hb Hi Hj.
  destruct (num_scores_at_shape n1 n2 n3 a i j Ha Hi Hj) as [La _].
  destruct (num_scores_at_shape n1 n2 n3 b i j Hb Hi Hj) as [Lb _].
  apply num_shape3_spec in Ha, Hb. destruct Ha as [La0 _], Hb as [Lb0 _].
  unfold Numeric.scores_at, Numeric.zip3, Numeric.score_map in *.
  rewrite (nth_zip_with _ a b i [] []) by lia.
  rewrite (nth_zip_with _ _ _ j [] []) by lia. reflexivity.
Qed.

Lemma num_scores_at_fold (n1 n2 n3 : nat) (score_maps : list (Numeric.score_map ar))
    (p : Numeric.score_map ar) (i j : nat) :
  (forall m, In m score_maps -> Numeric.has_shape3 n1 n2 n3 m = true) ->
  Numeric.has_shape3 n1 n2 n3 p = true -> (i < n1)%nat -> (j < n2)%nat ->
  Numeric.scores_at ar (fold_left (Numeric.zip3 ar) score_maps p) i j
  = fold_left (zip_with (Numeric.add ar))
              (map (fun m => Numeric.scores_at ar m i j) score_maps)
              (Numeric.scores_at ar p i j).
Proof.
  revert p. induction score_maps as [ | m ms IH]; intros p Hms Hp Hi Hj.
  - reflexivity.
  - cbn [fold_left map]. rewrite IH.
    + rewrite (num_scores_at_zip3 n1 n2 n3) by (auto using in_eq). reflexivity.
    + intros m' Hm'. apply Hms. right. exact Hm'.
    + apply num_zip3_shape; auto using in_eq.
    + exact Hi.
    + exact Hj.
Qed.

Lemma num_scores_at_zeros (h w pred_dim : Z) (i j : nat) :
  (i < Z.to_nat h)%nat -> (j < Z.to_nat w)%nat ->
  Numeric.scores_at ar (full2 h w (repeat (Numeric.zero ar) (Z.to_nat pred_dim))) i j
  = repeat (Numeric.zero ar) (Z.to_nat pred_dim).
Proof.
  intros Hi Hj. unfold Numeric.scores_at, full2.
  rewrite !nth_repeat_lt by assumption. reflexivity.
Qed.

Lemma num_get2_label_map (n1 n2 n3 : nat) (prediction : Numeric.score_map ar) (n : nat)
    (i j : Z) :
  Numeric.has_shape3 n1 n2 n3 prediction = true ->
  0 <= i < Z.of_nat n1 -> 0 <= j < Z.of_nat n2 ->
  get2 (Numeric.label_map ar prediction n) i j
  = Some (uint8 (Numeric.argmax ar
                   (map (fun x => Numeric.div_by ar x n)
                        (Numeric.scores_at ar prediction (Z.to_nat i) (Z.to_nat j))))).
Proof.
  intros H Hi Hj.
  destruct (num_scores_at_shape n1 n2 n3 prediction (Z.to_nat i) (Z.to_nat j) H) as [L2 _];
    [lia | lia | ].
  apply num_shape3_spec in H. destruct H as [L _].
  unfold get2, Py.get, Numeric.label_map, Numeric.scores_at, Numeric.score_map in *.
  destruct (Z.ltb_spec i 0); [lia | ]. destruct (Z.ltb_spec j 0); [lia | ].
  rewrite nth_error_map.
  rewrite (nth_error_nth' prediction []) by lia. cbn [option_map].
  rewrite nth_error_map.
  rewrite (nth_error_nth' _ []) by lia. reflexivity.
Qed.

Lemma num_label_map_shaped (n1 n2 n3 : nat) (prediction : Numeric.score_map ar) (n : nat) :
  Numeric.has_shape3 n1 n2 n3 prediction = true ->
  shaped (Z.of_nat n1) (Z.of_nat n2) (Numeric.label_map ar prediction n).
Proof.
  intros H. apply num_shape3_spec in H. destruct H as [L H].
  unfold shaped, height, Numeric.label_map, Numeric.score_map in *. split.
  - rewrite length_map. lia.
  - apply Forall_forall. intros r Hr. apply in_map_iff in Hr.
    destruct Hr as (r0 & <- & Hr0). rewrite length_map.
    destruct (H r0 Hr0) as [L2 _]. lia.
Qed.

Lemma num_summed_scores_length (n1 n2 : nat) (pred_dim : Z)
    (score_maps : list (Numeric.score_map ar)) (i j : nat) :
  (forall m, In m score_maps ->
             Numeric.has_shape3 n1 n2 (Z.to_nat pred_dim) m = true) ->
  (i < n1)%nat -> (j < n2)%nat ->
  length (Numeric.summed_scores ar pred_dim score_maps i j) = Z.to_nat pred_dim.
Proof.
  intros Hms Hi Hj. unfold Numeric.summed_scores.
  assert (H : forall (l : list (list (Numeric.num ar))) (acc : list (Numeric.num ar)),
             (forall x, In x l -> length x = length acc) ->
             length (fold_left (zip_with (Numeric.add ar)) l acc) = length acc).
  { induction l as [ | x l IH]; intros acc Hl; [reflexivity | ].
    cbn [fold_left]. rewrite IH.
    - apply zip_with_length. symmetry. apply Hl. left. reflexivity.
    - intros y Hy. rewrite zip_with_length by (symmetry; apply Hl; left; reflexivity).
      apply Hl. right. exact Hy. }
  rewrite H; [apply repeat_length | ].
  intros x Hx. apply in_map_iff in Hx. destruct Hx as (m & <- & Hm).
  rewrite repeat_length.
  apply (num_scores_at_shape n1 n2 (Z.to_nat pred_dim) m i j (Hms m Hm) Hi Hj).
Qed.

(** The fusion of score maps of one shape: it is defined, and the label
    of a pixel is the arg-max of its mean scores, reduced to 8 bits. *)
Lemma num_fuse_label (h w pred_dim : Z) (score_maps : list (Numeric.score_map ar)) :
  0 <= h -> 0 <= w ->
  (forall m, In m score_maps ->
             Numeric.has_shape3 (Z.to_nat h) (Z.to_nat w) (Z.to_nat pred_dim) m = true) ->
  exists labels,
    Numeric.fuse ar h w pred_dim score_maps = Some labels /\
    shaped h w labels /\
    forall i j, 0 <= i < h -> 0 <= j < w ->
      get2 labels i j
      = Some (uint8 (Numeric.argmax ar
                       (Numeric.mean_scores ar pred_dim score_maps (Z.to_nat i) (Z.to_nat j))))
      /\ length (Numeric.mean_scores ar pred_dim score_maps (Z.to_nat i) (Z.to_nat j))
         = Z.to_nat pred_dim.
Proof.
  intros Hh Hw Hms. unfold Numeric.fuse.
  destruct (num_fold_add3 _ _ _ score_maps _ Hms (num_zeros_shape h w pred_dim)) as [E S].
  unfold Numeric.score_map in *. cbv zeta. rewrite E. eexists. split; [reflexivity | ]. split.
  - pose proof (num_label_map_shaped _ _ _ _ (length score_maps) S) as L.
    rewrite !Z2Nat.id in L by assumption. exact L.
  - intros i j Hi Hj.
    rewrite (num_get2_label_map _ _ _ _ _ i j S) by lia.
    rewrite (num_scores_at_fold _ _ _ score_maps _ _ _ Hms (num_zeros_shape h w pred_dim))
      by lia.
    rewrite num_scores_at_zeros by lia.
    split; [reflexivity | ].
    unfold Numeric.mean_scores. rewrite length_map.
    apply (num_summed_scores_length (Z.to_nat h) (Z.to_nat w)); [exact Hms | lia | lia].
Qed.

Lemma num_argmax_from_bound (t : list (Numeric.num ar)) (i best : Z) (best_val : Numeric.num ar) :
  let r := Numeric.argmax_from ar t i best best_val in
  r = best \/ i <= r < i + Z.of_nat (length t).
Proof.
  revert i best best_val. induction t as [ | y t IH]; intros i best bv; cbn [Numeric.argmax_from].
  - left. reflexivity.
  - cbn [length]. destruct (Numeric.gtb ar y bv).
    + destruct (IH (i + 1) i y) as [-> | H]; right; lia.
    + destruct (IH (i + 1) best bv) as [-> | H]; [left; reflexivity | right; lia].
Qed.

Lemma num_argmax_bound (l : list (Numeric.num ar)) :
  0 <= Numeric.argmax ar l < Z.max 1 (Z.of_nat (length l)).
Proof.
  destruct l as [ | x t]; cbn [Numeric.argmax length]; [lia | ].
  destruct (num_argmax_from_bound t 1 0 x) as [-> | H]; lia.
Qed.

(** [argmax_from] continues a scan: [pre] is what has been seen, [best]
    the index of its first maximum and [best_val] that maximum.  The
    comparison is the order of the values of the numbers compared. *)
Lemma num_argmax_from_first (value : Numeric.num ar -> Q) (t pre : list (Numeric.num ar))
    (best : Z) (best_val : Numeric.num ar) :
  (forall x y, In x (pre ++ t) -> In y (pre ++ t) ->
               (Numeric.gtb ar x y = true <-> (value y < value x)%Q)) ->
  0 <= best ->
  nth_error pre (Z.to_nat best) = Some best_val ->
  (forall k x, nth_error pre k = Some x -> (value x <= value best_val)%Q) ->
  (forall k x, Z.of_nat k < best -> nth_error pre k = Some x -> (value x < value best_val)%Q) ->
  let r := Numeric.argmax_from ar t (Z.of_nat (length pre)) best best_val in
  exists rv,
    nth_error (pre ++ t) (Z.to_nat r) = Some rv /\
    (forall k x, nth_error (pre ++ t) k = Some x -> (value x <= value rv)%Q) /\
    (forall k x, Z.of_nat k < r -> nth_error (pre ++ t) k = Some x -> (value x < value rv)%Q).
Proof.
  revert pre best best_val.
  induction t as [ | y t IH]; intros pre best bv Hord Hb Hn Hmax Hfirst;
    assert (Hbl : (Z.to_nat best < length pre)%nat)
      by (apply nth_error_Some; rewrite Hn; discriminate).
  - cbn [Numeric.argmax_from]. rewrite app_nil_r. exists bv. auto.
  - cbn [Numeric.argmax_from].
    assert (Hy : In y (pre ++ y :: t)) by (apply in_or_app; right; left; reflexivity).
    assert (Hbv : In bv (pre ++ y :: t))
      by (apply in_or_app; left; eapply nth_error_In; exact Hn).
    replace (pre ++ y :: t) with ((pre ++ [y]) ++ t) in *
      by (rewrite <- app_assoc; reflexivity).
    replace (Z.of_nat (length pre) + 1) with (Z.of_nat (length (pre ++ [y])))
      by (rewrite length_app; simpl; lia).
    destruct (Numeric.gtb ar y bv) eqn:G.
    + apply (Hord y bv Hy Hbv) in G.
      apply IH.
      * exact Hord.
      * lia.
      * rewrite Nat2Z.id, nth_error_app2, Nat.sub_diag by lia. reflexivity.
      * intros k x Hk. destruct (Nat.lt_ge_cases k (length pre)) as [Hin | Hout].
        -- rewrite nth_error_app1 in Hk by exact Hin. specialize (Hmax k x Hk).
           apply Qlt_le_weak. eapply Qle_lt_trans; eassumption.
        -- rewrite nth_error_app2 in Hk by exact Hout.
           destruct (k - length pre)%nat as [ | n]; cbn in Hk.
           ++ injection Hk as <-. apply Qle_refl.
           ++ destruct n; discriminate.
      * intros k x Hk Hx. rewrite nth_error_app1 in Hx by lia.
        specialize (Hmax k x Hx). eapply Qle_lt_trans; eassumption.
    + assert (Hle : (value y <= value bv)%Q).
      { apply Qnot_lt_le. intros Hlt. apply (Hord y bv Hy Hbv) in Hlt. congruence. }
      apply IH.
      * exact Hord.
      * exact Hb.
      * rewrite nth_error_app1; [exact Hn | exact Hbl].
      * intros k x Hk. destruct (Nat.lt_ge_cases k (length pre)) as [Hin | Hout].
        -- rewrite nth_error_app1 in Hk by exact Hin. exact (Hmax k x Hk).
        -- rewrite nth_error_app2 in Hk by exact Hout.
           destruct (k - length pre)%nat as [ | n]; cbn in Hk.
           ++ injection Hk as <-. exact Hle.
           ++ destruct n; discriminate.
      * intros k x Hk Hx.
        rewrite nth_error_app1 in Hx by lia. exact (Hfirst k x Hk Hx).
Qed.

(** [argmax] returns the index of the first maximum. *)
Lemma num_argmax_first (value : Numeric.num ar -> Q) (l : list (Numeric.num ar)) :
  (forall x y, In x l -> In y l -> (Numeric.gtb ar x y = true <-> (value y < value x)%Q)) ->
  l <> [] ->
  exists v,
    nth_error l (Z.to_nat (Numeric.argmax ar l)) = Some v /\
    (forall k x, nth_error l k = Some x -> (value x <= value v)%Q) /\
    (forall k x, Z.of_nat k < Numeric.argmax ar l -> nth_error l k = Some x ->
                 (value x < value v)%Q).
Proof.
  destruct l as [ | x t]; [congruence | intros Hord _].
  apply (num_argmax_from_first value t [x] 0 x).
  - exact Hord.
  - lia.
  - reflexivity.
  - intros [ | k] y Hk; cbn in Hk; [injection Hk as <-; apply Qle_refl | destruct k; discriminate].
  - intros k y Hk. lia.
Qed.

End NumericFusion.

(** The fusion in any arithmetic: the labels are the arg-max of the means,
    cast to 8 bits; where the comparison of the arg-max is the order of
    the values of the means of a pixel, the arg-max is the index of their
    first maximum. *)
Lemma num_fuse_mean_argmax (ar : Numeric.arithmetic) (h w pred_dim : Z)
    (score_maps : list (Numeric.score_map ar)) :
  0 <= h -> 0 <= w ->
  (forall m, In m score_maps ->
             Numeric.has_shape3 (Z.to_nat h) (Z.to_nat w) (Z.to_nat pred_dim) m = true) ->
  exists labels,
    Numeric.fuse ar h w pred_dim score_maps = Some labels /\
    shaped h w labels /\
    forall i j, 0 <= i < h -> 0 <= j < w ->
      let scores := Numeric.mean_scores ar pred_dim score_maps (Z.to_nat i) (Z.to_nat j) in
      let k := Numeric.argmax ar scores in
      let best := nth (Z.to_nat k) scores (Numeric.zero ar) in
      get2 labels i j = Some (k mod 256) /\
      (pred_dim <= 256 -> get2 labels i j = Some k) /\
      forall value : Numeric.num ar -> Q,
        (forall x y, In x scores -> In y scores ->
                     (Numeric.gtb ar x y = true <-> (value y < value x)%Q)) ->
        (forall n x, nth_error scores n = Some x -> (value x <= value best)%Q) /\
        (forall n x, Z.of_nat n < k -> nth_error scores n = Some x ->
                     (value x < value best)%Q).
Proof.
  intros Hh Hw Hms.
  destruct (num_fuse_label ar h w pred_dim score_maps Hh Hw Hms) as (labels & Hf & Hs & Hl).
  exists labels. split; [exact Hf | ]. split; [exact Hs | ].
  intros i j Hi Hj scores k best. destruct (Hl i j Hi Hj) as [Hg Hlen].
  fold scores in Hg, Hlen. fold k in Hg. unfold uint8 in Hg.
  split; [exact Hg | ]. split.
  - intros Hp. rewrite Hg. f_equal. apply Z.mod_small.
    pose proof (num_argmax_bound ar scores) as B. fold k in B. rewrite Hlen in B. lia.
  - intros value Hord.
    destruct scores as [ | s0 ss] eqn:E.
    + split; intros [ | n] x Hn; discriminate.
    + destruct (num_argmax_first ar value (s0 :: ss) Hord) as (v & Hv & Hmax & Hlt);
        [discriminate | ].
      assert (best = v) as ->.
      { unfold best, k. apply nth_error_nth. exact Hv. }
      split; assumption.
Qed.

(** The comparison of [torch.argmax] on binary32 numbers that are neither
    an infinity nor a NaN is the order of their values. *)
Lemma binary32_order_of_means (scores : list SpecFloat.spec_float) :
  (forall x, In x scores -> Numeric.finite32 x) ->
  forall x y, In x scores -> In y scores ->
    (Numeric.gtb Numeric.binary32 x y = true
     <-> (Numeric.value32 y < Numeric.value32 x)%Q).
Proof.
  intros Hfin x y Hx Hy.
  destruct (Hfin x Hx) as [Vx Fx]. destruct (Hfin y Hy) as [Vy Fy].
  unfold Numeric.value32.
  destruct (SFvalue x) as [vx | ] eqn:Ex; [ | congruence].
  destruct (SFvalue y) as [vy | ] eqn:Ey; [ | congruence].
  apply binary32_order; assumption.
Qed.

(** C5 (amended).  In the arithmetic of the tensors, whatever it is: for
    every non-empty sequence of [h x w x pred_dim] score maps, the fusion
    adds them elementwise to zeros in the order of the scales, divides by
    the number of scales and takes, per pixel, the arg-max along the class
    axis; the label is then cast to [uint8], whatever the class count: it
    is the class index modulo 256, hence the class index itself when there
    are at most 256 classes.  Where the comparison of the arg-max is the
    order of the values of the means of the pixel, the arg-max is the
    index of the first maximum: no mean is above it, and every mean before
    it is below (a tie goes to the lowest class index).  It is so in
    binary32, for the rounded means of a pixel that are neither an
    infinity nor a NaN. *)
Theorem fuse_mean_argmax :
  (forall (ar : Numeric.arithmetic) (h w pred_dim : Z)
          (score_maps : list (Numeric.score_map ar)),
      score_maps <> [] -> 0 <= h -> 0 <= w ->
      (forall m, In m score_maps ->
                 Numeric.has_shape3 (Z.to_nat h) (Z.to_nat w) (Z.to_nat pred_dim) m = true) ->
      exists labels,
        Numeric.fuse ar h w pred_dim score_maps = Some labels /\
        shaped h w labels /\
        forall i j, 0 <= i < h -> 0 <= j < w ->
          let scores :=
            Numeric.mean_scores ar pred_dim score_maps (Z.to_nat i) (Z.to_nat j) in
          let k := Numeric.argmax ar scores in
          let best := nth (Z.to_nat k) scores (Numeric.zero ar) in
          get2 labels i j = Some (k mod 256) /\
          (pred_dim <= 256 -> get2 labels i j = Some k) /\
          forall value : Numeric.num ar -> Q,
            (forall x y, In x scores -> In y scores ->
                         (Numeric.gtb ar x y = true <-> (value y < value x)%Q)) ->
            (forall n x, nth_error scores n = Some x -> (value x <= value best)%Q) /\
            (forall n x, Z.of_nat n < k -> nth_error scores n = Some x ->
                         (value x < value best)%Q)) /\
  (forall (h w pred_dim : Z) (score_maps : list (Numeric.score_map Numeric.binary32)),
      score_maps <> [] -> 0 <= h -> 0 <= w ->
      (forall m, In m score_maps ->
                 Numeric.has_shape3 (Z.to_nat h) (Z.to_nat w) (Z.to_nat pred_dim) m = true) ->
      exists labels,
        Numeric.fuse Numeric.binary32 h w pred_dim score_maps = Some labels /\
        shaped h w labels /\
        forall i j, 0 <= i < h -> 0 <= j < w ->
          let scores :=
            Numeric.mean_scores Numeric.binary32 pred_dim score_maps
              (Z.to_nat i) (Z.to_nat j) in
          let k := Numeric.argmax Numeric.binary32 scores in
          let best := nth (Z.to_nat k) scores (SpecFloat.S754_zero false) in
          (forall x, In x scores -> Numeric.finite32 x) ->
          get2 labels i j = Some (k mod 256) /\
          (forall n x, nth_error scores n = Some x ->
                       (Numeric.value32 x <= Numeric.value32 best)%Q) /\
          (forall n x, Z.of_nat n < k -> nth_error scores n = Some x ->
                       (Numeric.value32 x < Numeric.value32 best)%Q)).
Proof.
  split.
  - intros ar h w pred_dim score_maps _. apply num_fuse_mean_argmax.
  - intros h w pred_dim score_maps _ Hh Hw Hms.
    destruct (num_fuse_mean_argmax Numeric.binary32 h w pred_dim score_maps Hh Hw Hms)
      as (labels & Hf & Hs & Hl).
    exists labels. split; [exact Hf | ]. split; [exact Hs | ].
    intros i j Hi Hj scores k best Hfin.
    destruct (Hl i j Hi Hj) as (Hg & _ & Hv).
    split; [exact Hg | ].
    apply (Hv Numeric.value32). apply binary32_order_of_means. exact Hfin.
Qed.

Lemma fuse_mean_argmax_witness :
  exists labels,
    Numeric.fuse Numeric.binary32 1 1 2 close_score_maps32 = Some labels /\
    get2 labels 0 0 = Some 0 /\
    let scores := Numeric.mean_scores Numeric.binary32 2 close_score_maps32 0 0 in
    scores = [SpecFloat.S754_finite false 8388608 (-24);
              SpecFloat.S754_finite false 8388608 (-24)] /\
    forall n x, nth_error scores n = Some x ->
                (Numeric.value32 x
                 <= Numeric.value32 (SpecFloat.S754_finite false 8388608 (-24)))%Q.
Proof.
  assert (Hne : close_score_maps32 <> []) by discriminate.
  assert (Hshape : forall m, In m close_score_maps32 ->
                     Numeric.has_shape3 (Z.to_nat 1) (Z.to_nat 1) (Z.to_nat 2) m = true).
  { intros m [<- | [<- | []]]; reflexivity. }
  destruct fuse_mean_argmax as [_ H32].
  destruct (H32 1 1 2 close_score_maps32 Hne ltac:(lia) ltac:(lia) Hshape)
    as (labels & Hf & _ & Hl).
  exists labels. split; [exact Hf | ].
  assert (Hfin : forall x,
             In x (Numeric.mean_scores Numeric.binary32 2 close_score_maps32
                     (Z.to_nat 0) (Z.to_nat 0)) ->
             Numeric.finite32 x).
  { intros x [<- | [<- | []]]; (split; [reflexivity | discriminate]). }
  destruct (Hl 0 0 ltac:(lia) ltac:(lia) Hfin) as (Hg & Hmax & _).
  split; [exact Hg | ].
  intros scores. split; [reflexivity | exact Hmax].
Defined.

(* ------------------------------------------------------------------ *)
(** ** The arithmetic of the real numbers, and binary32 against it *)

Lemma reals_argmax_from (l : list R) (i best : Z) (best_val : R) :
  Numeric.argmax_from Numeric.reals l i best best_val = argmax_from l i best best_val.
Proof.
  revert i best best_val. induction l as [ | x l IH]; intros i best bv; [reflexivity | ].
  cbn [Numeric.argmax_from argmax_from Numeric.gtb Numeric.reals].
  destruct (Rlt_dec bv x); apply IH.
Qed.

Lemma reals_argmax (l : list R) : Numeric.argmax Numeric.reals l = argmax l.
Proof. destruct l as [ | x l]; [reflexivity | apply reals_argmax_from]. Qed.

(** [fuse] is the fusion in the arithmetic of the real numbers. *)
Lemma reals_fuse (h w pred_dim : Z) (score_maps : list image) :
  Numeric.fuse Numeric.reals h w pred_dim score_maps = fuse h w pred_dim score_maps.
Proof.
  unfold Numeric.fuse, fuse.
  change (Numeric.add3 Numeric.reals) with add3.
  change (Numeric.zero Numeric.reals) with 0%R.
  destruct (fold_left _ score_maps _) as [prediction | ]; [ | reflexivity].
  f_equal. unfold Numeric.label_map, label_map.
  apply map_ext. intros row. apply map_ext. intros px.
  rewrite reals_argmax. reflexivity.
Qed.

(** The scores [1, 1] and [0, 2^-60] of two scales: in binary32 the two
    sums are 1, the means tie and the label is the class 0; in real
    numbers the second mean is the larger one and the label is the
    class 1. *)
Example binary32_sums_tie :
  Numeric.fuse Numeric.binary32 1 1 2 close_score_maps32 = Some [[0]] /\
  fuse 1 1 2 close_score_maps = Some [[1]].
Proof.
  split; [vm_compute; reflexivity | ].
  cbv -[Rplus Rmult Rinv Rdiv Rminus Ropp IZR INR Rlt_dec pow].
  destruct (Rlt_dec _ _) as [_ | N]; [reflexivity | ].
  exfalso. apply N.
  assert (P : (0 < / 2 ^ 60)%R) by (apply Rinv_0_lt_compat, pow_lt; lra).
  change (INR 2) with (1 + 1)%R. lra.
Qed.

Lemma zip_with_repeat {A B C} (f : A -> B -> C) (x : A) (y : B) (n : nat) :
  zip_with f (repeat x n) (repeat y n) = repeat (f x y) n.
Proof.
  induction n as [ | n IH]; [reflexivity | ].
  cbn [repeat]. rewrite zip_with_cons, IH. reflexivity.
Qed.

Lemma argmax_from_repeat (z o : R) (n : nat) (i best : Z) :
  (z < o)%R -> argmax_from (repeat z n ++ [o]) i best z = i + Z.of_nat n.
Proof.
  intros Hlt. revert i best. induction n as [ | n IH]; intros i best.
  - cbn. destruct (Rlt_dec z o); [lia | contradiction].
  - cbn [repeat app argmax_from].
    destruct (Rlt_dec z z) as [Hzz | _]; [exfalso; lra | ].
    rewrite IH. lia.
Qed.

Lemma argmax_mean_last (n : nat) :
  argmax (map (fun x => (x / INR 1)%R)
              (zip_with Rplus (repeat 0%R (n + 1)) (repeat 0%R n ++ [1%R])))
  = Z.of_nat n.
Proof.
  rewrite repeat_app. cbn [repeat].
  rewrite zip_with_app by reflexivity.
  rewrite zip_with_repeat, map_app, map_repeat. cbn [zip_with combine map fst snd].
  destruct n as [ | n]; [reflexivity | ].
  cbn [repeat app argmax]. rewrite argmax_from_repeat; [lia | ].
  cbn [INR]. lra.
Qed.

(** C5 as stated fails: with 257 classes and the highest score on the
    last one, the label is 0 while the arg-max class is 256; the cast is
    to 8 bits and not to a type sized to the class count.  It is so in
    real numbers and in binary32 alike. *)
Lemma fuse_label_wraps_beyond_256_classes :
  (exists labels,
      fuse 1 1 257 [wide_score_map] = Some labels /\
      get2 labels 0 0 = Some 0 /\
      argmax (mean_scores 257 [wide_score_map] 0 0) = 256) /\
  Numeric.fuse Numeric.binary32 1 1 257 [wide_score_map32] = Some [[0]] /\
  Numeric.argmax Numeric.binary32
    (Numeric.mean_scores Numeric.binary32 257 [wide_score_map32] 0 0) = 256.
Proof.
  split; [ | split; vm_compute; reflexivity].
  assert (Hshape : forall m, In m [wide_score_map] ->
                     has_shape3 (Z.to_nat 1) (Z.to_nat 1) (Z.to_nat 257) m = true).
  { intros m [<- | []]. reflexivity. }
  destruct (fuse_label 1 1 257 [wide_score_map] ltac:(lia) ltac:(lia) Hshape)
    as (labels & Hf & _ & Hl).
  destruct (Hl 0 0 ltac:(lia) ltac:(lia)) as [Hg _].
  assert (Ha : argmax (mean_scores 257 [wide_score_map] 0 0) = 256)
    by exact (argmax_mean_last 256).
  exists labels. split; [exact Hf | ]. split; [ | exact Ha].
  change (Z.to_nat 0) with 0%nat in Hg. rewrite Hg, Ha. reflexivity.
Qed.
